(** * RLHF data-quality pipeline: row model, detectors, severity, store

    A shallow embedding of the Python sources
      - [src/models.py]                       (PreferenceRow)
      - [detectors/base.py]                   (BaseDetector.get_severity_level)
      - [src/signals/*.py]                    (the detectors)
      - [src/loaders/hh_rlhf.py]              (the HH-RLHF loader)
      - [database.py]                         (the SQLite detection store)
    together with the properties the specification states about them, and
    further properties of the same code: its errors and edge cases, the
    invariants of the store, and how its operations compose.

    Conventions.
      - A Python [str] is a [string]: a sequence of 8-bit characters read as
        the code points U+0000..U+00FF.
      - A Python [float] is an IEEE-754 binary64 value, [spec_float] with
        precision 53 and maximal exponent 1024; comparisons are the IEEE ones
        (every comparison with a NaN is false).
      - A raised exception is the [Raise] case of [result]. *)

From Stdlib Require Import ZArith String List Lia Bool Ascii.
From Stdlib Require Import Floats.SpecFloat Floats.PrimFloat Floats.FloatOps.
From Stdlib Require Import Reals Lra.
From stdpp Require Import gmap strings list pretty.

(** ** Exceptions and results *)

Inductive exn : Type :=
  | ValueError (msg : string)             (* builtins.ValueError *)
  | IntegrityError (msg : string)         (* sqlite3.IntegrityError *)
  | OperationalError (msg : string)       (* sqlite3.OperationalError *)
  | ZeroDivisionError (msg : string)      (* builtins.ZeroDivisionError *)
  | TypeError (msg : string)              (* builtins.TypeError *)
  | IndexError (msg : string).            (* builtins.IndexError *)

Inductive result (A : Type) : Type :=
  | Ok (a : A)
  | Raise (e : exn).
Arguments Ok {A} a.
Arguments Raise {A} e.

(** The exception monad: [x ← r; k] runs [k] unless [r] raised. *)
#[export] Instance result_ret : MRet result := fun A a => Ok a.
#[export] Instance result_bind : MBind result := fun A B k r =>
  match r with
  | Ok a => k a
  | Raise e => Raise e
  end.
#[export] Instance result_fmap : FMap result := fun A B f r =>
  match r with
  | Ok a => Ok (f a)
  | Raise e => Raise e
  end.

(** Exceptions, and results over a type with a decidable equality, can be
    told apart. *)
#[export] Instance exn_eq_dec : EqDecision exn.
Proof. solve_decision. Defined.

#[export] Instance result_eq_dec {A} `{EqDecision A} : EqDecision (result A).
Proof. solve_decision. Defined.

(** [not s] on a Python string: true exactly on the empty string. *)
Definition str_falsy (s : string) : bool :=
  match s with
  | EmptyString => true
  | String _ _ => false
  end.

(** ** Python strings *)

Module Str.

(** The code point of a character. *)
Definition ord (c : ascii) : N := N_of_ascii c.

Definition between (lo hi n : N) : bool := (lo <=? n)%N && (n <=? hi)%N.

(** The characters [str.lower] changes, among U+0000..U+00FF: A-Z and the
    Latin-1 capitals U+00C0..U+00DE except the multiplication sign U+00D7;
    each goes to the character 32 places further. *)
Definition is_upper (c : ascii) : bool :=
  between 65 90 (ord c) || between 192 214 (ord c) || between 216 222 (ord c).

Definition lower_char (c : ascii) : ascii :=
  if is_upper c then ascii_of_N (ord c + 32) else c.

(** [s.lower()]. *)
Fixpoint lower (s : string) : string :=
  match s with
  | EmptyString => EmptyString
  | String c s' => String (lower_char c) (lower s')
  end.

(** [s.startswith(prefix)]. *)
Fixpoint startswith (s prefix : string) {struct prefix} : bool :=
  match prefix with
  | EmptyString => true
  | String c prefix' =>
      match s with
      | EmptyString => false
      | String d s' => Ascii.eqb c d && startswith s' prefix'
      end
  end.

(** [needle in hay]: [needle] occurs in [hay] as a substring. *)
Fixpoint contains (hay needle : string) : bool :=
  startswith hay needle ||
  match hay with
  | EmptyString => false
  | String _ hay' => contains hay' needle
  end.

(** [s[0]] and [s[-1]], when there is one. *)
Definition head (s : string) : option ascii :=
  match s with
  | EmptyString => None
  | String c _ => Some c
  end.

Fixpoint last (s : string) : option ascii :=
  match s with
  | EmptyString => None
  | String c EmptyString => Some c
  | String _ s' => last s'
  end.

(** [s[:n]] and [s[n:]]. *)
Fixpoint take (n : nat) (s : string) : string :=
  match n, s with
  | S n', String c s' => String c (take n' s')
  | _, _ => EmptyString
  end.

Fixpoint drop (n : nat) (s : string) : string :=
  match n, s with
  | S n', String _ s' => drop n' s'
  | _, _ => s
  end.

(** The classes [\w] and [\s] of [re] on a [str] pattern, among
    U+0000..U+00FF: the alphanumeric characters and the underscore; the
    characters [str.isspace] accepts. *)
Definition is_word (c : ascii) : bool :=
  let n := ord c in
  between 48 57 n || between 65 90 n || (n =? 95)%N || between 97 122 n
  || (n =? 170)%N || between 178 179 n || (n =? 181)%N
  || between 185 186 n || between 188 190 n || between 192 214 n
  || between 216 246 n || between 248 255 n.

Definition is_space (c : ascii) : bool :=
  let n := ord c in
  between 9 13 n || between 28 32 n || (n =? 133)%N || (n =? 160)%N.

(** Every character of [s] is in the class. *)
Fixpoint all (class : ascii -> bool) (s : string) : bool :=
  match s with
  | EmptyString => true
  | String c s' => class c && all class s'
  end.

(** The strings of [parts] one after another. *)
Definition join (parts : list string) : string :=
  foldr String.append EmptyString parts.

(** The length of the longest prefix of [s] within the class. *)
Fixpoint run (class : ascii -> bool) (s : string) : nat :=
  match s with
  | EmptyString => 0
  | String c s' => if class c then S (run class s') else 0
  end.

(** The line feed, written [\n] in the sources. *)
Definition newline : string := String "010"%char "".

(** [s.rfind(sep)]: where the last occurrence of [sep] in [s] starts. *)
Fixpoint rfind (s sep : string) : option nat :=
  match s with
  | EmptyString => if startswith s sep then Some 0 else None
  | String _ s' =>
      match rfind s' sep with
      | Some i => Some (S i)
      | None => if startswith s sep then Some 0 else None
      end
  end.

(** [s.rsplit(sep, maxsplit=1)] for a non-empty [sep]: [s] cut around the
    last occurrence of [sep], or [s] alone when there is none. *)
Definition rsplit1 (s sep : string) : list string :=
  match rfind s sep with
  | Some i => [take i s; drop (i + String.length sep) s]
  | None => [s]
  end.

(** [s.lstrip()], [s.rstrip()] and [s.strip()]: without the white space
    ([str.isspace]) at the start, at the end, at both. *)
Fixpoint lstrip (s : string) : string :=
  match s with
  | EmptyString => EmptyString
  | String c s' => if is_space c then lstrip s' else s
  end.

Fixpoint rstrip (s : string) : string :=
  match s with
  | EmptyString => EmptyString
  | String c s' =>
      match rstrip s' with
      | EmptyString => if is_space c then EmptyString else String c EmptyString
      | String d t => String c (String d t)
      end
  end.

Definition strip (s : string) : string := rstrip (lstrip s).

(** [s.removeprefix(prefix)]. *)
Definition removeprefix (s prefix : string) : string :=
  if startswith s prefix then drop (String.length prefix) s else s.

End Str.

(** ** Python floats *)

Module Float64.

Definition float := spec_float.

Definition prec : Z := 53.
Definition emax : Z := 1024.

(** Python's comparison operators on floats. *)
Definition le (a b : float) : bool := SFleb a b.   (* a <= b *)
Definition lt (a b : float) : bool := SFltb a b.   (* a <  b *)
Definition ge (a b : float) : bool := SFleb b a.   (* a >= b *)
Definition gt (a b : float) : bool := SFltb b a.   (* a >  b *)

Definition is_nan (a : float) : bool :=
  match a with
  | S754_nan => true
  | _ => false
  end.

(** The literals of the sources, as the nearest binary64 value. *)
Definition f0_0  : float := S754_zero false.
Definition f1_0  : float := S754_finite false 4503599627370496 (-52).
Definition f2_0  : float := S754_finite false 4503599627370496 (-51).
Definition f3_0  : float := S754_finite false 6755399441055744 (-51).
Definition f6_0  : float := S754_finite false 6755399441055744 (-50).
Definition f0_90 : float := S754_finite false 8106479329266893 (-53).
Definition f0_70 : float := S754_finite false 6305039478318694 (-53).
Definition f0_50 : float := S754_finite false 4503599627370496 (-53).
Definition f0_95 : float := S754_finite false 8556839292003942 (-53).
(** The boundary probes of the specification's bucket examples. *)
Definition f0_899999 : float := S754_finite false 8106470322067638 (-53).
Definition f0_69999  : float := S754_finite false 6304949406326147 (-53).
Definition f0_49999  : float := S754_finite false 9007019110755897 (-54).

(** [0.0 <= x <= 1.0], the chained comparison. *)
Definition in_unit_interval (x : float) : bool := le f0_0 x && le x f1_0.

(** Python's true division [a / b] of two floats (binary64, round to
    nearest even); a zero divisor raises ZeroDivisionError. *)
Definition is_zero (a : float) : bool :=
  match a with
  | S754_zero _ => true
  | _ => false
  end.

Definition truediv (a b : float) : result float :=
  if is_zero b then Raise (ZeroDivisionError "float division by zero")
  else Ok (SFdiv prec emax a b).

(** [float(n)] for a non-negative integer [n]; exact below [2^53]. *)
Definition of_nat (n : nat) : float :=
  binary_normalize prec emax (Z.of_nat n) 0 false.

(** [a / b] on two non-negative integers.  CPython returns the correctly
    rounded quotient; for operands below [2^53] (every length of a string
    that fits in memory) both convert exactly and that is the binary64
    quotient of the converted operands. *)
Definition int_truediv (a b : nat) : result float :=
  match b with
  | O => Raise (ZeroDivisionError "division by zero")
  | S _ => Ok (SFdiv prec emax (of_nat a) (of_nat b))
  end.

(** [a - b] and [abs(a)] on floats. *)
Definition sub (a b : float) : float := SFsub prec emax a b.
Definition abs (a : float) : float := SFabs a.

(** The literal [5.0]. *)
Definition f5_0 : float := S754_finite false 5629499534213120 (-50).

(** A number, not an infinity or a NaN. *)
Definition is_finite (a : float) : bool :=
  match a with
  | S754_zero _ | S754_finite _ _ _ => true
  | _ => false
  end.

End Float64.

(** ** [src/models.py] *)

Module Models.

Record PreferenceRow : Type := {
  prompt : string;
  chosen : string;
  rejected : string;
  row_id : string
}.

Definition __post_init__ (self : PreferenceRow) : result unit :=
  if str_falsy (row_id self) then
    Raise (ValueError "Row_id is empty")
  else if str_falsy (prompt self) then
    Raise (ValueError ("Prompt is missing for row: " +:+ row_id self))
  else if str_falsy (chosen self) then
    Raise (ValueError ("Chosen is missing for row: " +:+ row_id self))
  else if str_falsy (rejected self) then
    Raise (ValueError ("Rejected is missing for row: " +:+ row_id self))
  else Ok tt.

(** The dataclass constructor [PreferenceRow(prompt, chosen, rejected,
    row_id)]: the generated [__init__] stores the fields and then runs
    [__post_init__]. *)
Definition new (prompt chosen rejected row_id : string)
  : result PreferenceRow :=
  let self := {| prompt := prompt; chosen := chosen;
                 rejected := rejected; row_id := row_id |} in
  _ ← __post_init__ self; Ok self.

End Models.

(** ** [detectors/base.py] *)

Module Detectors.
Import Float64.

(** [BaseDetector.get_severity_level]; the formatted value at the end of
    the error message is left out. *)
Definition get_severity_level (severity : float) : result string :=
  if negb (le f0_0 severity && le severity f1_0) then
    Raise (ValueError "Severity must be between 0.0 and 1.0,got ")
  else if ge severity f0_90 then Ok "critical"
  else if ge severity f0_70 then Ok "high"
  else if ge severity f0_50 then Ok "medium"
  else Ok "low".

End Detectors.

(** ** [src/signals/length_ratio.py] *)

Module LengthRatio.
Import Float64 Models.

(** One entry of the result list: the dict with keys "row_id", "ratio" and
    "flagged"; a [None] ratio is Python's [None]. *)
Record finding : Type := {
  row_id : string;
  ratio : option float;
  flagged : bool
}.

(** The entry appended for a flagged row. *)
Definition flagged_with (row : PreferenceRow) (r : option float) : finding :=
  {| row_id := Models.row_id row; ratio := r; flagged := true |}.

(** The body of [for row in rows]: the entries it appends to [results]. *)
Definition analyze_row (max_ratio : float) (row : PreferenceRow)
  : result (list finding) :=
  if (String.length (chosen row) =? 0)%nat
     || (String.length (rejected row) =? 0)%nat then
    Ok [ flagged_with row None ]
  else
    ratio ← int_truediv (String.length (chosen row))
              (String.length (rejected row));
    flag ← (if gt ratio max_ratio then Ok true
            else bound ← truediv f1_0 max_ratio; Ok (lt ratio bound));
    if flag : bool then
      Ok [ flagged_with row (Some ratio) ]
    else Ok [].

Fixpoint analyze_from (max_ratio : float) (rows : list PreferenceRow)
    (results : list finding) : result (list finding) :=
  match rows with
  | [] => Ok results
  | row :: rows' =>
      found ← analyze_row max_ratio row;
      analyze_from max_ratio rows' (results ++ found)
  end.

(** [LengthRatioSignal(max_ratio).analyze(rows)]. *)
Definition analyze (max_ratio : float) (rows : list PreferenceRow)
  : result (list finding) :=
  analyze_from max_ratio rows [].

(** The constructor's default threshold. *)
Definition default_max_ratio : float := f3_0.

End LengthRatio.

(** ** [src/signals/refusal_bias.py] *)

Module RefusalBias.
Import Models.

Definition REFUSAL_PHRASES : list string :=
  [ "i can't help";
    "i cannot help";
    "i'm not able to";
    "i am not able to";
    "i won't be able to";
    "i'm unable to";
    "i cannot provide";
    "i will not provide";
    "i will not help";
    "i must decline";
    "i cannot assist";
    "i will not assist" ].

(** [_is_refusal(text)]; [None] is Python's [None], falsy like the empty
    string. *)
Definition _is_refusal (text : option string) : bool :=
  match text with
  | None => false
  | Some text =>
      if str_falsy text then false
      else existsb (fun phrase => Str.contains (Str.lower text) phrase)
             REFUSAL_PHRASES
  end.

(** One entry of the result list: the dict with keys "row_id", "signal",
    "reason" and "flagged". *)
Record finding : Type := {
  row_id : string;
  signal : string;
  reason : string;
  flagged : bool
}.

(** The entry appended for a flagged row. *)
Definition flagged_row (row : PreferenceRow) : finding :=
  {| row_id := Models.row_id row;
     signal := "refusal_bias";
     reason := "Model preferred a refusal over a valid response";
     flagged := true |}.

(** The body of [for row in rows]: the entries it appends to [results]. *)
Definition analyze_row (row : PreferenceRow) : list finding :=
  let chosen_is_refusal := _is_refusal (Some (chosen row)) in
  let rejected_is_refusal := _is_refusal (Some (rejected row)) in
  if chosen_is_refusal && negb rejected_is_refusal then [ flagged_row row ]
  else [].

(** [RefusalBiasSignal().analyze(rows)]. *)
Definition analyze (rows : list PreferenceRow) : list finding :=
  fold_left (fun results row => results ++ analyze_row row) rows [].

(** In the specification's words: [text] contains [phrase] as a
    case-insensitive substring when some substring of [text] equals
    [phrase] up to letter case, and a refusal is a text that contains a
    phrase of the lexicon so. *)
Definition contains_ignoring_case (text phrase : string) : Prop :=
  exists before mid after,
    text = before +:+ mid +:+ after /\ Str.lower mid = Str.lower phrase.

Definition refusal (text : string) : Prop :=
  exists phrase,
    In phrase REFUSAL_PHRASES /\ contains_ignoring_case text phrase.

End RefusalBias.

(** ** [src/signals/semantic_duplicates.py] *)

Module SemanticDuplicates.
Import Models.

(** *** The arithmetic of the embeddings

    The encoder and numpy compute in floating point; here a vector is a
    list of real numbers and [np.dot], [np.linalg.norm], [*] and [/] are
    exact, which leaves out rounding, overflow and underflow.  What numpy's
    division does with a zero divisor is kept: [0/0] is nan and [x/0] is an
    infinity, with a warning and no exception. *)

Inductive npfloat : Type :=
  | Finite (x : R)
  | PosInf
  | NegInf
  | NaN.

Definition vector : Type := list R.

(** [np.dot(a, b)] on two vectors of one dimension. *)
Fixpoint dot (a b : vector) : R :=
  match a, b with
  | x :: a', y :: b' => (x * y + dot a' b')%R
  | _, _ => 0%R
  end.

(** [np.linalg.norm(a)]: the square root of [a.dot(a)]. *)
Definition norm (a : vector) : R := sqrt (dot a a).

(** [x / y] on numpy scalars. *)
Definition np_div (x y : R) : npfloat :=
  if Req_dec_T y 0 then
    if Req_dec_T x 0 then NaN
    else if Rlt_dec 0 x then PosInf else NegInf
  else Finite (x / y).

(** [sim > threshold]; a comparison with nan is false. *)
Definition np_gt (sim : npfloat) (threshold : R) : bool :=
  match sim with
  | Finite x => if Rlt_dec threshold x then true else false
  | PosInf => true
  | NegInf | NaN => false
  end.

Definition _cosine_similarity (a b : vector) : npfloat :=
  np_div (dot a b) (norm a * norm b).

(** One entry of the result list: the dict with keys "row_id_1",
    "row_id_2", "similarity" and "flagged". *)
Record finding : Type := {
  row_id_1 : string;
  row_id_2 : string;
  similarity : npfloat;
  flagged : bool
}.

(** The index pairs the two nested loops visit, in order:
    [for i in range(n): for j in range(i + 1, n)]. *)
Definition scan (n : nat) : list (nat * nat) :=
  i ← seq 0 n; j ← seq (i + 1) (n - (i + 1)); [(i, j)].

(** The constructor's default threshold, 0.95. *)
Definition default_threshold : R := (95 / 100)%R.

Section Analyze.

(** [self.model.encode], the sentence encoder: one vector per text. *)
Variable encode : list string -> list vector.

Variable threshold : R.

(** The body of the inner loop: what it appends for the pair [(i, j)].
    The indices come from [range(len(embeddings))], so [embeddings[i]]
    cannot fail; [rows[i]] raises IndexError past the end of [rows]. *)
Definition analyze_pair (rows : list PreferenceRow)
    (embeddings : list vector) (ij : nat * nat) : result (list finding) :=
  let (i, j) := ij in
  let sim := _cosine_similarity (nth i embeddings []) (nth j embeddings []) in
  if np_gt sim threshold then
    match rows !! i, rows !! j with
    | Some row_i, Some row_j =>
        Ok [ {| row_id_1 := Models.row_id row_i;
                row_id_2 := Models.row_id row_j;
                similarity := sim;
                flagged := true |} ]
    | _, _ => Raise (IndexError "list index out of range")
    end
  else Ok [].

(** The entry for rows [i] and [j] when both are rows of [rows] and the
    embeddings [a] and [b] are similar beyond the threshold. *)
Definition pair_findings (rows : list PreferenceRow) (i j : nat)
    (a b : vector) : list finding :=
  match rows !! i, rows !! j with
  | Some row_i, Some row_j =>
      if np_gt (_cosine_similarity a b) threshold then
        [ {| row_id_1 := Models.row_id row_i;
             row_id_2 := Models.row_id row_j;
             similarity := _cosine_similarity a b;
             flagged := true |} ]
      else []
  | _, _ => []
  end.

Fixpoint analyze_from (rows : list PreferenceRow) (embeddings : list vector)
    (pairs : list (nat * nat)) (results : list finding)
  : result (list finding) :=
  match pairs with
  | [] => Ok results
  | ij :: pairs' =>
      found ← analyze_pair rows embeddings ij;
      analyze_from rows embeddings pairs' (results ++ found)
  end.

(** [SemanticDuplicateSignal(threshold).analyze(rows)]. *)
Definition analyze (rows : list PreferenceRow) : result (list finding) :=
  let texts := map chosen rows in
  let embeddings := encode texts in
  analyze_from rows embeddings (scan (length embeddings)) [].

End Analyze.

End SemanticDuplicates.

(** ** [src/signals/repetition.py] *)

Module Repetition.
Import Models.

(** *** The pattern [\b(\w+)(\s+\1){2,}\b]

    [re] tries the positions of the text from left to right and, at a
    position, the alternatives of each greedy operator from the longest to
    the shortest, backtracking into the last choice made when what follows
    fails. *)

Definition is_word_at (c : option ascii) : bool :=
  match c with
  | Some c => Str.is_word c
  | None => false
  end.

(** [\b] between the characters [before] and [after] (absent at the ends
    of the text): exactly one of them is a word character. *)
Definition at_boundary (before after : option ascii) : bool :=
  xorb (is_word_at before) (is_word_at after).

(** A greedy operator with [n] ways to match, numbered by the length
    they take: the way of length [n] first, then [n - 1], down to 1, each
    tried together with what follows ([attempt]); the first that works
    is the match. *)
Fixpoint longest_first {A} (attempt : nat -> option A) (n : nat) : option A :=
  match n with
  | O => None
  | S n' =>
      match attempt n with
      | Some r => Some r
      | None => longest_first attempt n'
      end
  end.

(** [(\s+\1){2,}\b] on the text [s] that follows group 1 or an
    iteration, [count] iterations done and [group2] the text of the last:
    one more iteration if there is one ([\s+] over [m] spaces, then [w]
    again, then the rest), else the closing [\b] once [count] has
    reached 2.  Returns group 2 and the number of characters matched.  An
    iteration takes a character at least, so [String.length s] is fuel
    enough. *)
Fixpoint match_repeats (fuel : nat) (w group2 : string) (count : nat)
    (s : string) : option (string * nat) :=
  let close :=
    if (2 <=? count) && at_boundary (Str.last w) (Str.head s)
    then Some (group2, 0) else None in
  match fuel with
  | O => close
  | S fuel' =>
      let iteration (m : nat) :=
        let after := Str.drop m s in
        if Str.startswith after w then
          match
            match_repeats fuel' w (Str.take m s +:+ w) (S count)
              (Str.drop (String.length w) after)
          with
          | Some (g2, n) => Some (g2, m + String.length w + n)
          | None => None
          end
        else None in
      match longest_first iteration (Str.run Str.is_space s) with
      | Some r => Some r
      | None => close
      end
  end.

(** The pattern at one position of the text, [before] being the character
    in front of it: the opening [\b], then [(\w+)] over [k] word
    characters, then the rest.  Returns groups 1 and 2 and the length of
    the match. *)
Definition match_at (before : option ascii) (s : string)
  : option (string * string * nat) :=
  if at_boundary before (Str.head s) then
    let group1 (k : nat) :=
      let w := Str.take k s in
      let rest := Str.drop k s in
      match match_repeats (String.length rest) w "" 0 rest with
      | Some (g2, n) => Some (w, g2, k + n)
      | None => None
      end in
    longest_first group1 (Str.run Str.is_word s)
  else None.

(** The scan of [re.findall]: a match at the current position is recorded
    and the scan goes on behind it ([skip] counts the characters of the
    match still to pass); without one it goes on at the next position. *)
Fixpoint findall_from (before : option ascii) (skip : nat) (s : string)
  : list (string * string) :=
  match s with
  | EmptyString => []
  | String c s' =>
      match skip with
      | S skip' => findall_from (Some c) skip' s'
      | O =>
          match match_at before s with
          | Some (g1, g2, n) => (g1, g2) :: findall_from (Some c) (n - 1) s'
          | None => findall_from (Some c) 0 s'
          end
      end
  end.

(** [re.findall(pattern, text)]: with two groups in the pattern, the list
    of the pairs (group 1, group 2) of the matches. *)
Definition findall (text : string) : list (string * string) :=
  findall_from None 0 text.

(** *** The detector *)

(** The state [__init__] stores; [self.pattern] is the constant above. *)
Record RepetitionSignal : Type := {
  min_repeats : Z
}.

(** [RepetitionSignal()], with the default [min_repeats = 3]. *)
Definition default : RepetitionSignal := {| min_repeats := 3 |}.

(** One entry of the result list: the dict with keys "row_id", "field",
    "matched_pattern" and "flagged". *)
Record finding : Type := {
  row_id : string;
  field : string;
  matched_pattern : list string;
  flagged : bool
}.

(** [getattr(row, field, "")]. *)
Definition getattr (row : PreferenceRow) (field : string) : string :=
  if String.eqb field "prompt" then prompt row
  else if String.eqb field "chosen" then chosen row
  else if String.eqb field "rejected" then rejected row
  else if String.eqb field "row_id" then Models.row_id row
  else "".

(** The body of [for field in ['chosen', 'rejected']]. *)
Definition analyze_field (self : RepetitionSignal) (row : PreferenceRow)
    (field : string) : list finding :=
  let text := getattr row field in
  if str_falsy text then []
  else
    let matches := findall (Str.lower text) in
    match matches with
    | [] => []
    | _ :: _ =>
        let matched_words := map fst matches in
        [ {| row_id := Models.row_id row; field := field;
             matched_pattern := matched_words; flagged := true |} ]
    end.

(** [self.analyze(rows)]. *)
Definition analyze (self : RepetitionSignal) (rows : list PreferenceRow)
  : list finding :=
  fold_left
    (fun signals row =>
       fold_left (fun signals field => signals ++ analyze_field self row field)
         ["chosen"; "rejected"] signals)
    rows [].

(** *** The specification's reading

    The word [w] stands in the text [t] at least [n] times in a row,
    delimited by word boundaries: [t] is [before], then [w], then one or
    more [gaps] of white space each followed by [w] again, then [after],
    with no word character next to either end. *)

(** A gap between two occurrences: white space, and some. *)
Definition gap_ok (gap : string) : Prop :=
  gap <> "" /\ Str.all Str.is_space gap = true.

(** The occurrences after the first, each behind its gap. *)
Definition repeats (w : string) (gaps : list string) : string :=
  Str.join (map (fun gap => gap +:+ w) gaps).

Definition repeats_in (n : nat) (w t : string) : Prop :=
  exists (before : string) (gaps : list string) (after : string),
    t = before +:+ w +:+ repeats w gaps +:+ after /\
    w <> "" /\ Str.all Str.is_word w = true /\ Forall gap_ok gaps /\
    n <= 1 + length gaps /\
    is_word_at (Str.last before) = false /\
    is_word_at (Str.head after) = false.

(** [text] holds a single word token repeated at least [n] times in a
    row, compared without regard to case. *)
Definition repeated_word (n : nat) (text : string) : Prop :=
  exists w, repeats_in n w (Str.lower text).

(** The character in front of the text that follows [pre], [b] being the
    one in front of [pre]. *)
Definition char_before (b : option ascii) (pre : string) : option ascii :=
  match Str.last pre with
  | Some c => Some c
  | None => b
  end.

End Repetition.

(** ** [src/signals/unsafe_prompt.py] *)

Module UnsafePrompt.
Import Models.

Definition UNSAFE_KEYWORDS : list string :=
  [ (* Violence *)
    "how to kill";
    "how to murder";
    "how to hurt";
    "how to attack";
    (* Weapons *)
    "how to make a bomb";
    "how to make a weapon";
    "how to buy a gun illegally";
    (* Illegal *)
    "how to hack";
    "how to steal";
    "how to break into";
    "how to smuggle";
    "how to avoid law enforcement";
    (* Self-harm *)
    "how to commit suicide";
    "ways to kill myself";
    "how to self-harm" ].

(** [_find_unsafe_keyword(text)]: the first keyword of the list, in list
    order, that the lower-cased text contains; [None] is Python's [None]. *)
Definition _find_unsafe_keyword (text : string) : option string :=
  let text_lower := Str.lower text in
  find (fun keyword => Str.contains text_lower keyword) UNSAFE_KEYWORDS.

(** One entry of the result list: the dict with keys "row_id",
    "matched_keyword" and "flagged". *)
Record finding : Type := {
  row_id : string;
  matched_keyword : string;
  flagged : bool
}.

(** The body of [for row in rows]: the entries it appends to [results]. *)
Definition analyze_row (row : PreferenceRow) : list finding :=
  match _find_unsafe_keyword (prompt row) with
  | Some keyword =>
      [ {| row_id := Models.row_id row;
           matched_keyword := keyword;
           flagged := true |} ]
  | None => []
  end.

(** [UnsafePromptSignal().analyze(rows)]. *)
Definition analyze (rows : list PreferenceRow) : list finding :=
  fold_left (fun results row => results ++ analyze_row row) rows [].

(** [text] holds [keyword] somewhere, letter case aside. *)
Definition mentions (text keyword : string) : Prop :=
  exists before mid after,
    text = before +:+ mid +:+ after /\ Str.lower mid = Str.lower keyword.

(** [keyword] is the first keyword of the list that [text] holds. *)
Definition first_mentioned (text keyword : string) : Prop :=
  exists before after,
    UNSAFE_KEYWORDS = before ++ keyword :: after /\
    mentions text keyword /\
    forall earlier, In earlier before -> ~ mentions text earlier.

End UnsafePrompt.

(** ** [src/signals/readability.py] *)

Module Readability.
Import Float64 Models.

(** One entry of the result list: the dict with keys "row_id",
    "chosen_grade", "rejected_grade" and "flagged". *)
Record finding : Type := {
  row_id : string;
  chosen_grade : float;
  rejected_grade : float;
  flagged : bool
}.

(** The constructor's default threshold, 5.0. *)
Definition default_max_diff : float := f5_0.

Section Signal.

(** [self.score], which is [textstat.flesch_kincaid_grade]: the grade level
    of a text, a float. *)
Variable score : string -> float.

Variable max_diff : float.

(** The body of [for row in rows]: the entries it appends to [results]. *)
Definition analyze_row (row : PreferenceRow) : list finding :=
  let chosen_score := score (chosen row) in
  let rejected_score := score (rejected row) in
  let diff := abs (sub chosen_score rejected_score) in
  if gt diff max_diff then
    [ {| row_id := Models.row_id row;
         chosen_grade := chosen_score;
         rejected_grade := rejected_score;
         flagged := true |} ]
  else [].

(** [ReadabilityMismatchSignal(max_diff).analyze(rows)]. *)
Definition analyze (rows : list PreferenceRow) : list finding :=
  fold_left (fun results row => results ++ analyze_row row) rows [].

End Signal.

(** A row, and a finding, with the chosen and the rejected side exchanged. *)
Definition swap_row (row : PreferenceRow) : PreferenceRow :=
  {| prompt := prompt row; chosen := rejected row; rejected := chosen row;
     Models.row_id := Models.row_id row |}.

Definition swap_finding (f : finding) : finding :=
  {| row_id := row_id f; chosen_grade := rejected_grade f;
     rejected_grade := chosen_grade f; flagged := flagged f |}.

End Readability.

(** ** [src/loaders/hh_rlhf.py] *)

Module HHRLHF.
Import Models.

(** The separator of [parse_conversation], [\n\nAssistant: ], and the
    prefix it removes, [Human: ]. *)
Definition ASSISTANT : string :=
  Str.newline +:+ Str.newline +:+ "Assistant: ".

Definition HUMAN : string := "Human: ".

(** [parse_conversation(conversation)]. *)
Definition parse_conversation (conversation : string)
  : result (string * string) :=
  let parts := Str.rsplit1 conversation ASSISTANT in
  match parts with
  | [part0; part1] =>
      let prompt := Str.strip (Str.removeprefix (Str.strip part0) HUMAN) in
      let response := part1 in
      Ok (prompt, response)
  | _ =>
      Raise (ValueError ("Invalid format, expected length of 2, got "
                         +:+ pretty (length parts)))
  end.

(** One example of the dataset: the columns "chosen" and "rejected". *)
Record example : Type := {
  ex_chosen : string;
  ex_rejected : string
}.

(** [HHRLHFLoader(split, limit)]; a [limit] of [None] is Python's [None]. *)
Record HHRLHFLoader : Type := {
  split : string;
  limit : option Z
}.

(** The constructor's defaults: [split="train"], [limit=None]. *)
Definition default_loader : HHRLHFLoader :=
  {| split := "train"; limit := None |}.

(** [range(n)]: empty for a negative [n]. *)
Definition range (n : Z) : list nat := seq 0 (Z.to_nat n).

(** The row id [f"hh-rlhf-{split}-{idx}"]. *)
Definition row_id_of (split : string) (idx : nat) : string :=
  "hh-rlhf-" +:+ split +:+ "-" +:+ pretty idx.

(** The body of [for idx, example in enumerate(dataset)]: the row it
    appends.  The prompt is the one of the chosen conversation; the prompt
    of the rejected conversation is parsed and dropped. *)
Definition load_example (split : string) (idx : nat) (ex : example)
  : result PreferenceRow :=
  '(chosen_prompt, chosen_response) ← parse_conversation (ex_chosen ex);
  '(rejected_prompt, rejected_response) ← parse_conversation (ex_rejected ex);
  Models.new chosen_prompt chosen_response rejected_response
    (row_id_of split idx).

Fixpoint load_from (split : string) (idx : nat) (dataset : list example)
    (rows : list PreferenceRow) : result (list PreferenceRow) :=
  match dataset with
  | [] => Ok rows
  | ex :: dataset' =>
      row ← load_example split idx ex;
      load_from split (S idx) dataset' (rows ++ [row])
  end.

Section Loader.

(** [load_dataset(path, split=split)] and [dataset.select(indices)] of the
    [datasets] library; a dataset is the list of its examples. *)
Variable load_dataset : string -> string -> result (list example).
Variable select : list example -> list nat -> result (list example).

(** [HHRLHFLoader.load]. *)
Definition load (self : HHRLHFLoader) : result (list PreferenceRow) :=
  dataset ← load_dataset "Anthropic/hh-rlhf" (split self);
  dataset ← match limit self with
            | None => Ok dataset                     (* [None] is falsy *)
            | Some n =>
                if (n =? 0)%Z then Ok dataset        (* and so is [0] *)
                else select dataset (range n)
            end;
  load_from (split self) 0 dataset [].

(** The examples [load] goes through: the whole split when the limit is
    [None] or [0], else what [select] gives for [range(limit)]. *)
Definition selected (self : HHRLHFLoader) (dataset : list example) : Prop :=
  exists full,
    load_dataset "Anthropic/hh-rlhf" (split self) = Ok full /\
    match limit self with
    | None => dataset = full
    | Some n =>
        if (n =? 0)%Z then dataset = full
        else select full (range n) = Ok dataset
    end.

End Loader.

End HHRLHF.

(** ** [database.py] *)

Module Database.
Import Float64.

Definition CURRENT_SCHEMA_VERSION : Z := 1.

(** *** The stored data, as [SCHEMA_SQL] declares it

    A table with a primary key is a finite map from the key to the other
    columns, so a stored table never holds two rows with one key.  A
    timestamp is the text SQLite's [CURRENT_TIMESTAMP] yields. *)

Definition timestamp := string.

Record response_pair_row : Type := {
  rp_chosen : string;
  rp_rejected : string;
  rp_source_dataset : string;
  rp_created_at : timestamp
}.

Record detection_row : Type := {
  detection_id : Z;
  pair_id : string;
  signal_type : string;
  severity : float;
  metadata : option string;          (* [None] is SQL NULL *)
  detected_at : timestamp
}.

(** The [detections] table: its rows in insertion order and the largest
    rowid ever handed out (the table's entry in [sqlite_sequence], which
    AUTOINCREMENT keeps). *)
Record detections_table : Type := {
  det_rows : list detection_row;
  det_sequence : Z
}.

(** The database file.  A table that has not been created is [None]. *)
Record db : Type := {
  response_pairs : option (gmap string response_pair_row);
  detections : option detections_table;
  schema_version : option (gmap Z timestamp);
  indexes : gset string
}.

(** The tables that exist. *)
Definition table_named {A} (name : string) (t : option A) : gset string :=
  match t with
  | Some _ => {[ name ]}
  | None => ∅
  end.

Definition table_set (s : db) : gset string :=
  table_named "response_pairs" (response_pairs s) ∪
  table_named "detections" (detections s) ∪
  table_named "schema_version" (schema_version s).

(** A new, empty database file. *)
Definition empty_db : db :=
  {| response_pairs := None; detections := None; schema_version := None;
     indexes := ∅ |}.

(** *** Statements and connections

    An SQL statement runs on a database and either returns a value or
    raises; SQLite undoes what a failing statement wrote, so a statement
    that raises leaves the database as it found it. *)

Definition sql (A : Type) : Type := db -> result A * db.

(** A connection sees its own uncommitted writes ([working]) on top of
    what the file holds ([committed]). *)
Record connection : Type := {
  committed : db;
  working : db
}.

(** Code that uses a connection. *)
Definition stmt (A : Type) : Type := connection -> result A * connection.

Definition stmt_ret {A} (a : A) : stmt A := fun c => (Ok a, c).

Definition stmt_bind {A B} (m : stmt A) (k : A -> stmt B) : stmt B :=
  fun c =>
    match m c with
    | (Ok a, c') => k a c'
    | (Raise e, c') => (Raise e, c')
    end.

(** [cursor.execute(statement)]: the write stays uncommitted. *)
Definition execute {A} (statement : sql A) : stmt A :=
  fun c =>
    let (r, w) := statement (working c) in
    (r, {| committed := committed c; working := w |}).

(** [cursor.executescript(script)]: commits what is pending, then runs the
    script with no transaction around it, so what the script writes is
    committed at once. *)
Definition executescript {A} (script : sql A) : stmt A :=
  fun c =>
    let (r, w) := script (working c) in
    (r, {| committed := w; working := w |}).

(** [with get_db_connection() as conn: body]: commit when the body
    returns, roll back the uncommitted writes when it raises. *)
Definition get_db_connection {A} (body : stmt A) : db -> result A * db :=
  fun s =>
    match body {| committed := s; working := s |} with
    | (Ok a, c) => (Ok a, working c)            (* conn.commit() *)
    | (Raise e, c) => (Raise e, committed c)    (* conn.rollback(); raise *)
    end.

(** *** [SCHEMA_SQL], run by [cursor.executescript] *)

Definition empty_detections : detections_table :=
  {| det_rows := []; det_sequence := 0 |}.

(** The three [CREATE TABLE IF NOT EXISTS] and the three
    [CREATE INDEX IF NOT EXISTS] statements. *)
Definition SCHEMA_SQL : sql unit :=
  fun s =>
    (Ok tt,
     {| response_pairs := Some (default ∅ (response_pairs s));
        detections := Some (default empty_detections (detections s));
        schema_version := Some (default ∅ (schema_version s));
        indexes := indexes s ∪ {["idx_detections_pair_id"]}
                             ∪ {["idx_detections_signal_type"]}
                             ∪ {["idx_detections_severity"]} |}).

(** [SELECT version FROM schema_version WHERE version = ?]: the rows. *)
Definition select_version (v : Z) : sql (list Z) :=
  fun s =>
    match schema_version s with
    | None => (Raise (OperationalError "no such table: schema_version"), s)
    | Some versions =>
        (Ok (match versions !! v with Some _ => [v] | None => [] end), s)
    end.

(** [INSERT INTO schema_version (version) VALUES (?)]; [applied_at] takes
    its default, the current time [now]. *)
Definition insert_version (now : timestamp) (v : Z) : sql unit :=
  fun s =>
    match schema_version s with
    | None => (Raise (OperationalError "no such table: schema_version"), s)
    | Some versions =>
        match versions !! v with
        | Some _ =>
            (Raise (IntegrityError
                      "UNIQUE constraint failed: schema_version.version"), s)
        | None =>
            (Ok tt,
             {| response_pairs := response_pairs s;
                detections := detections s;
                schema_version := Some (<[v := now]> versions);
                indexes := indexes s |})
        end
    end.

(** [init_db()], called at time [now]. *)
Definition init_db (now : timestamp) : db -> result unit * db :=
  get_db_connection
    (stmt_bind (executescript SCHEMA_SQL) (fun _ =>
     stmt_bind (execute (select_version CURRENT_SCHEMA_VERSION)) (fun rows =>
     match rows with
     | [] =>                                       (* fetchone() is None *)
         execute (insert_version now CURRENT_SCHEMA_VERSION)
     | _ :: _ => stmt_ret tt
     end))).

(** *** Detections *)

(** The largest rowid among the stored rows. *)
Definition max_rowid (rows : list detection_row) : Z :=
  foldr (fun r acc => Z.max (detection_id r) acc) 0%Z rows.

(** [INSERT INTO detections (pair_id, signal_type, severity, metadata)
    VALUES (?, ?, ?, ?)] with foreign keys enforced; returns
    [cursor.lastrowid].  The CHECK constraint of the severity column is
    tested before the foreign key, which SQLite tests when the statement
    ends. *)
Definition insert_detection_row (now : timestamp) (pair_id signal_type : string)
    (severity : float) (metadata_json : option string) : sql Z :=
  fun s =>
    match detections s with
    | None => (Raise (OperationalError "no such table: detections"), s)
    | Some table =>
        if negb (ge severity f0_0 && le severity f1_0) then
          (Raise (IntegrityError "CHECK constraint failed"), s)
        else
          match response_pairs s with
          | None =>
              (Raise (OperationalError "no such table: main.response_pairs"),
               s)
          | Some pairs =>
              match pairs !! pair_id with
              | None =>
                  (Raise (IntegrityError "FOREIGN KEY constraint failed"), s)
              | Some _ =>
                  let id :=
                    (Z.max (det_sequence table) (max_rowid (det_rows table))
                     + 1)%Z in
                  let row :=
                    {| detection_id := id; pair_id := pair_id;
                       signal_type := signal_type; severity := severity;
                       metadata := metadata_json; detected_at := now |} in
                  (Ok id,
                   {| response_pairs := response_pairs s;
                      detections :=
                        Some {| det_rows := det_rows table ++ [row];
                                det_sequence := id |};
                      schema_version := schema_version s;
                      indexes := indexes s |})
              end
          end
    end.

(** [INSERT INTO response_pairs (pair_id, chosen, rejected, source_dataset)
    VALUES (?, ?, ?, ?)]. *)
Definition insert_response_pair_row (now : timestamp)
    (pair_id chosen rejected source_dataset : string) : sql unit :=
  fun s =>
    match response_pairs s with
    | None => (Raise (OperationalError "no such table: response_pairs"), s)
    | Some pairs =>
        match pairs !! pair_id with
        | Some _ =>
            (Raise (IntegrityError
                      "UNIQUE constraint failed: response_pairs.pair_id"), s)
        | None =>
            let row :=
              {| rp_chosen := chosen; rp_rejected := rejected;
                 rp_source_dataset := source_dataset;
                 rp_created_at := now |} in
            (Ok tt,
             {| response_pairs := Some (<[pair_id := row]> pairs);
                detections := detections s;
                schema_version := schema_version s;
                indexes := indexes s |})
        end
    end.

(** [insert_response_pair(pair_id, chosen, rejected, source_dataset)]. *)
Definition insert_response_pair (now : timestamp)
    (pair_id chosen rejected source_dataset : string)
  : db -> result unit * db :=
  get_db_connection
    (execute
       (insert_response_pair_row now pair_id chosen rejected source_dataset)).

(** [DELETE FROM detections]; the AUTOINCREMENT counter stays. *)
Definition delete_detections : sql unit :=
  fun s =>
    match detections s with
    | None => (Raise (OperationalError "no such table: detections"), s)
    | Some table =>
        (Ok tt,
         {| response_pairs := response_pairs s;
            detections :=
              Some {| det_rows := []; det_sequence := det_sequence table |};
            schema_version := schema_version s;
            indexes := indexes s |})
    end.

(** [DELETE FROM response_pairs]; a pair some detection still refers to
    cannot go. *)
Definition delete_response_pairs : sql unit :=
  fun s =>
    match response_pairs s with
    | None => (Raise (OperationalError "no such table: response_pairs"), s)
    | Some pairs =>
        match detections s with
        | Some table =>
            if forallb (fun r => bool_decide (pairs !! pair_id r = None))
                 (det_rows table)
            then
              (Ok tt,
               {| response_pairs := Some ∅;
                  detections := detections s;
                  schema_version := schema_version s;
                  indexes := indexes s |})
            else (Raise (IntegrityError "FOREIGN KEY constraint failed"), s)
        | None =>
            (Ok tt,
             {| response_pairs := Some ∅;
                detections := detections s;
                schema_version := schema_version s;
                indexes := indexes s |})
        end
    end.

(** [clear_all_data()]. *)
Definition clear_all_data : db -> result unit * db :=
  get_db_connection
    (stmt_bind (execute delete_detections) (fun _ =>
     execute delete_response_pairs)).

(** *** Queries *)

(** [cursor.fetchone()]: the first row of the result, or [None]. *)
Definition fetchone {A} (rows : list A) : option A := head rows.

(** What a query reads from a REAL column: SQLite keeps a zero without its
    sign. *)
Definition real_column (x : float) : float :=
  if is_zero x then f0_0 else x.

(** A row of [detections] as [SELECT *] gives it. *)
Definition read_detection (r : detection_row) : detection_row :=
  {| detection_id := detection_id r; pair_id := pair_id r;
     signal_type := signal_type r; severity := real_column (severity r);
     metadata := metadata r; detected_at := detected_at r |}.

(** [MAX(version)]: NULL ([None]) on an empty table. *)
Definition max_version (versions : gmap Z timestamp) : option Z :=
  foldr (fun v acc => Some (from_option (Z.max v) v acc)) None
    (map fst (map_to_list versions)).

(** [SELECT MAX(version) FROM schema_version]: always one row. *)
Definition select_max_version : sql (list (option Z)) :=
  fun s =>
    match schema_version s with
    | None => (Raise (OperationalError "no such table: schema_version"), s)
    | Some versions => (Ok [max_version versions], s)
    end.

(** [get_schema_version()]: [row[0] if row else None], and [None] when the
    query raised [sqlite3.OperationalError]. *)
Definition get_schema_version : db -> result (option Z) * db :=
  fun s =>
    match get_db_connection
            (stmt_bind (execute select_max_version) (fun rows =>
             stmt_ret (match fetchone rows with
                       | Some row => row
                       | None => None
                       end))) s with
    | (Raise (OperationalError _), s') => (Ok None, s')
    | other => other
    end.

(** [SELECT * FROM response_pairs WHERE pair_id = ?]: the rows, each the
    pair_id with the other columns. *)
Definition select_response_pair (pair_id : string)
  : sql (list (string * response_pair_row)) :=
  fun s =>
    match response_pairs s with
    | None => (Raise (OperationalError "no such table: response_pairs"), s)
    | Some pairs =>
        (Ok (match pairs !! pair_id with
             | Some row => [(pair_id, row)]
             | None => []
             end), s)
    end.

(** [get_response_pair(pair_id)]. *)
Definition get_response_pair (pair_id : string)
  : db -> result (option (string * response_pair_row)) * db :=
  get_db_connection
    (stmt_bind (execute (select_response_pair pair_id)) (fun rows =>
     stmt_ret (fetchone rows))).

(** [SELECT COUNT( * ) FROM response_pairs]. *)
Definition select_count_response_pairs : sql nat :=
  fun s =>
    match response_pairs s with
    | None => (Raise (OperationalError "no such table: response_pairs"), s)
    | Some pairs => (Ok (size pairs), s)
    end.

(** [count_response_pairs()]. *)
Definition count_response_pairs : db -> result nat * db :=
  get_db_connection (execute select_count_response_pairs).

(** [SELECT COUNT( * ) FROM detections]. *)
Definition select_count_detections : sql nat :=
  fun s =>
    match detections s with
    | None => (Raise (OperationalError "no such table: detections"), s)
    | Some table => (Ok (length (det_rows table)), s)
    end.

(** The order [ORDER BY severity DESC, detected_at] asks for: [a] may come
    before [b]. *)
Definition by_severity_desc_detected_at (a b : detection_row) : bool :=
  match SFcompare (severity a) (severity b) with
  | Some Gt => true
  | Some Eq => String.leb (detected_at a) (detected_at b)
  | _ => false
  end.

(** The signal types of the stored detections, each once: the groups of
    [GROUP BY signal_type]; and the size of a group, its [COUNT( * )]. *)
Definition signal_types (rows : list detection_row) : list string :=
  remove_dups (map signal_type rows).

Definition rows_of_signal (rows : list detection_row) (signal : string)
  : list detection_row :=
  filter (fun r => signal_type r = signal) rows.

(** The four counts of the severity distribution. *)
Record severity_counts : Type := {
  critical : nat;
  high : nat;
  medium : nat;
  low : nat
}.

(** [SELECT COUNT(CASE WHEN severity >= 0.9 THEN 1 END) as critical,
    COUNT(CASE WHEN severity >= 0.7 AND severity < 0.9 THEN 1 END) as high,
    COUNT(CASE WHEN severity >= 0.5 AND severity < 0.7 THEN 1 END) as medium,
    COUNT(CASE WHEN severity < 0.5 THEN 1 END) as low FROM detections]. *)
Definition select_severity_distribution : sql severity_counts :=
  fun s =>
    match detections s with
    | None => (Raise (OperationalError "no such table: detections"), s)
    | Some table =>
        let rows := det_rows table in
        (Ok {| critical :=
                 length (filter (fun r => ge (severity r) f0_90 = true) rows);
               high :=
                 length (filter (fun r => ge (severity r) f0_70 = true /\
                                          lt (severity r) f0_90 = true) rows);
               medium :=
                 length (filter (fun r => ge (severity r) f0_50 = true /\
                                          lt (severity r) f0_70 = true) rows);
               low :=
                 length (filter (fun r => lt (severity r) f0_50 = true) rows)
            |}, s)
    end.

(** A row of [get_high_severity_detections]: the columns of the detection
    and the two responses of its pair. *)
Record high_severity_row : Type := {
  hs_detection : detection_row;
  hs_chosen : string;
  hs_rejected : string
}.

(** [JOIN response_pairs rp ON d.pair_id = rp.pair_id], for one detection:
    a detection without a pair gives no row. *)
Definition join_pair (pairs : gmap string response_pair_row)
    (d : detection_row) : option high_severity_row :=
  rp ← pairs !! pair_id d;
  Some {| hs_detection := d; hs_chosen := rp_chosen rp;
          hs_rejected := rp_rejected rp |}.

(** The default of [min_severity] in [get_detections_by_signal] and in
    [get_high_severity_detections]. *)
Definition default_min_severity_by_signal : float := f0_0.
Definition default_min_severity_high : float := f0_90.

Section Queries.

(** [ORDER BY]: the rows put in an order the comparison accepts.  SQL
    leaves the order of rows that compare equal open, so the sorter is a
    parameter. *)
Variable order_by : forall A : Type, (A -> A -> bool) -> list A -> list A.

(** [SELECT pair_id FROM response_pairs ORDER by created_at]. *)
Definition select_pair_ids : sql (list string) :=
  fun s =>
    match response_pairs s with
    | None => (Raise (OperationalError "no such table: response_pairs"), s)
    | Some pairs =>
        (Ok (map fst
               (order_by _
                  (fun a b => String.leb (rp_created_at a.2)
                                (rp_created_at b.2))
                  (map_to_list pairs))), s)
    end.

(** [get_all_pair_ids()]. *)
Definition get_all_pair_ids : db -> result (list string) * db :=
  get_db_connection (execute select_pair_ids).

(** [SELECT * FROM detections WHERE pair_id = ?
    ORDER BY severity DESC, detected_at]. *)
Definition select_detections_for_pair (pair_id : string)
  : sql (list detection_row) :=
  fun s =>
    match detections s with
    | None => (Raise (OperationalError "no such table: detections"), s)
    | Some table =>
        (Ok (order_by _ by_severity_desc_detected_at
               (filter (fun r => Database.pair_id r = pair_id)
                  (map read_detection (det_rows table)))), s)
    end.

(** [get_detections_for_pair(pair_id)]. *)
Definition get_detections_for_pair (pair_id : string)
  : db -> result (list detection_row) * db :=
  get_db_connection (execute (select_detections_for_pair pair_id)).

(** [SELECT * FROM detections WHERE signal_type = ? AND severity >= ?
    ORDER BY severity DESC, detected_at]. *)
Definition select_detections_by_signal (signal_type : string)
    (min_severity : float) : sql (list detection_row) :=
  fun s =>
    match detections s with
    | None => (Raise (OperationalError "no such table: detections"), s)
    | Some table =>
        (Ok (order_by _ by_severity_desc_detected_at
               (filter (fun r => Database.signal_type r = signal_type /\
                                 ge (severity r) min_severity = true)
                  (map read_detection (det_rows table)))), s)
    end.

(** [get_detections_by_signal(signal_type, min_severity)]. *)
Definition get_detections_by_signal (signal_type : string)
    (min_severity : float) : db -> result (list detection_row) * db :=
  get_db_connection
    (execute (select_detections_by_signal signal_type min_severity)).

(** [SELECT d.*, rp.chosen, rp.rejected FROM detections d
    JOIN response_pairs rp ON d.pair_id = rp.pair_id
    WHERE d.severity >= ? ORDER BY d.severity DESC, d.detected_at]. *)
Definition select_high_severity (min_severity : float)
  : sql (list high_severity_row) :=
  fun s =>
    match detections s with
    | None => (Raise (OperationalError "no such table: detections"), s)
    | Some table =>
        match response_pairs s with
        | None =>
            (Raise (OperationalError "no such table: response_pairs"), s)
        | Some pairs =>
            (Ok (order_by _
                   (fun a b => by_severity_desc_detected_at
                                 (hs_detection a) (hs_detection b))
                   (omap (join_pair pairs)
                      (filter (fun r => ge (severity r) min_severity = true)
                         (map read_detection (det_rows table))))), s)
        end
    end.

(** [get_high_severity_detections(min_severity)]. *)
Definition get_high_severity_detections (min_severity : float)
  : db -> result (list high_severity_row) * db :=
  get_db_connection (execute (select_high_severity min_severity)).

(** [SELECT signal_type, COUNT( * ) as count FROM detections
    GROUP BY signal_type ORDER BY count DESC]. *)
Definition select_signal_counts : sql (list (string * nat)) :=
  fun s =>
    match detections s with
    | None => (Raise (OperationalError "no such table: detections"), s)
    | Some table =>
        let rows := det_rows table in
        (Ok (order_by _ (fun a b => (b.2 <=? a.2)%nat)
               (map (fun signal =>
                       (signal, length (rows_of_signal rows signal)))
                  (signal_types rows))), s)
    end.

(** [count_detections_by_signal()]: the dict, as its items in the order
    of the rows. *)
Definition count_detections_by_signal
  : db -> result (list (string * nat)) * db :=
  get_db_connection (execute select_signal_counts).

End Queries.

Section Statistics.

(** SQLite's [AVG] over the values of a group, and Python's
    [round(x, 3)]. *)
Variable sql_avg : list float -> float.
Variable round3 : float -> float.

(** An entry of "by_signal": the dict with keys "count" and
    "avg_severity". *)
Record signal_statistics : Type := {
  count : nat;
  avg_severity : float
}.

(** [SELECT signal_type, COUNT( * ) as count, AVG(severity) as avg_severity
    FROM detections GROUP by signal_type]. *)
Definition select_signal_statistics : sql (list (string * (nat * float))) :=
  fun s =>
    match detections s with
    | None => (Raise (OperationalError "no such table: detections"), s)
    | Some table =>
        let rows := det_rows table in
        (Ok (map (fun signal =>
                    let group := rows_of_signal rows signal in
                    (signal, (length group, sql_avg (map severity group))))
               (signal_types rows)), s)
    end.

(** The dict [get_detection_statistics] returns; "by_signal" is a dict
    keyed by signal type. *)
Record statistics : Type := {
  total_detections : nat;
  by_signal : gmap string signal_statistics;
  severity_distribution : severity_counts
}.

(** [get_detection_statistics()]. *)
Definition get_detection_statistics : db -> result statistics * db :=
  get_db_connection
    (stmt_bind (execute select_count_detections) (fun total =>
     stmt_bind (execute select_signal_statistics) (fun groups =>
     let by_signal :=
       list_to_map
         (map (fun row : string * (nat * float) =>
                 (row.1, {| count := row.2.1;
                            avg_severity := round3 row.2.2 |}))
            groups) in
     stmt_bind (execute select_severity_distribution) (fun severity_dist =>
     stmt_ret {| total_detections := total;
                 by_signal := by_signal;
                 severity_distribution := severity_dist |})))).

End Statistics.

(** Every stored detection has a severity in [0.0, 1.0]. *)
Definition severities_in_range (s : db) : Prop :=
  forall table row,
    detections s = Some table -> In row (det_rows table) ->
    in_unit_interval (severity row) = true.

(** Every stored detection refers to a stored pair. *)
Definition foreign_keys_hold (s : db) : Prop :=
  forall table row,
    detections s = Some table -> In row (det_rows table) ->
    exists pairs pair,
      response_pairs s = Some pairs /\ pairs !! pair_id row = Some pair.

(** No stored detection has an id above the AUTOINCREMENT counter. *)
Definition sequence_bounds (s : db) : Prop :=
  forall table,
    detections s = Some table ->
    (max_rowid (det_rows table) <= det_sequence table)%Z.

(** The AUTOINCREMENT counter; 0 while the table does not exist. *)
Definition sequence_of (s : db) : Z :=
  match detections s with
  | Some table => det_sequence table
  | None => 0%Z
  end.

(** The table [schema_version], once there, holds the current version and
    no other. *)
Definition version_recorded (s : db) : Prop :=
  forall versions,
    schema_version s = Some versions ->
    exists applied_at, versions = {[ CURRENT_SCHEMA_VERSION := applied_at ]}.

(** The three tables are there together or not at all. *)
Definition tables_together (s : db) : Prop :=
  (response_pairs s = None /\ detections s = None /\
   schema_version s = None) \/
  (exists pairs table versions,
     response_pairs s = Some pairs /\ detections s = Some table /\
     schema_version s = Some versions).

(** The stored detections that [get_severity_level] puts at a level. *)
Definition rows_at_level (level : string) (rows : list detection_row)
  : list detection_row :=
  filter (fun r => Detectors.get_severity_level (severity r) = Ok level) rows.

Section Store.

(** The [metadata] argument: a dict (its items in insertion order) whose
    values this module only hands to [json.dumps]. *)
Variable value : Type.
Definition dict : Type := list (string * value).

(** [json.dumps], which may raise on a value it cannot serialize. *)
Variable json_dumps : dict -> result string.

(** [json.dumps(metadata) if metadata else None]: a dict is truthy when
    it has an item; [None] and the empty dict are not. *)
Definition metadata_json (metadata : option dict) : result (option string) :=
  match metadata with
  | Some ((_ :: _) as d) => Some <$> json_dumps d
  | Some [] | None => Ok None
  end.

(** [insert_detection(pair_id, signal_type, severity, metadata)], called
    at time [now]; the formatted value at the end of the error message is
    left out. *)
Definition insert_detection (now : timestamp) (pair_id signal_type : string)
    (severity : float) (metadata : option dict) : db -> result Z * db :=
  fun s =>
    if negb (le f0_0 severity && le severity f1_0) then
      (Raise (ValueError "Severity must be between 0.0 and 1.0, got "), s)
    else
      match metadata_json metadata with
      | Raise e => (Raise e, s)
      | Ok metadata_json =>
          get_db_connection
            (execute
               (insert_detection_row now pair_id signal_type severity
                  metadata_json)) s
      end.

(** The states the store's operations produce from a new file. *)
Inductive reachable : db -> Prop :=
  | reachable_empty : reachable empty_db
  | reachable_init_db now s :
      reachable s -> reachable (init_db now s).2
  | reachable_insert_response_pair now pair_id chosen rejected source s :
      reachable s ->
      reachable (insert_response_pair now pair_id chosen rejected source s).2
  | reachable_insert_detection now pair_id signal_type severity metadata s :
      reachable s ->
      reachable
        (insert_detection now pair_id signal_type severity metadata s).2
  | reachable_clear_all_data s :
      reachable s -> reachable (clear_all_data s).2.

(** [evolves s s']: some sequence of the store's operations, possibly
    empty, leads from [s] to [s']. *)
Inductive evolves (s : db) : db -> Prop :=
  | evolves_refl : evolves s s
  | evolves_init_db now s' :
      evolves s s' -> evolves s (init_db now s').2
  | evolves_insert_response_pair now pair_id chosen rejected source s' :
      evolves s s' ->
      evolves s
        (insert_response_pair now pair_id chosen rejected source s').2
  | evolves_insert_detection now pair_id signal_type severity metadata s' :
      evolves s s' ->
      evolves s
        (insert_detection now pair_id signal_type severity metadata s').2
  | evolves_clear_all_data s' :
      evolves s s' -> evolves s (clear_all_data s').2.

End Store.

End Database.

(** ** Sample data for the worked cases *)

Module Examples.
Import Float64 Database.

Definition t0 : timestamp := "2026-01-01 00:00:00".
Definition t1 : timestamp := "2026-01-01 00:00:01".
Definition t2 : timestamp := "2026-01-01 00:00:02".

(** An initialized store holding the one pair "hh-rlhf-train-0". *)
Definition store : db :=
  (insert_response_pair t1 "hh-rlhf-train-0" "Sure, here it is." "No."
     "hh-rlhf" (init_db t0 empty_db).2).2.

(** [json.dumps] on dicts of plain-text values without characters that
    need an escape. *)
Definition quote : string := String "034"%char "".

Definition dumps_item (item : string * string) : string :=
  quote +:+ item.1 +:+ quote +:+ ": " +:+ quote +:+ item.2 +:+ quote.

Definition dumps_text (d : dict string) : result string :=
  Ok ("{" +:+ String.concat ", " (map dumps_item d) +:+ "}").

(** The sample store after one detection on its pair. *)
Definition store_with_detection : db :=
  (insert_detection string dumps_text t2 "hh-rlhf-train-0" "refusal_bias"
     f1_0 (Some [("reason", "refusal")]) store).2.

(** A row whose chosen response is a given text. *)
Definition row_saying (text : string) : Models.PreferenceRow :=
  {| Models.prompt := "Say something.";
     Models.chosen := text;
     Models.rejected := "No.";
     Models.row_id := "r0" |}.

(** The rows of the specification's refusal-bias cases. *)
Definition refusal_chosen : Models.PreferenceRow :=
  {| Models.prompt := "How do I do this?";
     Models.chosen := "I cannot help with that.";
     Models.rejected := "Here is how...";
     Models.row_id := "r1" |}.

Definition refusal_rejected : Models.PreferenceRow :=
  {| Models.prompt := "How do I do this?";
     Models.chosen := "Here is how...";
     Models.rejected := "I cannot help with that.";
     Models.row_id := "r2" |}.

Definition no_refusal : Models.PreferenceRow :=
  {| Models.prompt := "How do I do this?";
     Models.chosen := "Here is how...";
     Models.rejected := "Try this instead.";
     Models.row_id := "r3" |}.

(** Two rows with the same chosen response, and two encoders that give
    every text the same vector: a unit vector, and the zero vector. *)
Definition twins : list Models.PreferenceRow :=
  [ {| Models.prompt := "Q1"; Models.chosen := "Same answer.";
       Models.rejected := "No."; Models.row_id := "a" |};
    {| Models.prompt := "Q2"; Models.chosen := "Same answer.";
       Models.rejected := "Never."; Models.row_id := "b" |} ].

Definition unit_encoder (texts : list string)
  : list SemanticDuplicates.vector :=
  map (fun _ => [1%R; 0%R]) texts.

Definition zero_encoder (texts : list string)
  : list SemanticDuplicates.vector :=
  map (fun _ => [0%R; 0%R]) texts.

(** A grade that only looks at the length of the text. *)
Definition grade_by_length (text : string) : float :=
  of_nat (String.length text).

(** A sorter for [ORDER BY]: insertion sort. *)
Fixpoint insert_by {A} (before : A -> A -> bool) (x : A) (l : list A)
  : list A :=
  match l with
  | [] => [x]
  | y :: l' => if before x y then x :: l else y :: insert_by before x l'
  end.

Definition insertion_sort (A : Type) (before : A -> A -> bool) (l : list A)
  : list A :=
  foldr (insert_by before) [] l.

(** A conversation of two turns and a dataset of two examples; a
    [load_dataset] that knows the split "train" only, and a [select] that
    raises IndexError past the end. *)
Definition conversation (prompt response : string) : string :=
  Str.newline +:+ Str.newline +:+ HHRLHF.HUMAN +:+ prompt
    +:+ HHRLHF.ASSISTANT +:+ response.

Definition hh_examples : list HHRLHF.example :=
  [ {| HHRLHF.ex_chosen := conversation "What is 2 + 2?" "4.";
       HHRLHF.ex_rejected := conversation "What is 2 + 2?" "5." |};
    {| HHRLHF.ex_chosen := conversation "Name a colour." "Blue.";
       HHRLHF.ex_rejected := conversation "Name a colour." "No." |} ].

Definition load_dataset (path split : string)
  : result (list HHRLHF.example) :=
  if bool_decide (split = "train") then Ok hh_examples
  else Raise (ValueError "Unknown split").

Definition select (dataset : list HHRLHF.example) (indices : list nat)
  : result (list HHRLHF.example) :=
  match mapM (fun i => dataset !! i) indices with
  | Some examples => Ok examples
  | None => Raise (IndexError "Index out of range")
  end.

(** The sample store after a second detection; and the store with its one
    detection once cleared and given its pair again. *)
Definition store_with_two_detections : db :=
  (insert_detection string dumps_text t2 "hh-rlhf-train-0" "length_ratio"
     f0_50 None store_with_detection).2.

Definition store_refilled : db :=
  (insert_response_pair t2 "hh-rlhf-train-0" "Sure, here it is." "No."
     "hh-rlhf" (clear_all_data store_with_detection).2).2.

(** An average and a rounding for the statistics of the sample store: the
    mean in binary64, and values kept as they are. *)
Definition mean (values : list float) : float :=
  SFdiv prec emax (foldr (SFadd prec emax) f0_0 values)
    (of_nat (length values)).

Definition keep (x : float) : float := x.

(** The row [load] makes of the first sample example. *)
Definition first_row : Models.PreferenceRow :=
  {| Models.prompt := "What is 2 + 2?"; Models.chosen := "4.";
     Models.rejected := "5."; Models.row_id := "hh-rlhf-train-0" |}.

End Examples.

(** * Properties *)

(** ** Floats: the order of [SFcompare] *)

Section FloatOrder.
Import Float64.

Lemma SFcompare_antisym (a b : float) (c : comparison) :
  SFcompare a b = Some c -> SFcompare b a = Some (CompOpp c).
Proof.
  destruct a as [sa|sa| |sa ma ea], b as [sb|sb| |sb mb eb]; simpl;
    try discriminate;
    try (destruct sa; intros [= <-]; reflexivity);
    try (destruct sb; intros [= <-]; reflexivity);
    try (destruct sa, sb; intros [= <-]; reflexivity).
  change (Pos.compare_cont Eq ma mb) with (Pos.compare ma mb).
  change (Pos.compare_cont Eq mb ma) with (Pos.compare mb ma).
  rewrite (Z.compare_antisym ea eb), (Pos.compare_antisym ma mb).
  destruct sa, sb; intros [= <-]; try reflexivity;
    destruct (ea ?= eb)%Z; simpl; try reflexivity;
    destruct (ma ?= mb)%positive; reflexivity.
Qed.

Lemma SFcompare_not_nan (a b : float) :
  is_nan a = false -> is_nan b = false -> exists c, SFcompare a b = Some c.
Proof.
  destruct a as [sa|sa| |sa ma ea], b as [sb|sb| |sb mb eb]; simpl;
    intros; try discriminate; eauto.
Qed.

Lemma SFleb_not_nan (a b : float) :
  SFleb a b = true -> is_nan a = false /\ is_nan b = false.
Proof.
  unfold SFleb.
  destruct a as [sa|sa| |sa ma ea], b as [sb|sb| |sb mb eb]; simpl;
    intros; try discriminate; auto.
Qed.

(** On numbers, [not (a <= b)] is [b < a]. *)
Lemma SFleb_false_iff (a b : float) :
  is_nan a = false -> is_nan b = false ->
  SFleb a b = false <-> SFltb b a = true.
Proof.
  intros Ha Hb. destruct (SFcompare_not_nan a b Ha Hb) as [c Hc].
  pose proof (SFcompare_antisym a b c Hc) as Hc'.
  unfold SFleb, SFltb. rewrite Hc, Hc'.
  destruct c; simpl; split; intros; congruence.
Qed.

Ltac float_cases x :=
  let s := fresh "s" in let m := fresh "m" in let e := fresh "e" in
  destruct x as [s|s| |s m e]; try destruct s.

Lemma SFleb_trans (a b c : float) :
  SFleb a b = true -> SFleb b c = true -> SFleb a c = true.
Proof.
  unfold SFleb.
  float_cases a; float_cases b; float_cases c; simpl;
    try discriminate; try reflexivity;
    change (Pos.compare_cont Eq) with Pos.compare;
    repeat match goal with
    | |- context [(?x ?= ?y)%Z] =>
        destruct (Z.compare_spec x y); simpl; try discriminate
    | |- context [(?x ?= ?y)%positive] =>
        destruct (Pos.compare_spec x y); simpl; try discriminate
    end;
    intros; try reflexivity; lia.
Qed.

End FloatOrder.

(** The constants above are the values the decimal literals denote: the
    literal is read, as Python reads it, as the nearest binary64 value. *)
Set Warnings "-inexact-float".
Lemma literals_binary64 :
  Prim2SF 0.0%float = Float64.f0_0 /\ Prim2SF 1.0%float = Float64.f1_0 /\
  Prim2SF 2.0%float = Float64.f2_0 /\ Prim2SF 6.0%float = Float64.f6_0 /\
  Prim2SF 3.0%float = Float64.f3_0 /\ Prim2SF 0.90%float = Float64.f0_90 /\
  Prim2SF 0.70%float = Float64.f0_70 /\ Prim2SF 0.50%float = Float64.f0_50 /\
  Prim2SF 0.95%float = Float64.f0_95 /\
  Prim2SF 0.899999%float = Float64.f0_899999 /\
  Prim2SF 0.69999%float = Float64.f0_69999 /\
  Prim2SF 0.49999%float = Float64.f0_49999.
Proof. vm_compute. repeat split. Qed.
Set Warnings "+inexact-float".

(** ** [src/models.py]: PreferenceRow *)

Lemma str_falsy_true (s : string) : str_falsy s = true <-> s = "".
Proof. destruct s; simpl; split; congruence. Qed.

Lemma str_falsy_false (s : string) : str_falsy s = false <-> s <> "".
Proof. destruct s; simpl; split; congruence. Qed.

(** C9.  Constructing a PreferenceRow raises a ValueError exactly when
    row_id, prompt, chosen or rejected is the empty string; when all four
    are non-empty it returns the record holding the four arguments. *)
Theorem preference_row_validation (p c r i : string) :
  ((exists msg, Models.new p c r i = Raise (ValueError msg)) <->
     (i = "" \/ p = "" \/ c = "" \/ r = "")) /\
  ((exists row, Models.new p c r i = Ok row /\
                Models.prompt row = p /\ Models.chosen row = c /\
                Models.rejected row = r /\ Models.row_id row = i) <->
     (i <> "" /\ p <> "" /\ c <> "" /\ r <> "")).
Proof.
  unfold Models.new, Models.__post_init__; simpl.
  destruct (str_falsy i) eqn:Hi; [apply str_falsy_true in Hi|
  destruct (str_falsy p) eqn:Hp; [apply str_falsy_true in Hp|
  destruct (str_falsy c) eqn:Hc; [apply str_falsy_true in Hc|
  destruct (str_falsy r) eqn:Hr; [apply str_falsy_true in Hr|]]]];
    simpl.
  1-4: split; [split; [tauto | eauto] | split; [intros (? & [=] & _) | tauto]].
  apply str_falsy_false in Hi, Hp, Hc, Hr.
  split; [split; [intros [? [=]] | tauto] | split; [tauto | eauto 10]].
Qed.

(** ** [detectors/base.py]: the severity classifier *)

Section SeverityLevel.
Import Float64 Detectors.

Lemma lt_negb_ge (s c : float) :
  is_nan s = false -> is_nan c = false -> lt s c = negb (ge s c).
Proof.
  intros Hs Hc. unfold ge, lt.
  pose proof (SFleb_false_iff c s Hc Hs) as H.
  destruct (SFleb c s), (SFltb s c); simpl; intuition congruence.
Qed.

Lemma ge_weaken (s c c' : float) :
  le c' c = true -> ge s c = true -> ge s c' = true.
Proof. unfold ge, le. intros H1 H2. exact (SFleb_trans _ _ _ H1 H2). Qed.

Lemma in_unit_interval_not_nan (s : float) :
  in_unit_interval s = true -> is_nan s = false.
Proof.
  unfold in_unit_interval, le. intros [H _]%andb_true_iff.
  now apply SFleb_not_nan in H.
Qed.

(** C3.  On [0, 1] the classifier always returns one of the four levels:
    critical iff severity >= 0.90, high iff 0.70 <= severity < 0.90, medium
    iff 0.50 <= severity < 0.70, low iff severity < 0.50; outside [0, 1]
    (a NaN included) it raises ValueError instead of clamping; and the six
    boundary probes fall in the stated buckets. *)
Theorem get_severity_level_buckets :
  (forall s : float,
     (in_unit_interval s = true ->
        (exists lvl, get_severity_level s = Ok lvl /\
                     In lvl ["critical"; "high"; "medium"; "low"]) /\
        (get_severity_level s = Ok "critical" <-> ge s f0_90 = true) /\
        (get_severity_level s = Ok "high" <->
           ge s f0_70 = true /\ lt s f0_90 = true) /\
        (get_severity_level s = Ok "medium" <->
           ge s f0_50 = true /\ lt s f0_70 = true) /\
        (get_severity_level s = Ok "low" <-> lt s f0_50 = true)) /\
     (in_unit_interval s = false ->
        exists msg, get_severity_level s = Raise (ValueError msg))) /\
  get_severity_level f0_90 = Ok "critical" /\
  get_severity_level f0_899999 = Ok "high" /\
  get_severity_level f0_70 = Ok "high" /\
  get_severity_level f0_69999 = Ok "medium" /\
  get_severity_level f0_50 = Ok "medium" /\
  get_severity_level f0_49999 = Ok "low".
Proof.
  split; [|repeat split].
  intros s; split; unfold get_severity_level;
    fold (in_unit_interval s); intros Hr; rewrite Hr; simpl; [|eauto].
  pose proof (in_unit_interval_not_nan s Hr) as Hs.
  rewrite (lt_negb_ge s f0_90), (lt_negb_ge s f0_70), (lt_negb_ge s f0_50)
    by easy.
  pose proof (ge_weaken s f0_90 f0_70 eq_refl) as W97.
  pose proof (ge_weaken s f0_70 f0_50 eq_refl) as W75.
  destruct (ge s f0_90); [rewrite W97, W75 by auto|];
    [|destruct (ge s f0_70); [rewrite W75 by auto|];
      [|destruct (ge s f0_50)]];
    cbn [negb In]; (split; [eexists; split; [reflexivity | tauto]|]);
    intuition congruence.
Qed.

End SeverityLevel.

(** ** [src/signals/length_ratio.py]: the length-ratio detector *)

Section LengthRatioFacts.
Import Float64 Models LengthRatio.

(** A finite float divided by itself is exactly [1.0]. *)
Lemma SFdiv_self_finite (s : bool) (m : positive) (e : Z) :
  SFdiv prec emax (S754_finite s m e) (S754_finite s m e) = f1_0.
Proof.
  unfold SFdiv, SFdiv_core_binary.
  rewrite !Z.sub_diag.
  change (Z.min (fexp prec emax 0) 0) with (-53)%Z.
  change (0 - -53)%Z with 53%Z. cbv iota beta.
  rewrite Z.shiftl_mul_pow2 by lia.
  rewrite (Z.mul_comm (Z.pos m)).
  pose proof (Z.div_mul (2 ^ 53) (Z.pos m) ltac:(lia)) as Hq.
  pose proof (Z.mod_mul (2 ^ 53) (Z.pos m) ltac:(lia)) as Hr.
  unfold Z.div, Z.modulo in Hq, Hr.
  destruct (Z.div_eucl (2 ^ 53 * Z.pos m) (Z.pos m)) as [q r].
  subst q r. rewrite xorb_nilpotent.
  assert (new_location (Z.pos m) 0 = loc_Exact) as ->
    by (unfold new_location; destruct (Z.even (Z.pos m)); reflexivity).
  reflexivity.
Qed.

Lemma SFdiv_self (x : float) :
  SFdiv prec emax x x = f1_0 \/ SFdiv prec emax x x = S754_nan.
Proof.
  destruct x as [s|s| |s m e]; [right; reflexivity..|left].
  apply SFdiv_self_finite.
Qed.

Lemma analyze_from_acc (mr : float) (rows : list PreferenceRow)
    (acc : list finding) :
  analyze_from mr rows acc =
  (found ← analyze_from mr rows []; Ok (acc ++ found)).
Proof.
  revert acc. induction rows as [|row rows IH]; intros acc; simpl.
  - now rewrite app_nil_r.
  - destruct (analyze_row mr row) as [found|err]; simpl; [|reflexivity].
    rewrite (IH (acc ++ found)), (IH found).
    destruct (analyze_from mr rows []) as [fs|err]; simpl; [|reflexivity].
    now rewrite app_assoc.
Qed.

Lemma analyze_cons (mr : float) (row : PreferenceRow)
    (rows : list PreferenceRow) :
  analyze mr (row :: rows) =
  (found ← analyze_row mr row; rest ← analyze mr rows;
   Ok (found ++ rest)).
Proof.
  unfold analyze; simpl.
  destruct (analyze_row mr row) as [found|err]; simpl; [|reflexivity].
  apply analyze_from_acc.
Qed.

Lemma analyze_row_equal_lengths (mr bound : float) (row : PreferenceRow) :
  String.length (chosen row) = String.length (rejected row) ->
  String.length (rejected row) <> 0 ->
  ge mr f1_0 = true -> truediv f1_0 mr = Ok bound -> le bound f1_0 = true ->
  analyze_row mr row = Ok [].
Proof.
  intros Hlen Hnz Hmr Hbound Hle. unfold analyze_row.
  rewrite Hlen.
  destruct (String.length (rejected row)) as [|n] eqn:Hn; [done|].
  cbn [Nat.eqb orb int_truediv mbind result_bind].
  set (x := of_nat (S n)).
  assert (gt f1_0 mr = false /\ lt f1_0 bound = false) as [G L].
  { unfold gt, lt, ge, le in *. split.
    - destruct (SFleb_not_nan _ _ Hmr) as [? ?].
      apply not_true_is_false. rewrite <- SFleb_false_iff by assumption.
      congruence.
    - destruct (SFleb_not_nan _ _ Hle) as [? ?].
      apply not_true_is_false. rewrite <- SFleb_false_iff by assumption.
      congruence. }
  destruct (SFdiv_self x) as [-> | ->].
  - rewrite G, Hbound. cbn. now rewrite L.
  - assert (gt S754_nan mr = false) as -> by now destruct mr as [| | |[]].
    rewrite Hbound. cbn. now destruct bound as [| | |[]].
Qed.


End LengthRatioFacts.

(** ** [database.py]: the detection store *)

Section StoreFacts.
Import Float64 Database.

(** One statement in a connection: its write is committed when it
    returns and dropped when it raises. *)
Lemma get_db_connection_execute {A} (statement : sql A) (s : db) :
  get_db_connection (execute statement) s =
  match statement s with
  | (Ok a, s') => (Ok a, s')
  | (Raise e, _) => (Raise e, s)
  end.
Proof.
  unfold get_db_connection, execute; cbn.
  now destruct (statement s) as [[a|e] s'].
Qed.

(** C4.  From any state, [init_db] succeeds, and so does a second call,
    which changes nothing: after two calls the table set is the one a
    single call leaves (the three tables of the schema), and the query for
    the current version returns exactly one row, the one the first call
    left. *)
Theorem init_db_idempotent (s : db) (now1 now2 : timestamp) :
  let once := init_db now1 s in
  let twice := init_db now2 once.2 in
  once.1 = Ok tt /\ twice.1 = Ok tt /\
  twice.2 = once.2 /\
  table_set twice.2 = table_set once.2 /\
  table_set once.2 = {["response_pairs"; "detections"; "schema_version"]} /\
  (select_version CURRENT_SCHEMA_VERSION twice.2).1
    = Ok [CURRENT_SCHEMA_VERSION] /\
  (exists versions applied_at,
     schema_version once.2 = Some versions /\
     schema_version twice.2 = Some versions /\
     versions !! CURRENT_SCHEMA_VERSION = Some applied_at).
Proof.
  destruct s as [rp det sv idx].
  assert (forall X : gset string,
            X ∪ {["idx_detections_pair_id"]} ∪ {["idx_detections_signal_type"]}
              ∪ {["idx_detections_severity"]}
              ∪ {["idx_detections_pair_id"]} ∪ {["idx_detections_signal_type"]}
              ∪ {["idx_detections_severity"]}
            = X ∪ {["idx_detections_pair_id"]}
                ∪ {["idx_detections_signal_type"]}
                ∪ {["idx_detections_severity"]}) as Hidx
    by (intros X; apply set_eq; intros x; set_unfold; tauto).
  unfold init_db, get_db_connection, stmt_bind, executescript, execute,
    SCHEMA_SQL, select_version, insert_version, stmt_ret; cbn.
  destruct (default ∅ sv !! CURRENT_SCHEMA_VERSION) as [at0|] eqn:Hv; cbn;
    rewrite ?Hv, ?lookup_insert_eq; cbn; rewrite ?Hv, ?lookup_insert_eq, ?Hidx;
    unfold table_set; cbn; repeat split.
  - exists (default ∅ sv), at0. auto.
  - now rewrite lookup_insert_eq.
  - exists (<[CURRENT_SCHEMA_VERSION := now1]> (default ∅ sv)), now1.
    rewrite lookup_insert_eq. auto.
Qed.

Lemma init_db_tables now (s : db) :
  response_pairs (init_db now s).2 = Some (default ∅ (response_pairs s)) /\
  detections (init_db now s).2
  = Some (default empty_detections (detections s)).
Proof.
  unfold init_db, get_db_connection, stmt_bind, executescript, execute,
    SCHEMA_SQL, select_version, insert_version, stmt_ret; cbn.
  destruct (default ∅ (schema_version s) !! CURRENT_SCHEMA_VERSION) eqn:Hv;
    cbn; rewrite ?Hv; cbn; auto.
Qed.

(** [clear_all_data] on a store with both tables succeeds and leaves both
    empty; [init_db] still succeeds afterwards and keeps them empty. *)
Theorem clear_all_data_empties (s : db) pairs table now :
  response_pairs s = Some pairs -> detections s = Some table ->
  let cleared := clear_all_data s in
  let again := init_db now cleared.2 in
  cleared.1 = Ok tt /\
  response_pairs cleared.2 = Some ∅ /\
  (exists table', detections cleared.2 = Some table' /\ det_rows table' = [])
  /\ again.1 = Ok tt /\
  response_pairs again.2 = Some ∅ /\
  (exists table', detections again.2 = Some table' /\ det_rows table' = []).
Proof.
  intros Hp Ht. cbv zeta.
  destruct (init_db_tables now (clear_all_data s).2) as [Hp' Hd'].
  rewrite Hp', Hd'.
  assert ((init_db now (clear_all_data s).2).1 = Ok tt) as ->.
  { unfold init_db, get_db_connection, stmt_bind, executescript, execute,
      SCHEMA_SQL, select_version, insert_version, stmt_ret; cbn.
    destruct (default ∅ _ !! CURRENT_SCHEMA_VERSION) eqn:Hv;
      cbn; rewrite ?Hv; cbn; reflexivity. }
  unfold clear_all_data, get_db_connection, stmt_bind, execute,
    delete_detections, delete_response_pairs; cbn.
  rewrite Ht; cbn. rewrite Hp; cbn. eauto 10.
Qed.

End StoreFacts.

Section InsertDetectionFacts.
Import Float64 Database.

Variable value : Type.
Variable json_dumps : dict value -> result string.

Local Abbreviation insert_detection :=
  (Database.insert_detection value json_dumps).
Local Abbreviation metadata_json := (Database.metadata_json value json_dumps).

Lemma insert_detection_out_of_range now pid sig sev md (s : db) :
  in_unit_interval sev = false ->
  insert_detection now pid sig sev md s =
  (Raise (ValueError "Severity must be between 0.0 and 1.0, got "), s).
Proof.
  unfold Database.insert_detection. fold (in_unit_interval sev).
  now intros ->.
Qed.

Lemma insert_detection_in_range now pid sig sev md (s : db) :
  in_unit_interval sev = true ->
  insert_detection now pid sig sev md s =
  match metadata_json md with
  | Raise e => (Raise e, s)
  | Ok j =>
      get_db_connection (execute (insert_detection_row now pid sig sev j)) s
  end.
Proof.
  unfold Database.insert_detection. fold (in_unit_interval sev).
  now intros ->.
Qed.

(** The INSERT either raises and leaves the database as it was, or
    appends one row that carries the given columns. *)
Lemma insert_detection_row_cases now pid sig sev j (s : db) :
  (exists e, insert_detection_row now pid sig sev j s = (Raise e, s)) \/
  (exists table id,
     detections s = Some table /\ in_unit_interval sev = true /\
     insert_detection_row now pid sig sev j s =
     (Ok id,
      {| response_pairs := response_pairs s;
         detections :=
           Some {| det_rows := det_rows table ++
                     [ {| detection_id := id; pair_id := pid;
                          signal_type := sig; severity := sev;
                          metadata := j; detected_at := now |} ];
                   det_sequence := id |};
         schema_version := schema_version s;
         indexes := indexes s |})).
Proof.
  unfold insert_detection_row, in_unit_interval, ge, le.
  destruct (detections s) as [table|]; [|eauto].
  destruct (SFleb f0_0 sev && SFleb sev f1_0); simpl; [|eauto].
  destruct (response_pairs s) as [pairs|]; [|eauto].
  destruct (pairs !! pid); [right|eauto].
  exists table. eexists. eauto.
Qed.

(** Where the call gets once the range check has passed and the metadata
    is serialized: either it raises and the database is as before, or it
    appends one row with the given columns. *)
Lemma insert_detection_cases now pid sig sev md (s : db) :
  (exists e, insert_detection now pid sig sev md s = (Raise e, s)) \/
  (exists table id j,
     detections s = Some table /\ in_unit_interval sev = true /\
     metadata_json md = Ok j /\
     insert_detection now pid sig sev md s =
     (Ok id,
      {| response_pairs := response_pairs s;
         detections :=
           Some {| det_rows := det_rows table ++
                     [ {| detection_id := id; pair_id := pid;
                          signal_type := sig; severity := sev;
                          metadata := j; detected_at := now |} ];
                   det_sequence := id |};
         schema_version := schema_version s;
         indexes := indexes s |})).
Proof.
  destruct (in_unit_interval sev) eqn:Hsev.
  - rewrite insert_detection_in_range by assumption.
    destruct (metadata_json md) as [j|e]; [|eauto].
    destruct (insert_detection_row_cases now pid sig sev j s)
      as [[e He]|(table & id & Ht & _ & Hok)].
    + left. exists e. now rewrite get_db_connection_execute, He.
    + right. exists table, id, j. repeat split; try assumption.
      now rewrite get_db_connection_execute, Hok.
  - left. rewrite insert_detection_out_of_range by assumption. eauto.
Qed.

(** C1 (as amended).  A call whose pair_id is not in response_pairs always
    fails and leaves the whole database as it was.  The error is the
    ValueError of the range check when the severity is outside [0, 1];
    when the severity is in range, the metadata serializes and the
    detections table exists, it is the foreign-key IntegrityError. *)
Theorem insert_detection_unknown_pair now pid sig sev md (s : db) pairs :
  response_pairs s = Some pairs -> pairs !! pid = None ->
  exists e,
    insert_detection now pid sig sev md s = (Raise e, s) /\
    (in_unit_interval sev = false ->
       e = ValueError "Severity must be between 0.0 and 1.0, got ") /\
    (in_unit_interval sev = true ->
       forall j table,
         metadata_json md = Ok j -> detections s = Some table ->
         e = IntegrityError "FOREIGN KEY constraint failed").
Proof.
  intros Hpairs Hmissing.
  destruct (in_unit_interval sev) eqn:Hsev.
  - rewrite insert_detection_in_range by assumption.
    destruct (metadata_json md) as [j|e].
    + assert (exists e,
                insert_detection_row now pid sig sev j s = (Raise e, s) /\
                (forall table, detections s = Some table ->
                   e = IntegrityError "FOREIGN KEY constraint failed"))
        as (e & He & HFK).
      { unfold insert_detection_row.
        destruct (detections s) as [table|]; [|eexists; split; [eauto|done]].
        unfold in_unit_interval, le in Hsev. unfold ge, le.
        rewrite Hsev, Hpairs, Hmissing. cbn. eauto. }
      exists e. split; [|split; [done|]].
      * now rewrite get_db_connection_execute, He.
      * intros _ j' table [= <-] Ht. eauto.
    + exists e. repeat split; [done|]. intros _ j table [=].
  - rewrite insert_detection_out_of_range by assumption.
    eexists. repeat split. done.
Qed.

Lemma severities_in_range_same_detections (s s' : db) :
  detections s' = detections s ->
  severities_in_range s -> severities_in_range s'.
Proof. unfold severities_in_range. intros ->. auto. Qed.

Lemma severities_in_range_no_rows (s : db) :
  (forall table, detections s = Some table -> det_rows table = []) ->
  severities_in_range s.
Proof.
  intros H table row Ht Hin. rewrite (H table Ht) in Hin. destruct Hin.
Qed.

Lemma init_db_severities now (s : db) :
  severities_in_range s -> severities_in_range (init_db now s).2.
Proof.
  intros Hs.
  assert (forall s' : db,
            detections s' = Some (default empty_detections (detections s)) ->
            severities_in_range s') as Hkeep.
  { intros s' Hs' table row. rewrite Hs'. intros [= <-].
    destruct (detections s) as [t|] eqn:Ht; cbn; [eauto|tauto]. }
  unfold init_db, get_db_connection, stmt_bind, executescript, execute,
    SCHEMA_SQL, select_version, insert_version, stmt_ret; cbn.
  destruct (default ∅ (schema_version s) !! CURRENT_SCHEMA_VERSION) eqn:Hv;
    cbn; rewrite ?Hv; cbn; now apply Hkeep.
Qed.

Lemma insert_response_pair_severities now pid c r src (s : db) :
  severities_in_range s ->
  severities_in_range (insert_response_pair now pid c r src s).2.
Proof.
  apply severities_in_range_same_detections.
  unfold insert_response_pair. rewrite get_db_connection_execute.
  unfold insert_response_pair_row.
  destruct (response_pairs s) as [pairs|]; [|reflexivity].
  now destruct (pairs !! pid).
Qed.

Lemma clear_all_data_severities (s : db) :
  severities_in_range s -> severities_in_range (clear_all_data s).2.
Proof.
  intros Hs.
  unfold clear_all_data, get_db_connection, stmt_bind, execute,
    delete_detections, delete_response_pairs; cbn.
  destruct (detections s) as [table|] eqn:Ht; cbn; [|assumption].
  destruct (response_pairs s) as [pairs|]; cbn; [|assumption].
  apply severities_in_range_no_rows. cbn. now intros t [= <-].
Qed.

Lemma insert_detection_severities now pid sig sev md (s : db) :
  severities_in_range s ->
  severities_in_range (insert_detection now pid sig sev md s).2.
Proof.
  intros Hs.
  destruct (insert_detection_cases now pid sig sev md s)
    as [[e ->]|(table & id & j & Ht & Hsev & _ & ->)]; [assumption|].
  intros table' row; cbn. intros [= <-]; cbn.
  rewrite in_app_iff; cbn. intros [Hin|[<-|[]]]; [eauto|exact Hsev].
Qed.

(** C2.  A severity outside [0.0, 1.0] (a NaN included) makes the call
    raise ValueError with the database left as it was: no statement is run.
    A severity inside the interval passes the check: the call goes on to
    serialize the metadata and run the INSERT, which succeeds when the pair
    exists.  So the call keeps every stored severity in [0.0, 1.0], and
    every state the store's operations reach from a new file has all its
    severities there. *)
Theorem insert_detection_severity_range :
  (forall now pid sig sev md (s : db),
     in_unit_interval sev = false ->
     insert_detection now pid sig sev md s =
     (Raise (ValueError "Severity must be between 0.0 and 1.0, got "), s)) /\
  (forall now pid sig sev md (s : db),
     in_unit_interval sev = true ->
     insert_detection now pid sig sev md s =
     match metadata_json md with
     | Raise e => (Raise e, s)
     | Ok j =>
         get_db_connection (execute (insert_detection_row now pid sig sev j))
           s
     end) /\
  (forall now pid sig sev (s : db) pairs pair table,
     in_unit_interval sev = true ->
     response_pairs s = Some pairs -> pairs !! pid = Some pair ->
     detections s = Some table ->
     exists id s' table',
       insert_detection now pid sig sev None s = (Ok id, s') /\
       detections s' = Some table' /\
       det_rows table' =
         (det_rows table ++
          [ {| detection_id := id; pair_id := pid; signal_type := sig;
               severity := sev; metadata := None; detected_at := now |} ])%list)
  /\
  (forall now pid sig sev md (s : db),
     severities_in_range s ->
     severities_in_range (insert_detection now pid sig sev md s).2) /\
  (forall s : db, reachable value json_dumps s -> severities_in_range s).
Proof.
  split; [exact insert_detection_out_of_range|].
  split; [exact insert_detection_in_range|].
  split; [|split; [exact insert_detection_severities|]].
  - intros now pid sig sev s pairs pair table Hsev Hp Hpid Ht.
    rewrite insert_detection_in_range by assumption. cbn.
    rewrite get_db_connection_execute. unfold insert_detection_row.
    unfold in_unit_interval, le in Hsev. unfold ge, le.
    rewrite Ht, Hsev, Hp, Hpid. cbn.
    do 3 eexists. repeat split; reflexivity.
  - intros s Hreach. induction Hreach.
    + apply severities_in_range_no_rows. discriminate.
    + now apply init_db_severities.
    + now apply insert_response_pair_severities.
    + now apply insert_detection_severities.
    + now apply clear_all_data_severities.
Qed.

Lemma foreign_keys_no_rows (s : db) :
  (forall table, detections s = Some table -> det_rows table = []) ->
  foreign_keys_hold s.
Proof.
  intros H table row Ht Hin. rewrite (H table Ht) in Hin. destruct Hin.
Qed.

(** The foreign key of [detections] holds in every state the store's
    operations reach from a new file: each stored detection's pair_id is
    the key of a stored pair. *)
Theorem reachable_foreign_keys (s : db) :
  reachable value json_dumps s -> foreign_keys_hold s.
Proof.
  induction 1 as [|now s _ IH|now pid c r src s _ IH
                  |now pid sig sev md s _ IH|s _ IH].
  - apply foreign_keys_no_rows. discriminate.
  - destruct (init_db_tables now s) as [Hp Hd].
    intros table row Ht Hin. rewrite Hd in Ht. injection Ht as <-.
    destruct (detections s) as [t|] eqn:Hds; [|destruct Hin].
    destruct (IH t row Hds Hin) as (pairs & pair & Hps & Hpair).
    exists pairs, pair. rewrite Hp, Hps. auto.
  - unfold insert_response_pair. rewrite get_db_connection_execute.
    unfold insert_response_pair_row.
    destruct (response_pairs s) as [pairs|] eqn:Hp; [|exact IH].
    destruct (pairs !! pid) eqn:Hpid; [exact IH|]. cbn.
    intros table row Ht Hin. cbn in Ht.
    destruct (IH table row Ht Hin) as (pairs' & pair & Hps & Hpair).
    rewrite Hp in Hps. injection Hps as <-.
    destruct (decide (pid = pair_id row)) as [->|Hne]; [congruence|].
    eexists _, pair. split; [reflexivity|]. now rewrite lookup_insert_ne.
  - destruct (insert_detection_cases now pid sig sev md s)
      as [[e ->]|(table & id & j & Ht & Hsev & Hj & Hok)]; [exact IH|].
    rewrite Hok. cbn.
    assert (exists pairs pair,
              response_pairs s = Some pairs /\ pairs !! pid = Some pair)
      as Hpid.
    { rewrite insert_detection_in_range, Hj, get_db_connection_execute in Hok
        by assumption.
      unfold insert_detection_row in Hok. rewrite Ht in Hok.
      destruct (negb _); [discriminate|].
      destruct (response_pairs s) as [pairs|]; [|discriminate].
      destruct (pairs !! pid) as [pair|] eqn:Hpair; [eauto|discriminate]. }
    intros table' row; cbn. intros [= <-]; cbn.
    rewrite in_app_iff; cbn. intros [Hin|[<-|[]]]; [eauto|exact Hpid].
  - unfold clear_all_data, get_db_connection, stmt_bind, execute,
      delete_detections, delete_response_pairs; cbn.
    destruct (detections s) as [table|] eqn:Ht; cbn; [|exact IH].
    destruct (response_pairs s) as [pairs|]; cbn; [|exact IH].
    apply foreign_keys_no_rows. cbn. now intros t [= <-].
Qed.


End InsertDetectionFacts.

(** *** Worked cases on the sample store *)

Section StoreExamples.
Import Float64 Database Examples.

(** C1, witness: an in-range detection for a pair the sample store does
    not hold. *)
Lemma insert_detection_unknown_pair_witness :
  exists e,
    Database.insert_detection string dumps_text t2 "no-such-pair"
      "refusal_bias" f1_0 (Some [("reason", "refusal")]) store
    = (Raise e, store) /\
    (in_unit_interval f1_0 = false ->
       e = ValueError "Severity must be between 0.0 and 1.0, got ") /\
    (in_unit_interval f1_0 = true ->
       forall j table,
         Database.metadata_json string dumps_text
           (Some [("reason", "refusal")]) = Ok j ->
         detections store = Some table ->
         e = IntegrityError "FOREIGN KEY constraint failed").
Proof.
  apply (insert_detection_unknown_pair string dumps_text t2 "no-such-pair"
           "refusal_bias" f1_0 (Some [("reason", "refusal")]) store
           {[ "hh-rlhf-train-0" :=
                {| rp_chosen := "Sure, here it is."; rp_rejected := "No.";
                   rp_source_dataset := "hh-rlhf"; rp_created_at := t1 |} ]}).
  - reflexivity.
  - reflexivity.
Defined.

(** C1, as stated, fails: with severity 2.0 the call for an unknown pair
    raises the ValueError of the range check, not an integrity error. *)
Lemma insert_detection_unknown_pair_counterexample :
  ~ (forall (value : Type) (json_dumps : dict value -> result string)
            (now : timestamp) (pid sig : string) (sev : float)
            (md : option (dict value)) (s : db)
            (pairs : gmap string response_pair_row),
       response_pairs s = Some pairs -> pairs !! pid = None ->
       exists msg,
         Database.insert_detection value json_dumps now pid sig sev md s
         = (Raise (IntegrityError msg), s)).
Proof.
  intros H.
  destruct (H string dumps_text t2 "no-such-pair" "refusal_bias" f2_0 None
              store _ eq_refl eq_refl) as [msg Hmsg].
  discriminate Hmsg.
Qed.

(** The foreign keys of the sample store with its detection hold. *)
Lemma reachable_foreign_keys_witness : foreign_keys_hold store_with_detection.
Proof.
  apply (reachable_foreign_keys string dumps_text).
  apply reachable_insert_detection, reachable_insert_response_pair,
    reachable_init_db, reachable_empty.
Defined.

(** Clearing the sample store with its detection empties both tables. *)
Lemma clear_all_data_empties_witness :
  let cleared := clear_all_data store_with_detection in
  let again := init_db t2 cleared.2 in
  cleared.1 = Ok tt /\
  response_pairs cleared.2 = Some ∅ /\
  (exists table', detections cleared.2 = Some table' /\ det_rows table' = [])
  /\ again.1 = Ok tt /\
  response_pairs again.2 = Some ∅ /\
  (exists table', detections again.2 = Some table' /\ det_rows table' = []).
Proof.
  eapply (clear_all_data_empties store_with_detection);
    reflexivity.
Defined.

End StoreExamples.

(** ** Strings *)

Section StrFacts.
Import Str.

Lemma append_cons (c : ascii) (a b : string) :
  String c a +:+ b = String c (a +:+ b).
Proof. reflexivity. Qed.

Lemma length_app (a b : string) :
  String.length (a +:+ b) = String.length a + String.length b.
Proof.
  induction a as [|x a IH]; [reflexivity|].
  rewrite append_cons. simpl. now rewrite IH.
Qed.

Lemma length_pos (a : string) : a <> "" -> 0 < String.length a.
Proof. destruct a; [congruence | simpl; lia]. Qed.

Lemma lower_app (a b : string) : lower (a +:+ b) = lower a +:+ lower b.
Proof.
  induction a as [|x a IH]; [reflexivity|].
  rewrite append_cons. simpl. now rewrite IH.
Qed.

(** A split of [lower t] comes from a split of [t]. *)
Lemma lower_split (t a b : string) :
  lower t = a +:+ b ->
  exists t1 t2, t = t1 +:+ t2 /\ lower t1 = a /\ lower t2 = b.
Proof.
  revert t. induction a as [|x a IH]; intros t H.
  - exists "", t. auto.
  - destruct t as [|c t]; [discriminate|].
    rewrite append_cons in H. simpl in H.
    injection H as Hc Ht. destruct (IH t Ht) as (t1 & t2 & -> & H1 & H2).
    exists (String c t1), t2. simpl. now rewrite Hc, H1.
Qed.

Lemma startswith_spec (s p : string) :
  startswith s p = true <-> exists rest, s = p +:+ rest.
Proof.
  revert s. induction p as [|c p IH]; intros s; simpl.
  - split; [|reflexivity]. intros _. now exists s.
  - destruct s as [|d s].
    + split; [discriminate | intros [rest [=]]].
    + rewrite andb_true_iff, Ascii.eqb_eq, IH. split.
      * intros [-> [rest ->]]. now exists rest.
      * intros [rest H]. rewrite append_cons in H.
        injection H as -> ->. eauto.
Qed.

Lemma contains_spec (hay needle : string) :
  contains hay needle = true <->
  exists before after, hay = before +:+ needle +:+ after.
Proof.
  induction hay as [|c hay IH]; simpl.
  - rewrite orb_false_r, startswith_spec. split.
    + intros [rest ->]. exists "", rest. reflexivity.
    + intros (before & after & H). destruct before; [eauto|discriminate].
  - rewrite orb_true_iff, startswith_spec, IH. split.
    + intros [[rest ->] | (before & after & ->)].
      * exists "", rest. reflexivity.
      * exists (String c before), after. reflexivity.
    + intros (before & after & H). destruct before as [|d before].
      * left. exists after. exact H.
      * right. rewrite append_cons in H. injection H as -> ->. eauto.
Qed.

(** The test the detectors run, [phrase in text.lower()] with a lower-case
    [phrase], is containment up to letter case. *)
Lemma contains_lower_spec (text phrase : string) :
  lower phrase = phrase ->
  contains (lower text) phrase = true <->
  exists before mid after,
    text = before +:+ mid +:+ after /\ lower mid = lower phrase.
Proof.
  intros Hp. rewrite contains_spec, Hp. split.
  - intros (b & a & H).
    destruct (lower_split _ _ _ H) as (t1 & t23 & -> & _ & H23).
    destruct (lower_split _ _ _ H23) as (t2 & t3 & -> & H2 & _).
    eauto.
  - intros (t1 & t2 & t3 & -> & H2).
    exists (lower t1), (lower t3). now rewrite !lower_app, H2.
Qed.

Lemma append_assoc (a b c : string) : (a +:+ b) +:+ c = a +:+ (b +:+ c).
Proof.
  induction a as [|x a IH]; [reflexivity|].
  rewrite !append_cons. now rewrite IH.
Qed.

Lemma append_nil_r (a : string) : a +:+ "" = a.
Proof.
  induction a as [|x a IH]; [reflexivity|].
  rewrite append_cons. now rewrite IH.
Qed.

Lemma take_drop (n : nat) (s : string) : take n s +:+ drop n s = s.
Proof.
  revert s. induction n as [|n IH]; intros [|c s]; try reflexivity.
  simpl. rewrite append_cons. now rewrite IH.
Qed.

Lemma take_app_length (a b : string) : take (String.length a) (a +:+ b) = a.
Proof.
  induction a as [|x a IH]; [now destruct b|].
  rewrite append_cons. simpl. now rewrite IH.
Qed.

Lemma drop_app_length (a b : string) : drop (String.length a) (a +:+ b) = b.
Proof.
  induction a as [|x a IH]; [now destruct b|].
  rewrite append_cons. simpl. exact IH.
Qed.

Lemma length_drop (n : nat) (s : string) :
  String.length (drop n s) = String.length s - n.
Proof.
  revert s. induction n as [|n IH]; intros [|c s]; simpl; try lia.
  apply IH.
Qed.

Lemma run_le_length (class : ascii -> bool) (s : string) :
  run class s <= String.length s.
Proof.
  induction s as [|c s IH]; simpl; [lia|]. destruct (class c); lia.
Qed.

Lemma length_take (n : nat) (s : string) :
  n <= String.length s -> String.length (take n s) = n.
Proof.
  revert s. induction n as [|n IH]; intros [|c s]; simpl; try lia.
  intros H. rewrite IH; lia.
Qed.

Lemma all_take_run (class : ascii -> bool) (n : nat) (s : string) :
  n <= run class s -> all class (take n s) = true.
Proof.
  revert s. induction n as [|n IH]; intros [|c s]; simpl; try reflexivity.
  destruct (class c) eqn:Hc; [|lia]. intros H. rewrite IH; [reflexivity|lia].
Qed.

Lemma run_app (class : ascii -> bool) (a b : string) :
  all class a = true ->
  match head b with Some c => class c = false | None => True end ->
  run class (a +:+ b) = String.length a.
Proof.
  intros Ha Hb. induction a as [|x a IH].
  - destruct b as [|c b]; [reflexivity|]. simpl in *. now rewrite Hb.
  - rewrite append_cons. simpl in *.
    apply andb_true_iff in Ha as [-> Ha]. now rewrite IH.
Qed.

Lemma head_app (a b : string) :
  head (a +:+ b) = match head a with Some c => Some c | None => head b end.
Proof. destruct a; [now destruct b | reflexivity]. Qed.

Lemma last_cons (x : ascii) (s : string) :
  last (String x s) = match last s with Some c => Some c | None => Some x end.
Proof.
  revert x. induction s as [|y s IH]; intros x; [reflexivity|].
  change (last (String x (String y s))) with (last (String y s)).
  rewrite (IH y). now destruct (last s).
Qed.

Lemma last_app (a b : string) :
  last (a +:+ b) = match last b with Some c => Some c | None => last a end.
Proof.
  induction a as [|x a IH].
  - change ("" +:+ b) with b. now destruct (last b).
  - rewrite append_cons, !last_cons, IH. now destruct (last b).
Qed.

Lemma is_word_not_space (c : ascii) : is_word c = true -> is_space c = false.
Proof.
  destruct c as [[] [] [] [] [] [] [] []]; vm_compute; congruence.
Qed.

End StrFacts.

(** ** [src/signals/refusal_bias.py]: the refusal-bias detector *)

Section RefusalBiasFacts.
Import Str Models RefusalBias.

Lemma REFUSAL_PHRASES_lower :
  Forall (fun phrase => lower phrase = phrase) REFUSAL_PHRASES.
Proof. repeat constructor. Qed.

Lemma REFUSAL_PHRASES_nonempty :
  Forall (fun phrase => phrase <> "") REFUSAL_PHRASES.
Proof. repeat constructor; discriminate. Qed.

Lemma append_empty (a b : string) : a +:+ b = "" -> a = "" /\ b = "".
Proof. destruct a; [auto | discriminate]. Qed.

Lemma not_refusal_empty : ~ refusal "".
Proof.
  intros (phrase & Hin & before & mid & after & Ht & Hmid).
  symmetry in Ht. apply append_empty in Ht as [_ Ht].
  apply append_empty in Ht as [-> _].
  pose proof REFUSAL_PHRASES_nonempty as Hne.
  rewrite Forall_forall in Hne. apply (Hne phrase).
  { now apply list_elem_of_In. }
  destruct phrase; [reflexivity | discriminate].
Qed.

(** [_is_refusal] decides [refusal]. *)
Lemma is_refusal_spec (text : string) :
  _is_refusal (Some text) = true <-> refusal text.
Proof.
  unfold _is_refusal. destruct (str_falsy text) eqn:Hf.
  - apply str_falsy_true in Hf as ->. split; [discriminate|].
    intros H. now apply not_refusal_empty in H.
  - rewrite existsb_exists. unfold refusal, contains_ignoring_case.
    pose proof REFUSAL_PHRASES_lower as Hlow. rewrite Forall_forall in Hlow.
    split; intros (phrase & Hin & H); exists phrase; (split; [exact Hin|]);
      apply contains_lower_spec; auto; apply Hlow; now apply list_elem_of_In.
Qed.

Lemma analyze_flat_map (rows : list PreferenceRow) :
  analyze rows = flat_map analyze_row rows.
Proof.
  unfold analyze.
  enough (forall acc, fold_left (fun results row => results ++ analyze_row row)
                        rows acc = acc ++ flat_map analyze_row rows) as H
    by apply H.
  induction rows as [|row rows IH]; intros acc; simpl.
  - now rewrite app_nil_r.
  - now rewrite IH, app_assoc.
Qed.

(** C8.  A row contributes a finding exactly when chosen contains a
    phrase of the lexicon as a case-insensitive substring and rejected
    contains none; the result list holds the rows' findings in order.
    Absent or empty text is no refusal, so a row whose rejected response is
    a refusal, or whose chosen response is none, is never flagged; and the
    three cases of the specification come out as stated. *)
Theorem refusal_bias_findings :
  (forall row : PreferenceRow,
     (analyze_row row = [flagged_row row] <->
        refusal (chosen row) /\ ~ refusal (rejected row)) /\
     (analyze_row row = [] <->
        ~ (refusal (chosen row) /\ ~ refusal (rejected row)))) /\
  (forall rows : list PreferenceRow,
     analyze rows = flat_map analyze_row rows) /\
  _is_refusal None = false /\ _is_refusal (Some "") = false /\
  ~ refusal "" /\
  (forall row : PreferenceRow,
     refusal (rejected row) \/ ~ refusal (chosen row) ->
     analyze_row row = []) /\
  analyze [Examples.refusal_chosen] = [flagged_row Examples.refusal_chosen] /\
  analyze [Examples.refusal_rejected] = [] /\
  analyze [Examples.no_refusal] = [].
Proof.
  assert (forall row : PreferenceRow,
            analyze_row row =
            if _is_refusal (Some (chosen row))
               && negb (_is_refusal (Some (rejected row)))
            then [flagged_row row] else []) as Hrow by reflexivity.
  assert (forall text, _is_refusal (Some text) = false <-> ~ refusal text)
    as Hnot.
  { intros text. rewrite <- is_refusal_spec.
    destruct (_is_refusal (Some text)); intuition congruence. }
  repeat apply conj; try reflexivity.
  - intros row. rewrite Hrow, <- !is_refusal_spec.
    destruct (_is_refusal (Some (chosen row))),
             (_is_refusal (Some (rejected row))); cbn;
      repeat split; intuition congruence.
  - exact analyze_flat_map.
  - exact not_refusal_empty.
  - intros row H. rewrite Hrow.
    destruct H as [H|H].
    + apply is_refusal_spec in H. rewrite H. now rewrite andb_false_r.
    + apply Hnot in H. now rewrite H.
Qed.

End RefusalBiasFacts.

(** ** [src/signals/semantic_duplicates.py]: the duplicate detector *)

Section SemanticDuplicatesFacts.
Import Models SemanticDuplicates.

Lemma dot_comm (a b : vector) : dot a b = dot b a.
Proof.
  revert b. induction a as [|x a IH]; intros [|y b]; simpl; try reflexivity.
  rewrite (IH b). ring.
Qed.

Lemma dot_self_nonneg (a : vector) : (0 <= dot a a)%R.
Proof.
  induction a as [|x a IH]; simpl; [lra|].
  pose proof (Rle_0_sqr x) as Hx. unfold Rsqr in Hx. lra.
Qed.

Lemma cosine_similarity_sym (a b : vector) :
  _cosine_similarity a b = _cosine_similarity b a.
Proof.
  unfold _cosine_similarity.
  now rewrite (dot_comm a b), (Rmult_comm (norm a) (norm b)).
Qed.

(** A vector that is not all zeros is at distance one from itself. *)
Lemma cosine_similarity_self (a : vector) :
  dot a a <> 0%R -> _cosine_similarity a a = Finite 1.
Proof.
  intros Hnz. unfold _cosine_similarity, norm, np_div.
  rewrite sqrt_sqrt by apply dot_self_nonneg.
  destruct (Req_dec_T (dot a a) 0) as [H0|_]; [contradiction|].
  f_equal. now field.
Qed.

(** The zero vector has no direction: its similarity to itself is nan. *)
Lemma cosine_similarity_zero (a : vector) :
  dot a a = 0%R -> _cosine_similarity a a = NaN.
Proof.
  intros Hz. unfold _cosine_similarity, norm, np_div.
  rewrite Hz, sqrt_0, Rmult_0_l.
  destruct (Req_dec_T 0 0) as [_|H]; [reflexivity | now destruct H].
Qed.

(** The zero vector is no artefact of exact arithmetic: in binary32, the
    format of the encoder's vectors, its dot product with itself is 0, the
    norm is 0, the quotient [0 / (0 * 0)] is nan, and nan is not above 0.95
    (nor above anything). *)
Lemma zero_vector_binary32 :
  let zero := S754_zero false in
  let mul := SFmul 24 128 in
  let d := SFadd 24 128 (mul zero zero) (mul zero zero) in
  let n := SFsqrt 24 128 d in
  SFdiv 24 128 d (mul n n) = S754_nan /\
  Float64.gt S754_nan Float64.f0_95 = false /\
  forall t, Float64.gt S754_nan t = false.
Proof.
  repeat split. intros t. unfold Float64.gt, SFltb.
  now destruct t as [ | | |[] ? ?].
Qed.

Lemma elem_of_scan (n i j : nat) : (i, j) ∈ scan n <-> i < j < n.
Proof.
  unfold scan. rewrite list_elem_of_bind. split.
  - intros (i' & (j' & Hij & Hj)%list_elem_of_bind & Hi).
    apply list_elem_of_singleton in Hij as [= -> ->].
    apply elem_of_seq in Hi, Hj. lia.
  - intros [Hij Hj]. exists i. split; [|apply elem_of_seq; lia].
    apply list_elem_of_bind. exists j.
    split; [now apply list_elem_of_singleton | apply elem_of_seq; lia].
Qed.

Lemma NoDup_scan (n : nat) : NoDup (scan n).
Proof.
  unfold scan. apply NoDup_bind; [| |apply NoDup_seq].
  - intros i1 i2 [i j] _ _ (j1 & H1 & _)%list_elem_of_bind
      (j2 & H2 & _)%list_elem_of_bind.
    apply list_elem_of_singleton in H1, H2. congruence.
  - intros i _. apply NoDup_bind; [| |apply NoDup_seq].
    + intros j1 j2 [i' j] _ _ H1 H2.
      apply list_elem_of_singleton in H1, H2. congruence.
    + intros j _. apply NoDup_singleton.
Qed.

Lemma analyze_pair_ok (thr : R) (rows : list PreferenceRow)
    (E : list vector) (i j : nat) :
  i < length rows -> j < length rows ->
  analyze_pair thr rows E (i, j) =
  Ok (pair_findings thr rows i j (nth i E []) (nth j E [])).
Proof.
  intros Hi Hj. unfold analyze_pair, pair_findings.
  destruct (lookup_lt_is_Some_2 rows i Hi) as [row_i ->].
  destruct (lookup_lt_is_Some_2 rows j Hj) as [row_j ->].
  now destruct (np_gt _ thr).
Qed.

Lemma analyze_from_ok (thr : R) (rows : list PreferenceRow)
    (E : list vector) (pairs : list (nat * nat)) (acc : list finding) :
  (forall i j, (i, j) ∈ pairs -> i < length rows /\ j < length rows) ->
  analyze_from thr rows E pairs acc =
  Ok (acc ++ flat_map
        (fun ij => pair_findings thr rows ij.1 ij.2
                     (nth ij.1 E []) (nth ij.2 E [])) pairs).
Proof.
  revert acc.
  induction pairs as [|[i j] pairs IH]; intros acc Hin; cbn [analyze_from].
  - cbn. now rewrite app_nil_r.
  - destruct (Hin i j ltac:(left)) as [Hi Hj].
    rewrite analyze_pair_ok by assumption. cbn.
    rewrite IH by (intros; apply Hin; now right).
    now rewrite app_assoc.
Qed.

(** With one vector per row, the call returns the findings of the scanned
    pairs in scan order. *)
Lemma analyze_scan (encode : list string -> list vector) (thr : R)
    (rows : list PreferenceRow) :
  let E := encode (map chosen rows) in
  length E = length rows ->
  analyze encode thr rows =
  Ok (flat_map
        (fun ij => pair_findings thr rows ij.1 ij.2
                     (nth ij.1 E []) (nth ij.2 E []))
        (scan (length rows))).
Proof.
  intros E HE. unfold analyze. fold E. rewrite HE.
  rewrite analyze_from_ok; [reflexivity|].
  intros i j Hij%elem_of_scan. lia.
Qed.


End SemanticDuplicatesFacts.

Section SemanticDuplicatesExamples.
Import Models SemanticDuplicates Examples.



End SemanticDuplicatesExamples.

(** ** [src/signals/repetition.py]: the repetition detector *)

Section RepetitionFacts.
Import Str Models Repetition.

Lemma repeats_cons (w gap : string) (gaps : list string) :
  repeats w (gap :: gaps) = (gap +:+ w) +:+ repeats w gaps.
Proof. reflexivity. Qed.

(** The repetitions alone are twice as long as there are gaps. *)
Lemma length_repeats (w : string) (gaps : list string) :
  w <> "" -> Forall gap_ok gaps ->
  2 * length gaps <= String.length (repeats w gaps).
Proof.
  intros Hw. induction 1 as [|gap gaps [Hgap _] _ IH]; [simpl; lia|].
  rewrite repeats_cons, !length_app. simpl length.
  apply length_pos in Hw, Hgap. lia.
Qed.

(** A text with a word repeated [n] times has room for it. *)
Lemma repeated_word_length (n : nat) (text : string) :
  repeated_word n text -> 2 * n - 1 <= String.length (lower text).
Proof.
  intros (w & before & gaps & after & -> & Hw & _ & Hgaps & Hn & _).
  rewrite !length_app.
  pose proof (length_repeats w gaps Hw Hgaps).
  apply length_pos in Hw. lia.
Qed.

Lemma longest_first_Some {A} (attempt : nat -> option A) (n : nat) (r : A) :
  longest_first attempt n = Some r ->
  exists k, 1 <= k <= n /\ attempt k = Some r.
Proof.
  induction n as [|n IH]; simpl; [discriminate|].
  destruct (attempt (S n)) as [r'|] eqn:Hn.
  - intros [= <-]. exists (S n). split; [lia | exact Hn].
  - intros (k & Hk & Hr)%IH. exists k. split; [lia | exact Hr].
Qed.

Lemma longest_first_top {A} (attempt : nat -> option A) (n : nat) (r : A) :
  1 <= n -> attempt n = Some r -> longest_first attempt n = Some r.
Proof. destruct n as [|n]; [lia|]. intros _ H. simpl. now rewrite H. Qed.

Lemma match_repeats_sound (fuel : nat) (w g : string) (count : nat)
    (s g2 : string) (n : nat) :
  match_repeats fuel w g count s = Some (g2, n) ->
  exists gaps after,
    s = repeats w gaps +:+ after /\ Forall gap_ok gaps /\
    2 <= count + length gaps /\
    at_boundary (last w) (head after) = true.
Proof.
  revert g count s g2 n. induction fuel as [|fuel IH]; intros g count s g2 n.
  all: cbn [match_repeats].
  all: assert ((if (2 <=? count) && at_boundary (last w) (head s)
                then Some (g, 0) else None) = Some (g2, n) ->
               exists gaps after,
                 s = repeats w gaps +:+ after /\ Forall gap_ok gaps /\
                 2 <= count + length gaps /\
                 at_boundary (last w) (head after) = true) as Hclose.
  1,3: destruct ((2 <=? count) && at_boundary (last w) (head s)) eqn:E;
       [|discriminate]; intros _;
       apply andb_true_iff in E as [Hc%Nat.leb_le Hb];
       exists [], s; repeat split; [constructor | simpl; lia | exact Hb].
  - exact Hclose.
  - destruct (longest_first _ (run is_space s)) as [r|] eqn:E; [|exact Hclose].
    intros [= ->]. apply longest_first_Some in E as (m & Hm & Hiter).
    destruct (startswith (drop m s) w) eqn:Hsw; [|discriminate].
    destruct (match_repeats fuel w (take m s +:+ w) (S count)
                (drop (String.length w) (drop m s)))
      as [[g2' n']|] eqn:Hrec; [|discriminate].
    injection Hiter as -> _.
    apply IH in Hrec as (gaps & after & Hs & Hgaps & Hcount & Hb).
    apply startswith_spec in Hsw as [rest Hrest].
    rewrite Hrest, drop_app_length in Hs. subst rest.
    exists (take m s :: gaps), after. repeat split.
    + rewrite repeats_cons, !append_assoc, <- Hrest. symmetry.
      apply take_drop.
    + constructor; [|exact Hgaps]. split.
      * intros Hnil. pose proof (run_le_length is_space s).
        assert (String.length (take m s) = m) as Hlen
          by (apply length_take; lia).
        rewrite Hnil in Hlen. simpl in Hlen. lia.
      * apply all_take_run. lia.
    + simpl. lia.
    + exact Hb.
Qed.

Lemma head_all (class : ascii -> bool) (w : string) :
  w <> "" -> all class w = true ->
  exists c, head w = Some c /\ class c = true.
Proof.
  destruct w as [|c w]; [congruence|]. simpl.
  intros _ [Hc _]%andb_true_iff. eauto.
Qed.

Lemma last_all (class : ascii -> bool) (w : string) :
  w <> "" -> all class w = true ->
  exists c, last w = Some c /\ class c = true.
Proof.
  induction w as [|x w IH]; [congruence|]. intros _ H. simpl in H.
  apply andb_true_iff in H as [Hx Hw]. rewrite last_cons.
  destruct w as [|y w]; [simpl; eauto|].
  destruct IH as (c & -> & Hc); [discriminate | exact Hw | eauto].
Qed.

Lemma match_repeats_close (fuel : nat) (w g : string) (count : nat)
    (s : string) :
  2 <= count -> at_boundary (last w) (head s) = true ->
  exists r, match_repeats fuel w g count s = Some r.
Proof.
  intros Hc%Nat.leb_le Hb.
  destruct fuel as [|fuel]; cbn [match_repeats]; rewrite Hc, Hb; cbn [andb].
  - eauto.
  - destruct (longest_first _ _); eauto.
Qed.

Lemma match_repeats_complete (w : string) (gaps : list string) :
  w <> "" -> all is_word w = true -> Forall gap_ok gaps ->
  forall (fuel : nat) (g : string) (count : nat) (after : string),
    is_word_at (head after) = false ->
    2 <= count + length gaps ->
    String.length (repeats w gaps +:+ after) <= fuel ->
    exists r, match_repeats fuel w g count (repeats w gaps +:+ after) = Some r.
Proof.
  intros Hw Hword. induction 1 as [|gap gaps [Hgap Hspace] _ IH];
    intros fuel g count after Hafter Hcount Hfuel.
  - change (repeats w [] +:+ after) with after.
    apply match_repeats_close; [simpl in Hcount; lia|].
    destruct (last_all is_word w Hw Hword) as (c & -> & Hc).
    unfold at_boundary. cbn [is_word_at]. now rewrite Hc, Hafter.
  - rewrite repeats_cons, !append_assoc in *.
    rewrite !length_app in Hfuel.
    pose proof (length_pos gap Hgap) as Hpos.
    destruct fuel as [|fuel]; [lia|]. cbn [match_repeats].
    assert (run is_space (gap +:+ w +:+ repeats w gaps +:+ after)
            = String.length gap) as ->.
    { apply run_app; [exact Hspace|]. rewrite head_app.
      destruct (head_all is_word w Hw Hword) as (c & -> & Hc).
      now apply is_word_not_space. }
    destruct (IH fuel (take (String.length gap)
                         (gap +:+ w +:+ repeats w gaps +:+ after) +:+ w)
                (S count) after Hafter ltac:(simpl in Hcount; lia)
                ltac:(rewrite length_app; lia)) as [[g2 n] Hrec].
    erewrite longest_first_top; [eauto | lia |].
    cbv beta zeta. rewrite !drop_app_length.
    assert (startswith (w +:+ repeats w gaps +:+ after) w = true) as ->
      by (apply startswith_spec; eauto).
    rewrite Hrec. reflexivity.
Qed.

Lemma match_at_complete (b : option ascii) (w : string) (gaps : list string)
    (after : string) :
  is_word_at b = false -> w <> "" -> all is_word w = true ->
  Forall gap_ok gaps -> 2 <= length gaps ->
  is_word_at (head after) = false ->
  exists r, match_at b (w +:+ repeats w gaps +:+ after) = Some r.
Proof.
  intros Hb Hw Hword Hgaps Hlen Hafter. unfold match_at.
  destruct (head_all is_word w Hw Hword) as (c & Hhead & Hc).
  rewrite head_app, Hhead. unfold at_boundary. cbn [is_word_at].
  rewrite Hb, Hc. cbn [xorb].
  assert (run is_word (w +:+ repeats w gaps +:+ after) = String.length w)
    as ->.
  { apply run_app; [exact Hword|].
    destruct Hgaps as [|gap gaps [Hgap Hspace] _]; [simpl in Hlen; lia|].
    rewrite repeats_cons, !append_assoc, head_app.
    destruct (head_all is_space gap Hgap Hspace) as (d & -> & Hd).
    destruct (is_word d) eqn:Hwd; [|reflexivity].
    apply is_word_not_space in Hwd. congruence. }
  destruct (match_repeats_complete w gaps Hw Hword Hgaps
              (String.length (repeats w gaps +:+ after)) "" 0 after Hafter
              ltac:(lia) ltac:(lia)) as [[g2 n] Hrec].
  erewrite longest_first_top; [eauto | now apply length_pos |].
  cbv beta zeta. rewrite drop_app_length, take_app_length, Hrec.
  reflexivity.
Qed.

Lemma match_at_empty (b : option ascii) : match_at b "" = None.
Proof. unfold match_at. now destruct (at_boundary b (head "")). Qed.

Lemma findall_from_hit (pre s : string) :
  forall b, (exists r, match_at (char_before b pre) s = Some r) ->
            findall_from b 0 (pre +:+ s) <> [].
Proof.
  induction pre as [|x pre IH]; intros b [r Hr].
  - change ("" +:+ s) with s. unfold char_before in Hr. simpl in Hr.
    destruct s as [|c s]; [now rewrite match_at_empty in Hr|].
    cbn [findall_from]. rewrite Hr. now destruct r as [[g1 g2] n].
  - rewrite append_cons. cbn [findall_from].
    destruct (match_at b (String x (pre +:+ s))) as [[[g1 g2] n]|];
      [discriminate|].
    apply IH. exists r. unfold char_before in *. rewrite last_cons in Hr.
    now destruct (last pre).
Qed.

Lemma findall_from_sound (t : string) (g1 g2 : string) :
  forall b k, (g1, g2) ∈ findall_from b k t ->
              exists pre s n,
                t = pre +:+ s /\
                match_at (char_before b pre) s = Some (g1, g2, n).
Proof.
  induction t as [|c t IH]; intros b k H; [now apply not_elem_of_nil in H|].
  assert (forall k', (g1, g2) ∈ findall_from (Some c) k' t ->
          exists pre s n,
            String c t = pre +:+ s /\
            match_at (char_before b pre) s = Some (g1, g2, n)) as Hlater.
  { intros k' Hin. apply IH in Hin as (pre & s & n & -> & Hr).
    exists (String c pre), s, n. split; [reflexivity|].
    unfold char_before in *. rewrite last_cons. now destruct (last pre). }
  cbn [findall_from] in H. destruct k as [|k].
  - destruct (match_at b (String c t)) as [[[g1' g2'] n]|] eqn:Hm.
    + apply elem_of_cons in H as [[= <- <-]|H].
      * exists "", (String c t), n. eauto.
      * now apply (Hlater (n - 1)).
    + now apply (Hlater 0).
  - now apply (Hlater k).
Qed.

(** What a match says about the text: group 1 is a word that stands in
    it three times in a row or more. *)
Lemma match_at_sound (b : option ascii) (s g1 g2 : string) (n : nat) :
  match_at b s = Some (g1, g2, n) ->
  exists gaps after,
    s = g1 +:+ repeats g1 gaps +:+ after /\
    g1 <> "" /\ all is_word g1 = true /\ Forall gap_ok gaps /\
    2 <= length gaps /\
    is_word_at b = false /\ is_word_at (head after) = false.
Proof.
  unfold match_at. destruct (at_boundary b (head s)) eqn:Hb; [|discriminate].
  intros (k & Hk & Hm)%longest_first_Some.
  destruct (match_repeats _ (take k s) "" 0 (drop k s))
    as [[g2' n']|] eqn:Hrec; [|discriminate].
  injection Hm as <- _ _.
  apply match_repeats_sound in Hrec as (gaps & after & Hs & Hgaps & Hn & Hb').
  pose proof (run_le_length is_word s) as Hrun.
  assert (take k s <> "") as Hw.
  { intros Hnil. pose proof (length_take k s ltac:(lia)) as Hlen.
    rewrite Hnil in Hlen. simpl in Hlen. lia. }
  pose proof (all_take_run is_word k s ltac:(lia)) as Hword.
  exists gaps, after.
  destruct (last_all is_word _ Hw Hword) as (c & Hlast & Hc).
  destruct (head_all is_word _ Hw Hword) as (d & Hhead & Hd).
  assert (head s = Some d) as Hheads.
  { rewrite <- (take_drop k s), head_app. now rewrite Hhead. }
  unfold at_boundary in Hb, Hb'. rewrite Hlast in Hb'. rewrite Hheads in Hb.
  cbn [is_word_at] in Hb, Hb'. rewrite Hc in Hb'. rewrite Hd in Hb.
  repeat split; try assumption.
  - now rewrite <- Hs, take_drop.
  - now destruct (is_word_at b).
  - now destruct (is_word_at (head after)).
Qed.

(** Every word [re.findall] returns stands in the text three times in a
    row or more. *)
Lemma findall_sound (t g1 g2 : string) :
  (g1, g2) ∈ findall t -> repeats_in 3 g1 t.
Proof.
  intros (pre & s & n & -> & Hm)%findall_from_sound.
  apply match_at_sound in Hm
    as (gaps & after & -> & Hw & Hword & Hgaps & Hn & Hb & Ha).
  exists pre, gaps, after. repeat split; try assumption; [lia|].
  unfold char_before in Hb. now destruct (last pre).
Qed.

(** [re.findall] returns something as soon as some word does. *)
Lemma findall_complete (t w : string) : repeats_in 3 w t -> findall t <> [].
Proof.
  intros (before & gaps & after & -> & Hw & Hword & Hgaps & Hn & Hb & Ha).
  apply findall_from_hit. unfold char_before.
  apply match_at_complete; try assumption; [|lia].
  now destruct (last before).
Qed.

Lemma longest_first_ext {A} (f g : nat -> option A) (n : nat) :
  (forall k, 1 <= k <= n -> f k = g k) ->
  longest_first f n = longest_first g n.
Proof.
  induction n as [|n IH]; intros H; [reflexivity|]. simpl.
  rewrite (H (S n)) by lia. rewrite IH; [reflexivity|].
  intros k Hk. apply H. lia.
Qed.

(** Fuel beyond the length of the text changes nothing. *)
Lemma match_repeats_fuel (w : string) (f1 f2 : nat) :
  forall (g : string) (count : nat) (s : string),
    String.length s <= f1 -> String.length s <= f2 ->
    match_repeats f1 w g count s = match_repeats f2 w g count s.
Proof.
  revert f2. induction f1 as [|f1 IH]; intros [|f2] g count s H1 H2.
  - reflexivity.
  - destruct s; [reflexivity | simpl in H1; lia].
  - destruct s; [reflexivity | simpl in H2; lia].
  - cbn [match_repeats].
    erewrite longest_first_ext; [reflexivity|].
    intros k Hk. cbv beta zeta.
    destruct (startswith (drop k s) w); [|reflexivity].
    rewrite (IH f2); [reflexivity| |];
      rewrite !length_drop; lia.
Qed.

Lemma repetition_analyze_flat_map (self : RepetitionSignal)
    (rows : list PreferenceRow) :
  analyze self rows =
  flat_map (fun row => analyze_field self row "chosen"
                         ++ analyze_field self row "rejected") rows.
Proof.
  unfold analyze.
  enough (forall acc,
            fold_left
              (fun signals row =>
                 fold_left
                   (fun signals field =>
                      signals ++ analyze_field self row field)
                   ["chosen"; "rejected"] signals) rows acc =
            acc ++ flat_map (fun row => analyze_field self row "chosen"
                                          ++ analyze_field self row "rejected")
                     rows) as H by apply H.
  induction rows as [|row rows IH]; intros acc; simpl.
  - now rewrite app_nil_r.
  - now rewrite IH, !app_assoc.
Qed.


(** C5.  The detector never reads [min_repeats]: two detectors built with
    different minima return the same findings.  With [min_repeats = 2] the
    text "go go" repeats a word twice and yields no finding; with
    [min_repeats = 4] the text "a a a" repeats no word four times and
    yields a finding. *)
Theorem repetition_ignores_min_repeats :
  (forall (self other : RepetitionSignal) (rows : list PreferenceRow),
     analyze self rows = analyze other rows) /\
  (repeated_word 2 "go go" /\
   analyze {| min_repeats := 2 |} [Examples.row_saying "go go"] = []) /\
  (~ repeated_word 4 "a a a" /\
   analyze {| min_repeats := 4 |} [Examples.row_saying "a a a"] =
   [ {| row_id := "r0"; field := "chosen"; matched_pattern := ["a"];
        flagged := true |} ]).
Proof.
  split; [reflexivity|]. split; split.
  - exists "go", "", [" "], "". cbn. repeat split; try reflexivity.
    + discriminate.
    + repeat constructor. discriminate.
  - vm_compute. reflexivity.
  - intros H%repeated_word_length. cbn in H. lia.
  - vm_compute. reflexivity.
Qed.

End RepetitionFacts.

(** ** Strings: splitting and stripping *)

Section StripFacts.
Import Str.

Lemma startswith_empty_l (sep : string) :
  startswith "" sep = true <-> sep = "".
Proof. destruct sep; simpl; split; congruence. Qed.

Lemma rfind_None (s sep : string) :
  rfind s sep = None <-> contains s sep = false.
Proof.
  induction s as [|c s IH].
  - cbn [rfind contains]. rewrite orb_false_r.
    destruct (startswith "" sep); split; congruence.
  - cbn [rfind contains]. rewrite orb_false_iff, <- IH.
    destruct (rfind s sep) as [i|].
    + split; [discriminate | intros [_ [=]]].
    + destruct (startswith (String c s) sep); intuition congruence.
Qed.

Lemma drop_drop (n m : nat) (s : string) :
  drop n (drop m s) = drop (m + n) s.
Proof.
  revert s. induction m as [|m IH]; intros s; [reflexivity|].
  destruct s as [|c s]; [now destruct n|]. simpl. apply IH.
Qed.

Lemma contains_drop (n : nat) (s sep : string) :
  contains (drop n s) sep = true -> sep <> "" -> contains s sep = true.
Proof.
  intros H Hsep. revert s H. induction n as [|n IH]; intros s H.
  - now destruct s.
  - destruct s as [|c s]; [exact H|].
    cbn [drop] in H. cbn [contains]. rewrite (IH s H). apply orb_true_r.
Qed.

(** Where [rfind] points, [sep] starts, and it starts nowhere later. *)
Lemma rfind_Some (s sep : string) (i : nat) :
  rfind s sep = Some i -> sep <> "" ->
  startswith (drop i s) sep = true /\
  contains (drop (S i) s) sep = false.
Proof.
  intros H Hsep. revert i H. induction s as [|c s IH]; intros i H.
  - cbn [rfind] in H. destruct (startswith "" sep) eqn:Hs; [|discriminate].
    now apply startswith_empty_l in Hs.
  - cbn [rfind] in H. destruct (rfind s sep) as [j|] eqn:Hj.
    + injection H as <-. cbn [drop]. now apply IH.
    + destruct (startswith (String c s) sep) eqn:Hs; [|discriminate].
      injection H as <-. cbn [drop]. split; [exact Hs|].
      destruct s; now apply rfind_None.
Qed.

Lemma rfind_app (a t sep : string) (j : nat) :
  rfind t sep = Some j -> rfind (a +:+ t) sep = Some (String.length a + j).
Proof.
  intros H. induction a as [|c a IH]; [exact H|].
  rewrite append_cons. cbn [rfind]. now rewrite IH.
Qed.

(** The two parts [rsplit] cuts around the last [sep]. *)
Lemma rsplit1_cases (s sep : string) :
  sep <> "" ->
  (contains s sep = false /\ rsplit1 s sep = [s]) \/
  (exists before after,
     contains s sep = true /\ rsplit1 s sep = [before; after] /\
     s = before +:+ sep +:+ after /\ contains after sep = false).
Proof.
  intros Hsep. unfold rsplit1. destruct (rfind s sep) as [i|] eqn:Hi.
  - right. destruct (rfind_Some s sep i Hi Hsep) as [Hstart Hlast].
    exists (take i s), (drop (i + String.length sep) s).
    apply startswith_spec in Hstart as [rest Hrest].
    assert (drop (i + String.length sep) s = rest) as ->.
    { rewrite <- drop_drop, Hrest. apply drop_app_length. }
    repeat split.
    + destruct (contains s sep) eqn:Hc; [reflexivity|].
      apply rfind_None in Hc. congruence.
    + rewrite <- Hrest. symmetry. apply take_drop.
    + destruct (contains rest sep) eqn:Hc; [|reflexivity].
      destruct sep as [|x sep]; [done|].
      assert (rest = drop (String.length sep) (drop (S i) s)) as Hr.
      { rewrite drop_drop. cbn [Nat.add].
        replace (S (i + String.length sep))
          with (i + String.length (String x sep)) by (cbn; lia).
        rewrite <- drop_drop, Hrest. symmetry. apply drop_app_length. }
      rewrite Hr in Hc. apply contains_drop in Hc; [congruence|discriminate].
  - left. split; [now apply rfind_None | reflexivity].
Qed.

Lemma length_lstrip (s : string) :
  String.length (lstrip s) <= String.length s.
Proof.
  induction s as [|c s IH]; simpl; [lia|]. destruct (is_space c); simpl; lia.
Qed.

Lemma length_rstrip (s : string) :
  String.length (rstrip s) <= String.length s.
Proof.
  induction s as [|c s IH]; simpl; [lia|].
  destruct (rstrip s) as [|d t]; [destruct (is_space c)|]; simpl in *; lia.
Qed.

(** [lstrip] changes nothing exactly when there is no white space at the
    start. *)
Lemma lstrip_fixed (s : string) :
  lstrip s = s <->
  match head s with Some c => is_space c = false | None => True end.
Proof.
  destruct s as [|c s]; simpl; [tauto|].
  destruct (is_space c) eqn:Hc; split; try congruence.
  intros H. pose proof (length_lstrip s) as Hl. rewrite H in Hl.
  simpl in Hl. lia.
Qed.

Lemma lstrip_idem (s : string) : lstrip (lstrip s) = lstrip s.
Proof.
  induction s as [|c s IH]; [reflexivity|]. simpl.
  destruct (is_space c) eqn:Hc; [exact IH|]. simpl. now rewrite Hc.
Qed.

Lemma rstrip_idem (s : string) : rstrip (rstrip s) = rstrip s.
Proof.
  induction s as [|c s IH]; [reflexivity|]. cbn [rstrip].
  destruct (rstrip s) as [|d t] eqn:Hs.
  - destruct (is_space c) eqn:Hc; [reflexivity|]. cbn. now rewrite Hc.
  - change (rstrip (String c (String d t)))
      with (match rstrip (String d t) with
            | "" => if is_space c then "" else String c ""
            | String d' t' => String c (String d' t')
            end).
    now rewrite IH.
Qed.

Lemma head_rstrip (s : string) (d : ascii) (t : string) :
  rstrip s = String d t -> head s = Some d.
Proof.
  destruct s as [|c s]; [discriminate|]. cbn [rstrip head].
  destruct (rstrip s); [destruct (is_space c)|]; congruence.
Qed.

(** A stripped text has no white space at either end: stripping it again
    changes nothing. *)
Lemma strip_idem (s : string) : strip (strip s) = strip s.
Proof.
  unfold strip.
  assert (lstrip (rstrip (lstrip s)) = rstrip (lstrip s)) as ->;
    [|apply rstrip_idem].
  apply lstrip_fixed.
  destruct (rstrip (lstrip s)) as [|d t] eqn:Hr; [exact I|]. cbn [head].
  apply head_rstrip in Hr.
  pose proof (proj1 (lstrip_fixed (lstrip s)) (lstrip_idem s)) as Hl.
  now rewrite Hr in Hl.
Qed.

(** A text that [strip] leaves alone is left alone by both halves. *)
Lemma strip_fixed (s : string) :
  strip s = s -> lstrip s = s /\ rstrip s = s.
Proof.
  unfold strip. intros H.
  assert (lstrip s = s) as Hl; [|now rewrite Hl in H].
  apply lstrip_fixed. destruct s as [|c s]; [exact I|]. cbn [head].
  destruct (is_space c) eqn:Hc; [|reflexivity].
  pose proof (length_rstrip (lstrip (String c s))) as H1.
  pose proof (length_lstrip s) as H2.
  rewrite H in H1. cbn [lstrip] in H1. rewrite Hc in H1. simpl in H1. lia.
Qed.

Lemma rstrip_app (a p : string) :
  rstrip p = p -> p <> "" -> rstrip (a +:+ p) = a +:+ p.
Proof.
  intros Hp Hne. induction a as [|c a IH]; [exact Hp|].
  rewrite append_cons. cbn [rstrip]. rewrite IH.
  destruct (a +:+ p) as [|d t] eqn:Hap; [|reflexivity].
  now apply append_empty in Hap as [_ ->].
Qed.

Lemma removeprefix_app (prefix s : string) :
  removeprefix (prefix +:+ s) prefix = s.
Proof.
  unfold removeprefix.
  assert (startswith (prefix +:+ s) prefix = true) as ->
    by (apply startswith_spec; eauto).
  apply drop_app_length.
Qed.

End StripFacts.

(** ** [src/loaders/hh_rlhf.py]: the loader *)

Section LoaderFacts.
Import Str Models HHRLHF.

Lemma ASSISTANT_nonempty : ASSISTANT <> "".
Proof. discriminate. Qed.

(** [parse_conversation] raises ValueError exactly when the conversation
    holds no marker [\n\nAssistant: ].  Otherwise it cuts at the last
    marker: the response is all the text after it, untouched, and holds no
    marker; the prompt is the text before it, stripped, without one leading
    [Human: ], and stripped again, so it has no white space at either
    end. *)
Theorem parse_conversation_split (conversation : string) :
  (contains conversation ASSISTANT = false ->
   parse_conversation conversation =
   Raise (ValueError "Invalid format, expected length of 2, got 1")) /\
  (contains conversation ASSISTANT = true ->
   exists before prompt response,
     parse_conversation conversation = Ok (prompt, response) /\
     conversation = before +:+ ASSISTANT +:+ response /\
     contains response ASSISTANT = false /\
     prompt = strip (removeprefix (strip before) HUMAN) /\
     strip prompt = prompt).
Proof.
  unfold parse_conversation.
  destruct (rsplit1_cases conversation ASSISTANT ASSISTANT_nonempty)
    as [[Hc ->]|(before & after & Hc & -> & Hs & Ha)]; rewrite Hc.
  - split; [reflexivity | discriminate].
  - split; [discriminate|]. intros _.
    exists before, (strip (removeprefix (strip before) HUMAN)), after.
    repeat split; try assumption. apply strip_idem.
Qed.

Lemma rfind_marker (response : string) :
  contains response ASSISTANT = false ->
  rfind (ASSISTANT +:+ response) ASSISTANT = Some 0.
Proof.
  intros H. apply rfind_None in H.
  change ASSISTANT
    with (String "010" (String "010" "Assistant: ")) in *.
  rewrite !append_cons. change ("" +:+ response) with response.
  cbn [rfind]. rewrite H. cbn. reflexivity.
Qed.

(** A conversation in the dataset's format reads back: from
    [\n\nHuman: prompt\n\nAssistant: response], [parse_conversation] returns
    the prompt and the response, when the prompt is not empty and has no
    white space at either end, and the response holds no marker.  The
    prompt may hold markers: the turns before the last one stay in it. *)
Theorem parse_conversation_round_trip (prompt response : string) :
  prompt <> "" -> strip prompt = prompt ->
  contains response ASSISTANT = false ->
  parse_conversation
    (newline +:+ newline +:+ HUMAN +:+ prompt +:+ ASSISTANT +:+ response)
  = Ok (prompt, response).
Proof.
  intros Hne Hstrip Hresp.
  destruct (strip_fixed prompt Hstrip) as [Hl Hr].
  unfold parse_conversation, rsplit1.
  assert (newline +:+ newline +:+ HUMAN +:+ prompt +:+ ASSISTANT +:+ response
          = (newline +:+ newline +:+ HUMAN +:+ prompt)
            +:+ ASSISTANT +:+ response) as ->
    by now rewrite !append_assoc.
  set (before := newline +:+ newline +:+ HUMAN +:+ prompt).
  rewrite (rfind_app before _ _ 0 (rfind_marker response Hresp)).
  rewrite Nat.add_0_r, take_app_length.
  rewrite <- append_assoc, <- length_app, drop_app_length.
  assert (strip before = HUMAN +:+ prompt) as ->.
  { unfold strip, before.
    assert (lstrip (newline +:+ newline +:+ HUMAN +:+ prompt)
            = HUMAN +:+ prompt) as -> by reflexivity.
    now apply rstrip_app. }
  now rewrite removeprefix_app, Hstrip.
Qed.

End LoaderFacts.

Section LoadFacts.
Import Str Models HHRLHF.

Lemma row_id_of_inj (split : string) (i j : nat) :
  row_id_of split i = row_id_of split j -> i = j.
Proof.
  unfold row_id_of. intros H.
  do 3 apply String.app_inj in H. now apply pretty_nat_inj in H.
Qed.

(** What one example becomes. *)
Lemma load_example_Ok (split : string) (idx : nat) (ex : example)
    (row : PreferenceRow) :
  load_example split idx ex = Ok row ->
  Models.row_id row = row_id_of split idx /\
  parse_conversation (ex_chosen ex) = Ok (prompt row, chosen row) /\
  (exists rejected_prompt,
     parse_conversation (ex_rejected ex) = Ok (rejected_prompt, rejected row))
  /\ prompt row <> "" /\ chosen row <> "" /\ rejected row <> "".
Proof.
  unfold load_example.
  destruct (parse_conversation (ex_chosen ex)) as [[cp cr]|e];
    cbn [mbind result_bind]; [|discriminate].
  destruct (parse_conversation (ex_rejected ex)) as [[rp rr]|e];
    cbn [mbind result_bind]; [|discriminate].
  unfold Models.new, __post_init__. cbn [prompt chosen rejected Models.row_id].
  destruct (str_falsy (row_id_of split idx)); [discriminate|].
  destruct (str_falsy cp) eqn:Hp; [discriminate|].
  destruct (str_falsy cr) eqn:Hc; [discriminate|].
  destruct (str_falsy rr) eqn:Hr; [discriminate|].
  cbn [mbind result_bind]. intros [= <-]. cbn.
  apply str_falsy_false in Hp, Hc, Hr. eauto 10.
Qed.

Lemma load_from_Ok (split : string) (dataset : list example) :
  forall (idx : nat) (acc rows : list PreferenceRow),
    load_from split idx dataset acc = Ok rows ->
    exists new,
      rows = acc ++ new /\ length new = length dataset /\
      forall k ex, dataset !! k = Some ex ->
        exists row, new !! k = Some row /\
                    load_example split (idx + k) ex = Ok row.
Proof.
  induction dataset as [|ex0 dataset IH]; intros idx acc rows; cbn [load_from].
  - intros [= <-]. exists []. rewrite app_nil_r.
    repeat split. intros k ex Hk. now rewrite lookup_nil in Hk.
  - destruct (load_example split idx ex0) as [row0|e] eqn:H0;
      cbn [mbind result_bind]; [|discriminate].
    intros (new & -> & Hlen & Hnew)%IH. exists (row0 :: new).
    rewrite <- app_assoc. repeat split; [cbn; lia|].
    intros [|k] ex Hk; cbn in Hk.
    + injection Hk as <-. exists row0. now rewrite Nat.add_0_r.
    + destruct (Hnew k ex Hk) as (row & Hrow & Hload). exists row.
      split; [exact Hrow|]. now rewrite Nat.add_succ_r.
Qed.

Lemma load_from_Raise (split : string) (dataset : list example) :
  forall (idx : nat) (acc : list PreferenceRow) (e : exn),
    load_from split idx dataset acc = Raise e ->
    exists k ex,
      dataset !! k = Some ex /\ load_example split (idx + k) ex = Raise e /\
      forall j ex', j < k -> dataset !! j = Some ex' ->
        exists row, load_example split (idx + j) ex' = Ok row.
Proof.
  induction dataset as [|ex0 dataset IH]; intros idx acc e; cbn [load_from];
    [discriminate|].
  destruct (load_example split idx ex0) as [row0|e0] eqn:H0;
    cbn [mbind result_bind].
  - intros (k & ex & Hk & Hload & Hbefore)%IH. exists (S k), ex.
    rewrite Nat.add_succ_r. repeat split; [exact Hk | exact Hload |].
    intros [|j] ex' Hj Hex'; cbn in Hex'.
    + injection Hex' as <-. exists row0. now rewrite Nat.add_0_r.
    + rewrite Nat.add_succ_r. apply (Hbefore j ex'); [lia | exact Hex'].
  - intros [= <-]. exists 0, ex0. rewrite Nat.add_0_r.
    repeat split; [exact H0|]. intros j ex' Hj. lia.
Qed.

Section LoadRows.

Variable load_dataset : string -> string -> result (list example).
Variable select : list example -> list nat -> result (list example).

Lemma load_of_selected (self : HHRLHFLoader) (dataset : list example) :
  selected load_dataset select self dataset ->
  load load_dataset select self = load_from (split self) 0 dataset [].
Proof.
  unfold load, selected. intros (full & -> & H). cbn [mbind result_bind].
  destruct (limit self) as [n|]; [destruct (n =? 0)%Z|].
  - now subst.
  - now rewrite H.
  - now subst.
Qed.

Lemma load_Ok_selected (self : HHRLHFLoader) (rows : list PreferenceRow) :
  load load_dataset select self = Ok rows ->
  exists dataset, selected load_dataset select self dataset.
Proof.
  unfold load, selected.
  destruct (load_dataset _ _) as [full|e]; cbn [mbind result_bind];
    [|discriminate].
  destruct (limit self) as [n|]; [destruct (n =? 0)%Z|].
  - intros _. exists full, full. auto.
  - destruct (select full (range n)) as [dataset|e] eqn:Hs;
      cbn [mbind result_bind]; [|discriminate].
    intros _. exists dataset, full. auto.
  - intros _. exists full, full. auto.
Qed.

(** What [load] returns.  When it returns, there is one row per example
    it went through, in order; the row at index [idx] has the id
    [hh-rlhf-{split}-{idx}], the prompt and the response parsed from the
    example's chosen conversation and the response parsed from its rejected
    conversation, all three non-empty; the ids are pairwise distinct.  It
    raises exactly when some example fails, with the error of the first
    one that does, and returns no rows then.  A limit of 0 is no limit: the
    whole split is loaded. *)
Theorem load_rows (self : HHRLHFLoader) :
  (forall rows : list PreferenceRow,
     load load_dataset select self = Ok rows ->
     exists dataset,
       selected load_dataset select self dataset /\
       length rows = length dataset /\
       NoDup (map Models.row_id rows) /\
       forall idx ex, dataset !! idx = Some ex ->
         exists row rejected_prompt,
           rows !! idx = Some row /\
           Models.row_id row = row_id_of (split self) idx /\
           parse_conversation (ex_chosen ex) = Ok (prompt row, chosen row) /\
           parse_conversation (ex_rejected ex)
           = Ok (rejected_prompt, rejected row) /\
           prompt row <> "" /\ chosen row <> "" /\ rejected row <> "") /\
  (forall dataset : list example,
     selected load_dataset select self dataset ->
     forall e, load load_dataset select self = Raise e <->
       exists idx ex,
         dataset !! idx = Some ex /\
         load_example (split self) idx ex = Raise e /\
         forall j ex', j < idx -> dataset !! j = Some ex' ->
           exists row, load_example (split self) j ex' = Ok row) /\
  load load_dataset select {| split := split self; limit := Some 0%Z |}
  = load load_dataset select {| split := split self; limit := None |}.
Proof.
  split; [|split; [|reflexivity]].
  - intros rows Hload.
    destruct (load_Ok_selected self rows Hload) as [dataset Hsel].
    exists dataset. split; [exact Hsel|].
    rewrite (load_of_selected self dataset Hsel) in Hload.
    apply load_from_Ok in Hload as (new & -> & Hlen & Hnew).
    cbn [app]. split; [exact Hlen|]. split.
    + apply NoDup_alt. intros i j x Hi Hj.
      rewrite list_lookup_fmap in Hi, Hj.
      destruct (new !! i) as [ri|] eqn:Hri; [|discriminate].
      destruct (new !! j) as [rj|] eqn:Hrj; [|discriminate].
      cbn in Hi, Hj.
      assert (forall k r, new !! k = Some r ->
                Models.row_id r = row_id_of (split self) k) as Hid.
      { intros k r Hk.
        destruct (lookup_lt_is_Some_2 dataset k) as [ex Hex].
        { rewrite <- Hlen. eapply lookup_lt_Some, Hk. }
        destruct (Hnew k ex Hex) as (row & Hrow & Hl).
        rewrite Hk in Hrow. injection Hrow as <-.
        now apply load_example_Ok in Hl as [Hl _]. }
      apply (row_id_of_inj (split self)).
      rewrite <- (Hid i ri Hri), <- (Hid j rj Hrj). congruence.
    + intros idx ex Hex. destruct (Hnew idx ex Hex) as (row & Hrow & Hl).
      apply load_example_Ok in Hl as (Hid & Hc & [rp Hr] & Hne).
      exists row, rp. auto.
  - intros dataset Hsel e. rewrite (load_of_selected self dataset Hsel).
    split.
    + intros H. apply load_from_Raise in H. exact H.
    + intros (idx & ex & Hex & Hl & Hbefore).
      destruct (load_from (split self) 0 dataset []) as [rows|e'] eqn:Hfrom.
      * apply load_from_Ok in Hfrom as (new & _ & _ & Hnew).
        destruct (Hnew idx ex Hex) as (row & _ & Hok). cbn in Hok. congruence.
      * apply load_from_Raise in Hfrom
          as (k & ex' & Hex' & Hl' & Hbefore').
        cbn in Hl'.
        destruct (Nat.lt_trichotomy k idx) as [Hlt|[->|Hgt]].
        -- destruct (Hbefore k ex' Hlt Hex') as [row Hrow]. congruence.
        -- congruence.
        -- destruct (Hbefore' idx ex Hgt Hex) as [row Hrow]. cbn in Hrow.
           congruence.
Qed.

End LoadRows.

End LoadFacts.

(** ** [src/signals/unsafe_prompt.py]: the unsafe-prompt detector *)

Section UnsafePromptFacts.
Import Str Models UnsafePrompt.

Lemma UNSAFE_KEYWORDS_lower :
  Forall (fun keyword => lower keyword = keyword) UNSAFE_KEYWORDS.
Proof. repeat constructor. Qed.

(** [find] returns the first element that passes the test. *)
Lemma find_first {A} (p : A -> bool) (l : list A) (x : A) :
  find p l = Some x <->
  exists before after,
    l = before ++ x :: after /\ p x = true /\
    forall y, In y before -> p y = false.
Proof.
  induction l as [|a l IH]; simpl.
  - split; [discriminate|]. intros (before & after & H & _).
    now destruct before.
  - destruct (p a) eqn:Ha.
    + split.
      * intros [= <-]. exists [], l. repeat split; [assumption|intros y []].
      * intros (before & after & H & Hx & Hb). destruct before as [|b before].
        -- now injection H as -> _.
        -- injection H as <- _. rewrite (Hb a) in Ha; [discriminate|now left].
    + rewrite IH. split.
      * intros (before & after & -> & Hx & Hb). exists (a :: before), after.
        repeat split; [assumption|]. intros y [<-|Hy]; auto.
      * intros (before & after & H & Hx & Hb). destruct before as [|b before].
        -- injection H as -> _. congruence.
        -- injection H as _ ->. exists before, after.
           repeat split; [assumption|]. intros y Hy. apply Hb. now right.
Qed.

Lemma find_nothing {A} (p : A -> bool) (l : list A) :
  find p l = None <-> forall y, In y l -> p y = false.
Proof.
  induction l as [|a l IH]; simpl; [tauto|].
  destruct (p a) eqn:Ha.
  - split; [discriminate|]. intros H. rewrite (H a) in Ha; [discriminate|auto].
  - rewrite IH. split; [intros H y [<-|Hy]; auto | auto].
Qed.

Lemma keyword_test (text keyword : string) :
  In keyword UNSAFE_KEYWORDS ->
  contains (lower text) keyword = true <-> mentions text keyword.
Proof.
  intros Hin. apply contains_lower_spec.
  pose proof UNSAFE_KEYWORDS_lower as H. rewrite Forall_forall in H.
  apply H. now apply list_elem_of_In.
Qed.

Lemma keyword_test_false (text keyword : string) :
  In keyword UNSAFE_KEYWORDS ->
  contains (lower text) keyword = false <-> ~ mentions text keyword.
Proof.
  intros Hin. rewrite <- keyword_test by assumption.
  destruct (contains (lower text) keyword); intuition congruence.
Qed.

Lemma find_unsafe_keyword_first (text keyword : string) :
  _find_unsafe_keyword text = Some keyword <-> first_mentioned text keyword.
Proof.
  unfold _find_unsafe_keyword, first_mentioned. rewrite find_first.
  split; intros (before & after & Hl & Hk & Hb); exists before, after;
    (split; [exact Hl|]);
    assert (In keyword UNSAFE_KEYWORDS)
      by (rewrite Hl; apply in_or_app; right; now left);
    assert (forall k, In k before -> In k UNSAFE_KEYWORDS)
      by (intros k Hin; rewrite Hl; apply in_or_app; now left).
  - split; [now apply keyword_test|].
    intros k Hin. apply keyword_test_false; auto.
  - split; [now apply keyword_test|].
    intros k Hin. apply keyword_test_false; auto.
Qed.

Lemma find_unsafe_keyword_none (text : string) :
  _find_unsafe_keyword text = None <->
  forall keyword, In keyword UNSAFE_KEYWORDS -> ~ mentions text keyword.
Proof.
  unfold _find_unsafe_keyword. rewrite find_nothing.
  split; intros H k Hin; apply keyword_test_false; auto.
Qed.

Lemma unsafe_analyze_flat_map (rows : list PreferenceRow) :
  analyze rows = flat_map analyze_row rows.
Proof.
  unfold analyze.
  enough (forall acc,
            fold_left (fun results row => results ++ analyze_row row) rows acc
            = acc ++ flat_map analyze_row rows) as H by apply H.
  induction rows as [|row rows IH]; intros acc; simpl.
  - now rewrite app_nil_r.
  - now rewrite IH, app_assoc.
Qed.

(** A row contributes a finding exactly when its prompt holds one of the
    keywords, letter case aside; the finding names the row and the first
    keyword of the list, in list order, that the prompt holds (not the one
    that comes first in the prompt).  The responses play no part.  The
    result list holds the rows' findings in order. *)
Theorem unsafe_prompt_findings :
  (forall text : string,
     _find_unsafe_keyword text = None <->
     forall keyword, In keyword UNSAFE_KEYWORDS -> ~ mentions text keyword) /\
  (forall text keyword : string,
     _find_unsafe_keyword text = Some keyword <->
     first_mentioned text keyword) /\
  (forall row : PreferenceRow,
     analyze_row row = [] <->
     forall keyword,
       In keyword UNSAFE_KEYWORDS -> ~ mentions (prompt row) keyword) /\
  (forall (row : PreferenceRow) (f : finding),
     In f (analyze_row row) <->
     exists keyword,
       first_mentioned (prompt row) keyword /\
       f = {| row_id := Models.row_id row; matched_keyword := keyword;
              flagged := true |}) /\
  (forall row : PreferenceRow, length (analyze_row row) <= 1) /\
  (forall (row : PreferenceRow) (c r : string),
     analyze_row {| prompt := prompt row; chosen := c; rejected := r;
                    Models.row_id := Models.row_id row |}
     = analyze_row row) /\
  (forall rows : list PreferenceRow,
     analyze rows = flat_map analyze_row rows) /\
  _find_unsafe_keyword "First how to STEAL a car, then How To Kill time"
  = Some "how to kill".
Proof.
  repeat apply conj.
  - exact find_unsafe_keyword_none.
  - exact find_unsafe_keyword_first.
  - intros row. rewrite <- find_unsafe_keyword_none. unfold analyze_row.
    destruct (_find_unsafe_keyword (prompt row)); split; congruence.
  - intros row f. unfold analyze_row.
    destruct (_find_unsafe_keyword (prompt row)) as [k|] eqn:Hk.
    + apply find_unsafe_keyword_first in Hk. split.
      * intros [<-|[]]. eauto.
      * intros (k' & Hk' & ->). apply find_unsafe_keyword_first in Hk, Hk'.
        left. congruence.
    + split; [intros []|]. intros (k' & Hk' & _).
      apply find_unsafe_keyword_first in Hk'. congruence.
  - intros row. unfold analyze_row.
    destruct (_find_unsafe_keyword (prompt row)); simpl; lia.
  - reflexivity.
  - exact unsafe_analyze_flat_map.
  - reflexivity.
Qed.

End UnsafePromptFacts.

(** ** [src/signals/readability.py]: the readability detector *)

Section ReadabilityFacts.
Import Float64 Models Readability.

(** The sign given to the rounding only sets the sign of the result. *)
Lemma SFabs_binary_round (s : bool) (m : positive) (e : Z) :
  SFabs (binary_round prec emax s m e) =
  SFabs (binary_round prec emax false m e).
Proof.
  unfold binary_round. destruct (shl_align m e _) as [mz ez].
  unfold binary_round_aux.
  destruct (shr_fexp prec emax (Z.pos mz) ez loc_Exact) as [mrs' e'].
  destruct (shr_fexp prec emax _ e' loc_Exact) as [mrs'' e''].
  destruct (shr_m mrs''); try reflexivity.
  now destruct (e'' <=? emax - prec)%Z.
Qed.

Lemma SFabs_binary_normalize_opp (z e : Z) :
  SFabs (binary_normalize prec emax (- z) e false) =
  SFabs (binary_normalize prec emax z e false).
Proof.
  destruct z as [|m|m]; simpl; [reflexivity| |];
    now rewrite (SFabs_binary_round true).
Qed.

(** [abs(a - b)] is [abs(b - a)], bit for bit. *)
Lemma abs_sub_comm (a b : float) : abs (sub a b) = abs (sub b a).
Proof.
  unfold abs, sub.
  destruct a as [sa|sa| |sa ma ea], b as [sb|sb| |sb mb eb];
    try reflexivity; try (now destruct sa, sb).
  unfold SFsub. rewrite (Z.min_comm eb ea).
  set (x := cond_Zopp sa _). set (y := cond_Zopp sb _).
  replace (y - x)%Z with (- (x - y))%Z by lia.
  now rewrite SFabs_binary_normalize_opp.
Qed.

(** A number minus itself is [0.0]; an infinity or a NaN minus itself is
    a NaN. *)
Lemma sub_diag (a : float) :
  sub a a = if is_finite a then f0_0 else S754_nan.
Proof.
  unfold sub. destruct a as [[]|[]| |s m e]; try reflexivity.
  unfold SFsub. rewrite Z.min_id.
  assert (shl_align m e e = (m, e)) as ->
    by (unfold shl_align; now rewrite Z.sub_diag).
  cbn [fst]. now rewrite Z.sub_diag.
Qed.

Lemma gt_nan_l (b : float) : gt S754_nan b = false.
Proof. unfold gt, SFltb. now destruct b as [| | |[]]. Qed.

Lemma gt_nan_r (a : float) : gt a S754_nan = false.
Proof. reflexivity. Qed.

Lemma sub_nan (a b : float) :
  is_nan a = true \/ is_nan b = true -> sub a b = S754_nan.
Proof.
  destruct a as [| | |], b as [| | |]; cbn; intros [H|H];
    try discriminate; reflexivity.
Qed.

Lemma readability_analyze_flat_map (score : string -> float) (md : float)
    (rows : list PreferenceRow) :
  analyze score md rows = flat_map (analyze_row score md) rows.
Proof.
  unfold analyze.
  enough (forall acc,
            fold_left (fun results row => results ++ analyze_row score md row)
              rows acc
            = acc ++ flat_map (analyze_row score md) rows) as H by apply H.
  induction rows as [|row rows IH]; intros acc; simpl.
  - now rewrite app_nil_r.
  - now rewrite IH, app_assoc.
Qed.

Lemma analyze_row_swap (score : string -> float) (md : float)
    (row : PreferenceRow) :
  analyze_row score md (swap_row row) =
  map swap_finding (analyze_row score md row).
Proof.
  unfold analyze_row, swap_row. cbn [chosen rejected Models.row_id].
  rewrite (abs_sub_comm (score (rejected row)) (score (chosen row))).
  now destruct (gt _ md).
Qed.

(** The detector does not tell the two sides apart: with the chosen and
    the rejected response of every row exchanged, it flags the same rows, in
    the same order, the two grades of each finding exchanged. *)
Theorem readability_swap (score : string -> float) (max_diff : float)
    (rows : list PreferenceRow) :
  analyze score max_diff (map swap_row rows) =
  map swap_finding (analyze score max_diff rows).
Proof.
  rewrite !readability_analyze_flat_map.
  induction rows as [|row rows IH]; [reflexivity|].
  cbn [map flat_map]. now rewrite map_app, analyze_row_swap, IH.
Qed.

(** A row whose two responses get the same grade (two identical
    responses, say) is flagged only when that grade is a number and the
    threshold is negative; a row one of whose grades is a NaN is never
    flagged, and a NaN threshold flags nothing.  The result list holds the
    rows' findings in order, at most one per row. *)
Theorem readability_same_grade :
  (forall (score : string -> float) (max_diff : float) (row : PreferenceRow),
     score (chosen row) = score (rejected row) ->
     analyze_row score max_diff row =
     if is_finite (score (chosen row)) && lt max_diff f0_0
     then [ {| row_id := Models.row_id row;
               chosen_grade := score (chosen row);
               rejected_grade := score (rejected row);
               flagged := true |} ]
     else []) /\
  (forall (score : string -> float) (max_diff : float) (row : PreferenceRow),
     is_nan (score (chosen row)) = true \/
     is_nan (score (rejected row)) = true ->
     analyze_row score max_diff row = []) /\
  (forall (score : string -> float) (row : PreferenceRow),
     analyze_row score S754_nan row = []) /\
  (forall (score : string -> float) (max_diff : float)
          (rows : list PreferenceRow),
     analyze score max_diff rows = flat_map (analyze_row score max_diff) rows
     /\ length (analyze score max_diff rows) <= length rows).
Proof.
  repeat apply conj.
  - intros score md row Heq. unfold analyze_row. rewrite <- Heq, sub_diag.
    destruct (is_finite (score (chosen row))); cbn [andb abs SFabs].
    + reflexivity.
    + now rewrite gt_nan_l.
  - intros score md row H. unfold analyze_row.
    rewrite (sub_nan _ _ H). cbn [abs SFabs]. now rewrite gt_nan_l.
  - intros score row. unfold analyze_row. now rewrite gt_nan_r.
  - intros score max_diff rows.
    split; [apply readability_analyze_flat_map|].
    rewrite readability_analyze_flat_map.
    induction rows as [|row rows IH]; [reflexivity|].
    cbn [flat_map]. rewrite List.length_app. cbn [length].
    assert (length (analyze_row score max_diff row) <= 1); [|lia].
    unfold analyze_row. destruct (gt _ max_diff); cbn; lia.
Qed.

End ReadabilityFacts.

(** ** [src/signals/length_ratio.py]: what can go wrong *)

Section LengthRatioErrors.
Import Float64 Models LengthRatio.

Lemma analyze_row_raises (mr : float) (row : PreferenceRow) (e : exn) :
  analyze_row mr row = Raise e ->
  is_zero mr = true /\ e = ZeroDivisionError "float division by zero".
Proof.
  unfold analyze_row.
  destruct ((String.length (chosen row) =? 0)%nat
            || (String.length (rejected row) =? 0)%nat) eqn:Hz;
    [discriminate|].
  apply orb_false_iff in Hz as [_ Hr%Nat.eqb_neq].
  destruct (String.length (rejected row)) as [|n]; [done|].
  cbn [int_truediv mbind result_bind].
  destruct (gt _ mr); cbn [mbind result_bind].
  - discriminate.
  - unfold truediv. destruct (is_zero mr); cbn [mbind result_bind].
    + now intros [= <-].
    + now destruct (lt _ _).
Qed.

Lemma analyze_row_length (mr : float) (row : PreferenceRow)
    (found : list finding) :
  analyze_row mr row = Ok found ->
  length found <= 1 /\
  forall f, In f found ->
    LengthRatio.row_id f = Models.row_id row /\ flagged f = true.
Proof.
  unfold analyze_row.
  destruct ((String.length (chosen row) =? 0)%nat
            || (String.length (rejected row) =? 0)%nat).
  - intros [= <-]. split; [cbn; lia|]. now intros f [<-|[]].
  - destruct (int_truediv _ _) as [r|e]; cbn [mbind result_bind];
      [|discriminate].
    destruct (if gt r mr then _ else _) as [[]|e]; cbn [mbind result_bind];
      intros [= <-]; (split; [cbn; lia|]); [now intros f [<-|[]]|intros f []].
Qed.

(** The detector raises nothing but ZeroDivisionError, and only at a
    threshold of zero: the test for an empty response keeps the division of
    the two lengths from dividing by zero.  At any other threshold (a NaN
    or an infinity included) the call returns: at most one finding per row,
    each flagged and bearing the id of a row. *)
Theorem length_ratio_errors :
  (forall (mr : float) (rows : list PreferenceRow) (e : exn),
     analyze mr rows = Raise e ->
     is_zero mr = true /\ e = ZeroDivisionError "float division by zero") /\
  (forall (mr : float) (rows : list PreferenceRow),
     is_zero mr = false ->
     exists findings,
       analyze mr rows = Ok findings /\
       length findings <= length rows /\
       forall f, In f findings ->
         flagged f = true /\
         exists row, In row rows /\ LengthRatio.row_id f = Models.row_id row).
Proof.
  assert (forall mr rows e, analyze mr rows = Raise e ->
            is_zero mr = true /\
            e = ZeroDivisionError "float division by zero") as Hraise.
  { intros mr rows e. induction rows as [|row rows IH]; [discriminate|].
    rewrite analyze_cons.
    destruct (analyze_row mr row) as [found|e'] eqn:Hrow;
      cbn [mbind result_bind].
    - destruct (analyze mr rows) as [rest|e'']; cbn [mbind result_bind];
        [discriminate|]. intros [= <-]. now apply IH.
    - intros [= <-]. eapply analyze_row_raises, Hrow. }
  split; [exact Hraise|].
  intros mr rows Hmr. induction rows as [|row rows IH].
  - exists []. split; [reflexivity|]. split; [cbn; lia|]. intros f [].
  - destruct IH as (rest & Hrest & Hlen & Hfs).
    rewrite analyze_cons, Hrest.
    destruct (analyze_row mr row) as [found|e] eqn:Hrow;
      cbn [mbind result_bind].
    + destruct (analyze_row_length mr row found Hrow) as [Hl Hone].
      exists (found ++ rest). split; [reflexivity|]. split.
      * rewrite List.length_app. cbn [length]. lia.
      * intros g [Hin|Hin]%in_app_or.
        -- destruct (Hone g Hin) as [Hid Hfl]. split; [exact Hfl|].
           exists row. split; [now left | exact Hid].
        -- destruct (Hfs g Hin) as (Hfl & row' & Hrow' & Hid).
           split; [exact Hfl|]. exists row'. split; [now right | exact Hid].
    + apply analyze_row_raises in Hrow as [Hz _]. congruence.
Qed.

End LengthRatioErrors.

(** ** [database.py]: what the operations do to the store *)

Section StoreEffects.
Import Float64 Database.

(** [init_db] leaves the three tables in place, each as it was when it
    existed and empty otherwise, with the current version recorded. *)
Lemma init_db_effect now (s : db) :
  exists versions idx,
    init_db now s =
    (Ok tt,
     {| response_pairs := Some (default ∅ (response_pairs s));
        detections := Some (default empty_detections (detections s));
        schema_version := Some versions;
        indexes := idx |}) /\
    versions =
      match default ∅ (schema_version s) !! CURRENT_SCHEMA_VERSION with
      | Some _ => default ∅ (schema_version s)
      | None => <[CURRENT_SCHEMA_VERSION := now]> (default ∅ (schema_version s))
      end.
Proof.
  unfold init_db, get_db_connection, stmt_bind, executescript, execute,
    SCHEMA_SQL, select_version, insert_version, stmt_ret; cbn.
  destruct (default ∅ (schema_version s) !! CURRENT_SCHEMA_VERSION) eqn:Hv;
    cbn; rewrite ?Hv; cbn; eauto.
Qed.

Lemma insert_response_pair_cases now pid c r src (s : db) :
  (exists e, insert_response_pair now pid c r src s = (Raise e, s)) \/
  (exists pairs,
     response_pairs s = Some pairs /\ pairs !! pid = None /\
     insert_response_pair now pid c r src s =
     (Ok tt,
      {| response_pairs :=
           Some (<[pid := {| rp_chosen := c; rp_rejected := r;
                             rp_source_dataset := src;
                             rp_created_at := now |}]> pairs);
         detections := detections s;
         schema_version := schema_version s;
         indexes := indexes s |})).
Proof.
  unfold insert_response_pair. rewrite get_db_connection_execute.
  unfold insert_response_pair_row.
  destruct (response_pairs s) as [pairs|]; [|eauto].
  destruct (pairs !! pid) eqn:Hpid; [eauto|]. right. eauto.
Qed.

Lemma clear_all_data_cases (s : db) :
  (exists e, clear_all_data s = (Raise e, s)) \/
  (exists pairs table,
     response_pairs s = Some pairs /\ detections s = Some table /\
     clear_all_data s =
     (Ok tt,
      {| response_pairs := Some ∅;
         detections :=
           Some {| det_rows := []; det_sequence := det_sequence table |};
         schema_version := schema_version s;
         indexes := indexes s |})).
Proof.
  unfold clear_all_data, get_db_connection, stmt_bind, execute,
    delete_detections, delete_response_pairs; cbn.
  destruct (detections s) as [table|] eqn:Ht; cbn; [|eauto].
  destruct (response_pairs s) as [pairs|] eqn:Hp; cbn; [|eauto].
  right. eauto.
Qed.

Lemma max_rowid_app (rows : list detection_row) (row : detection_row) :
  max_rowid (rows ++ [row]) = Z.max (max_rowid rows) (detection_id row).
Proof.
  unfold max_rowid. induction rows as [|r rows IH]; cbn; [lia|].
  rewrite IH. lia.
Qed.

Lemma max_rowid_nonneg (rows : list detection_row) : (0 <= max_rowid rows)%Z.
Proof. unfold max_rowid. induction rows; cbn; lia. Qed.

Lemma max_rowid_bound (rows : list detection_row) (row : detection_row) :
  In row rows -> (detection_id row <= max_rowid rows)%Z.
Proof.
  unfold max_rowid. induction rows as [|r rows IH]; cbn; [tauto|].
  intros [->|Hin]; [lia|]. specialize (IH Hin). lia.
Qed.

End StoreEffects.

Section StoreInvariants.
Import Float64 Database.

Variable value : Type.
Variable json_dumps : dict value -> result string.

Local Abbreviation insert_detection :=
  (Database.insert_detection value json_dumps).
Local Abbreviation reachable := (Database.reachable value json_dumps).
Local Abbreviation evolves := (Database.evolves value json_dumps).

(** What holds of a new file and is kept by the four operations holds of
    every state they reach. *)
Lemma reachable_invariant (P : db -> Prop) :
  P empty_db ->
  (forall now s, P s -> P (init_db now s).2) ->
  (forall now pid c r src s, P s -> P (insert_response_pair now pid c r src s).2) ->
  (forall now pid sig sev md s, P s -> P (insert_detection now pid sig sev md s).2) ->
  (forall s, P s -> P (clear_all_data s).2) ->
  forall s, reachable s -> P s.
Proof. intros H0 H1 H2 H3 H4 s Hs. induction Hs; auto. Qed.

Lemma evolves_invariant (P : db -> Prop) (s : db) :
  P s ->
  (forall now s, P s -> P (init_db now s).2) ->
  (forall now pid c r src s, P s -> P (insert_response_pair now pid c r src s).2) ->
  (forall now pid sig sev md s, P s -> P (insert_detection now pid sig sev md s).2) ->
  (forall s, P s -> P (clear_all_data s).2) ->
  forall s', evolves s s' -> P s'.
Proof. intros H0 H1 H2 H3 H4 s' Hs. induction Hs; auto. Qed.

Lemma reachable_severities (s : db) : reachable s -> severities_in_range s.
Proof.
  apply reachable_invariant.
  - apply severities_in_range_no_rows. discriminate.
  - intros. now apply init_db_severities.
  - intros. now apply insert_response_pair_severities.
  - intros. now apply insert_detection_severities.
  - intros. now apply clear_all_data_severities.
Qed.

Lemma reachable_foreign_keys_hold (s : db) : reachable s -> foreign_keys_hold s.
Proof.
  apply reachable_invariant.
  - apply foreign_keys_no_rows. discriminate.
  - intros now s' IH.
    destruct (init_db_effect now s') as (versions & idx & -> & _). cbn.
    intros table row [= <-] Hin.
    destruct (detections s') as [t|] eqn:Hds; [|destruct Hin].
    destruct (IH t row Hds Hin) as (pairs & pair & Hps & Hpair).
    exists pairs, pair. cbn. rewrite Hps. auto.
  - intros now pid c r src s' IH.
    destruct (insert_response_pair_cases now pid c r src s')
      as [[e ->]|(pairs & Hp & Hpid & ->)]; [exact IH|]. cbn.
    intros table row Ht Hin. cbn in Ht.
    destruct (IH table row Ht Hin) as (pairs' & pair & Hps & Hpair).
    rewrite Hp in Hps. injection Hps as <-.
    destruct (decide (pid = pair_id row)) as [->|Hne]; [congruence|].
    eexists _, pair. split; [reflexivity|]. now rewrite lookup_insert_ne.
  - intros now pid sig sev md s' IH.
    destruct (insert_detection_cases value json_dumps now pid sig sev md s')
      as [[e ->]|(table & id & j & Ht & Hsev & Hj & Hok)]; [exact IH|].
    rewrite Hok. cbn.
    assert (exists pairs pair,
              response_pairs s' = Some pairs /\ pairs !! pid = Some pair)
      as Hpid.
    { rewrite insert_detection_in_range, Hj, get_db_connection_execute in Hok
        by assumption.
      unfold insert_detection_row in Hok. rewrite Ht in Hok.
      destruct (negb _); [discriminate|].
      destruct (response_pairs s') as [pairs|]; [|discriminate].
      destruct (pairs !! pid) as [pair|] eqn:Hpair; [eauto|discriminate]. }
    intros table' row; cbn. intros [= <-]; cbn.
    rewrite in_app_iff; cbn. intros [Hin|[<-|[]]]; [eauto|exact Hpid].
  - intros s' IH.
    destruct (clear_all_data_cases s')
      as [[e ->]|(pairs & table & Hp & Ht & ->)]; [exact IH|]. cbn.
    apply foreign_keys_no_rows. cbn. now intros t [= <-].
Qed.

Lemma reachable_tables_together (s : db) : reachable s -> tables_together s.
Proof.
  apply reachable_invariant.
  - left. auto.
  - intros now s' _.
    destruct (init_db_effect now s') as (versions & idx & -> & _).
    right. cbn. eauto 10.
  - intros now pid c r src s' IH.
    destruct (insert_response_pair_cases now pid c r src s')
      as [[e ->]|(pairs & Hp & Hpid & ->)]; [exact IH|]. cbn.
    destruct IH as [(H & _)|(p & t & v & _ & Ht & Hv)]; [congruence|].
    right. cbn. eauto 10.
  - intros now pid sig sev md s' IH.
    destruct (insert_detection_cases value json_dumps now pid sig sev md s')
      as [[e ->]|(table & id & j & Ht & Hsev & Hj & ->)]; [exact IH|]. cbn.
    destruct IH as [(_ & H & _)|(p & t & v & Hp & _ & Hv)]; [congruence|].
    right. cbn. eauto 10.
  - intros s' IH.
    destruct (clear_all_data_cases s')
      as [[e ->]|(pairs & table & Hp & Ht & ->)]; [exact IH|]. cbn.
    destruct IH as [(H & _)|(p & t & v & _ & _ & Hv)]; [congruence|].
    right. cbn. eauto 10.
Qed.

Lemma reachable_version_recorded (s : db) : reachable s -> version_recorded s.
Proof.
  apply reachable_invariant.
  - intros versions [=].
  - intros now s' IH.
    destruct (init_db_effect now s') as (versions & idx & -> & Hv). cbn.
    intros versions' [= <-]. subst versions.
    destruct (schema_version s') as [vs|] eqn:Hs; cbn.
    + destruct (IH vs Hs) as [at0 ->].
      rewrite lookup_singleton_eq. eauto.
    + rewrite lookup_empty. exists now. reflexivity.
  - intros now pid c r src s' IH.
    destruct (insert_response_pair_cases now pid c r src s')
      as [[e ->]|(pairs & Hp & Hpid & ->)]; exact IH.
  - intros now pid sig sev md s' IH.
    destruct (insert_detection_cases value json_dumps now pid sig sev md s')
      as [[e ->]|(table & id & j & Ht & Hsev & Hj & ->)]; exact IH.
  - intros s' IH.
    destruct (clear_all_data_cases s')
      as [[e ->]|(pairs & table & Hp & Ht & ->)]; exact IH.
Qed.

(** A successful call: where it started from and what it left. *)
Lemma insert_detection_Ok now pid sig sev md (s s' : db) (id : Z) :
  insert_detection now pid sig sev md s = (Ok id, s') ->
  exists table j pairs pair,
    detections s = Some table /\ metadata_json value json_dumps md = Ok j /\
    in_unit_interval sev = true /\
    response_pairs s = Some pairs /\ pairs !! pid = Some pair /\
    id = (Z.max (det_sequence table) (max_rowid (det_rows table)) + 1)%Z /\
    s' = {| response_pairs := response_pairs s;
            detections :=
              Some {| det_rows := det_rows table ++
                        [ {| detection_id := id; pair_id := pid;
                             signal_type := sig; severity := sev;
                             metadata := j; detected_at := now |} ];
                      det_sequence := id |};
            schema_version := schema_version s;
            indexes := indexes s |}.
Proof.
  intros Hcall.
  destruct (insert_detection_cases value json_dumps now pid sig sev md s)
    as [[e He]|(table & id' & j & Ht & Hsev & Hj & Hok)]; [congruence|].
  assert (id' = id) as -> by congruence.
  rewrite Hok in Hcall. injection Hcall as <-.
  rewrite insert_detection_in_range, Hj, get_db_connection_execute in Hok
    by assumption.
  unfold insert_detection_row in Hok. rewrite Ht in Hok.
  destruct (negb _); [discriminate|].
  destruct (response_pairs s) as [pairs|] eqn:Hp; [|discriminate].
  destruct (pairs !! pid) as [pair|] eqn:Hpid; [|discriminate].
  injection Hok as Hid. exists table, j, pairs, pair.
  repeat split; auto.
Qed.

(** The counter never goes down, and once it bounds the stored ids it
    keeps bounding them. *)
Lemma evolves_sequence (s s' : db) :
  evolves s s' -> sequence_bounds s ->
  sequence_bounds s' /\ (sequence_of s <= sequence_of s')%Z.
Proof.
  intros Hev Hs.
  apply (evolves_invariant
           (fun s' => sequence_bounds s' /\ (sequence_of s <= sequence_of s')%Z)
           s); [split; [exact Hs|lia]| | | | |exact Hev].
  - intros now s0 [Hb Hle].
    destruct (init_db_effect now s0) as (versions & idx & -> & _).
    unfold sequence_bounds, sequence_of in *. cbn.
    destruct (detections s0) as [t|] eqn:Ht; cbn.
    + split; [|exact Hle]. intros table [= <-]. now apply Hb.
    + split; [|exact Hle]. intros table [= <-]. cbn. lia.
  - intros now pid c r src s0 IH.
    destruct (insert_response_pair_cases now pid c r src s0)
      as [[e ->]|(pairs & Hp & Hpid & ->)]; exact IH.
  - intros now pid sig sev md s0 [Hb Hle].
    destruct (insert_detection_cases value json_dumps now pid sig sev md s0)
      as [[e ->]|(table & id & j & Ht & Hsev & Hj & Hok)]; [now split|].
    assert (id = (Z.max (det_sequence table) (max_rowid (det_rows table)) + 1)%Z)
      as Hid.
    { rewrite insert_detection_in_range, Hj, get_db_connection_execute in Hok
        by assumption.
      unfold insert_detection_row in Hok. rewrite Ht in Hok.
      destruct (negb _); [discriminate|].
      destruct (response_pairs s0) as [pairs|]; [|discriminate].
      destruct (pairs !! pid); [|discriminate]. now injection Hok as <-. }
    rewrite Hok. unfold sequence_bounds, sequence_of in *. cbn.
    rewrite Ht in Hle. split; [|lia].
    intros table' [= <-]. cbn. rewrite max_rowid_app. cbn. lia.
  - intros s0 [Hb Hle].
    destruct (clear_all_data_cases s0)
      as [[e ->]|(pairs & table & Hp & Ht & ->)]; [now split|].
    unfold sequence_bounds, sequence_of in *. cbn. rewrite Ht in Hle.
    split; [|exact Hle]. intros table' [= <-]. cbn.
    pose proof (Hb table Ht). pose proof (max_rowid_nonneg (det_rows table)).
    lia.
Qed.

End StoreInvariants.

Section ResponsePairFacts.
Import Float64 Database.

Lemma get_response_pair_lookup (pid : string) (s : db) pairs :
  response_pairs s = Some pairs ->
  get_response_pair pid s = (Ok (pair pid <$> pairs !! pid), s).
Proof.
  intros Hp. unfold get_response_pair, get_db_connection, stmt_bind, execute,
    stmt_ret, select_response_pair; cbn. rewrite Hp.
  now destruct (pairs !! pid).
Qed.

Lemma count_response_pairs_size (s : db) pairs :
  response_pairs s = Some pairs ->
  count_response_pairs s = (Ok (size pairs), s).
Proof.
  intros Hp. unfold count_response_pairs.
  rewrite get_db_connection_execute. unfold select_count_response_pairs.
  now rewrite Hp.
Qed.

(** A stored pair can be read back: after a successful
    [insert_response_pair], [get_response_pair] returns the columns given
    (it returned nothing for that id before), the other ids read as before,
    the count is one more, and a second insert under the same id raises the
    integrity error and changes nothing. *)
Theorem insert_response_pair_lookup now pid c r src (s s' : db) :
  insert_response_pair now pid c r src s = (Ok tt, s') ->
  get_response_pair pid s = (Ok None, s) /\
  get_response_pair pid s' =
    (Ok (Some (pid, {| rp_chosen := c; rp_rejected := r;
                       rp_source_dataset := src; rp_created_at := now |})),
     s') /\
  (forall other,
     other <> pid ->
     (get_response_pair other s').1 = (get_response_pair other s).1) /\
  (exists n,
     count_response_pairs s = (Ok n, s) /\
     count_response_pairs s' = (Ok (S n), s')) /\
  (forall now' c' r' src',
     insert_response_pair now' pid c' r' src' s' =
     (Raise (IntegrityError "UNIQUE constraint failed: response_pairs.pair_id"),
      s')).
Proof.
  intros Hcall.
  destruct (insert_response_pair_cases now pid c r src s)
    as [[e He]|(pairs & Hp & Hpid & Hok)]; [congruence|].
  rewrite Hok in Hcall. injection Hcall as <-.
  set (row := {| rp_chosen := c; rp_rejected := r; rp_source_dataset := src;
                 rp_created_at := now |}).
  set (s' := {| response_pairs := Some (<[pid := row]> pairs);
                detections := detections s;
                schema_version := schema_version s;
                indexes := indexes s |}).
  assert (response_pairs s' = Some (<[pid := row]> pairs)) as Hp'
    by reflexivity.
  repeat apply conj.
  - rewrite (get_response_pair_lookup pid s pairs Hp). now rewrite Hpid.
  - rewrite (get_response_pair_lookup pid s' _ Hp').
    now rewrite lookup_insert_eq.
  - intros other Hne.
    rewrite (get_response_pair_lookup other s' _ Hp'),
      (get_response_pair_lookup other s pairs Hp).
    now rewrite lookup_insert_ne.
  - exists (size pairs).
    rewrite (count_response_pairs_size s pairs Hp),
      (count_response_pairs_size s' _ Hp').
    now rewrite map_size_insert_None.
  - intros now' c' r' src'. unfold insert_response_pair.
    rewrite get_db_connection_execute. unfold insert_response_pair_row.
    rewrite Hp'. now rewrite lookup_insert_eq.
Qed.

End ResponsePairFacts.

Section DetectionIdFacts.
Import Float64 Database.

Variable value : Type.
Variable json_dumps : dict value -> result string.

Local Abbreviation insert_detection :=
  (Database.insert_detection value json_dumps).
Local Abbreviation evolves := (Database.evolves value json_dumps).

(** Detection ids are never handed out twice: an id a call returned is
    positive and below the id any later call returns, whatever the store's
    operations did in between ([clear_all_data], which empties the table,
    included); and the new id is above the id of every stored row. *)
Theorem detection_ids_increase
    now1 pid1 sig1 sev1 md1 (s1 s1' : db) (id1 : Z)
    now2 pid2 sig2 sev2 md2 (s2 s2' : db) (id2 : Z) :
  insert_detection now1 pid1 sig1 sev1 md1 s1 = (Ok id1, s1') ->
  evolves s1' s2 ->
  insert_detection now2 pid2 sig2 sev2 md2 s2 = (Ok id2, s2') ->
  (0 < id1 < id2)%Z /\
  (forall table row,
     detections s2 = Some table -> In row (det_rows table) ->
     (detection_id row < id2)%Z).
Proof.
  intros H1 Hev H2.
  apply insert_detection_Ok in H1
    as (t1 & j1 & p1 & pr1 & Ht1 & _ & _ & _ & _ & Hid1 & Hs1').
  apply insert_detection_Ok in H2
    as (t2 & j2 & p2 & pr2 & Ht2 & _ & _ & _ & _ & Hid2 & _).
  pose proof (max_rowid_nonneg (det_rows t1)) as Hnn.
  assert (sequence_bounds s1' /\ sequence_of s1' = id1) as [Hb Hseq].
  { subst s1'. unfold sequence_bounds, sequence_of. cbn. split; [|reflexivity].
    intros table [= <-]. cbn. rewrite max_rowid_app. cbn. lia. }
  destruct (evolves_sequence value json_dumps s1' s2 Hev Hb) as [Hb2 Hle].
  unfold sequence_of in Hle at 2. rewrite Ht2 in Hle.
  split; [lia|].
  intros table row Ht Hin. rewrite Ht2 in Ht. injection Ht as <-.
  pose proof (max_rowid_bound _ _ Hin). lia.
Qed.

End DetectionIdFacts.

Section SchemaVersionFacts.
Import Float64 Database.

Lemma get_schema_version_cases (s : db) :
  get_schema_version s =
  (Ok (match schema_version s with
       | Some versions => max_version versions
       | None => None
       end), s).
Proof.
  unfold get_schema_version, get_db_connection, stmt_bind, execute, stmt_ret,
    select_max_version; cbn.
  now destruct (schema_version s).
Qed.

Lemma max_version_singleton (v : Z) (t : timestamp) :
  max_version {[ v := t ]} = Some v.
Proof. unfold max_version. now rewrite map_to_list_singleton. Qed.

(** [get_schema_version] never raises and never writes.  It returns
    [None] while the table [schema_version] does not exist, as on a new
    file; in a state the store's operations reach it returns the current
    version, 1, once the table is there, so after every [init_db]. *)
Theorem schema_version_reported :
  (forall s : db, exists v, get_schema_version s = (Ok v, s)) /\
  (forall s : db,
     schema_version s = None -> get_schema_version s = (Ok None, s)) /\
  get_schema_version empty_db = (Ok None, empty_db) /\
  (forall (value : Type) (json_dumps : dict value -> result string) (s : db),
     reachable value json_dumps s ->
     get_schema_version s =
     (Ok (match schema_version s with
          | Some _ => Some CURRENT_SCHEMA_VERSION
          | None => None
          end), s)) /\
  (forall (value : Type) (json_dumps : dict value -> result string) (s : db)
          now,
     reachable value json_dumps s ->
     get_schema_version (init_db now s).2 =
     (Ok (Some CURRENT_SCHEMA_VERSION), (init_db now s).2)).
Proof.
  assert (forall value json_dumps (s : db),
            reachable value json_dumps s ->
            get_schema_version s =
            (Ok (match schema_version s with
                 | Some _ => Some CURRENT_SCHEMA_VERSION
                 | None => None
                 end), s)) as Hreach.
  { intros value json_dumps s Hs. rewrite get_schema_version_cases.
    pose proof (reachable_version_recorded value json_dumps s Hs) as Hv.
    destruct (schema_version s) as [versions|] eqn:Hsv; [|reflexivity].
    destruct (Hv versions Hsv) as [t ->].
    now rewrite max_version_singleton. }
  repeat apply conj.
  - intros s. rewrite get_schema_version_cases. eauto.
  - intros s Hs. rewrite get_schema_version_cases. now rewrite Hs.
  - reflexivity.
  - exact Hreach.
  - intros value json_dumps s now Hs.
    rewrite (Hreach value json_dumps)
      by now apply reachable_init_db.
    destruct (init_db_effect now s) as (versions & idx & -> & _).
    reflexivity.
Qed.

End SchemaVersionFacts.

Section ListFacts.

(** Two tests that agree on the elements of a list select the same
    elements. *)
Lemma filter_agree {A} (P Q : A -> Prop)
    `{forall x, Decision (P x)} `{forall x, Decision (Q x)} (l : list A) :
  (forall x, In x l -> (P x <-> Q x)) -> filter P l = filter Q l.
Proof.
  induction l as [|x l IH]; intros Hl; [reflexivity|].
  rewrite !filter_cons, IH by (intros y Hy; apply Hl; now right).
  destruct (Hl x ltac:(now left)) as [H1 H2].
  destruct (decide (P x)), (decide (Q x)); tauto.
Qed.

Lemma filter_none {A} (P : A -> Prop) `{forall x, Decision (P x)}
    (l : list A) :
  (forall x, In x l -> ~ P x) -> filter P l = [].
Proof.
  induction l as [|x l IH]; intros Hl; [reflexivity|].
  rewrite filter_cons, IH by (intros y Hy; apply Hl; now right).
  destruct (decide (P x)) as [HP|]; [|reflexivity].
  now apply Hl in HP; [|left].
Qed.

Lemma filter_all {A} (P : A -> Prop) `{forall x, Decision (P x)}
    (l : list A) :
  (forall x, In x l -> P x) -> filter P l = l.
Proof.
  induction l as [|x l IH]; intros Hl; [reflexivity|].
  rewrite filter_cons, IH by (intros y Hy; apply Hl; now right).
  destruct (decide (P x)) as [|HP]; [reflexivity|].
  destruct HP. apply Hl. now left.
Qed.

(** A dict built from distinct keys maps each key to its value. *)
Lemma lookup_list_to_map_keys {V} (F : string -> V) (keys : list string)
    (k : string) :
  NoDup keys ->
  (list_to_map (map (fun key => (key, F key)) keys) : gmap string V) !! k =
  if decide (k ∈ keys) then Some (F k) else None.
Proof.
  intros Hnd.
  assert ((map (fun key => (key, F key)) keys).*1 = keys) as Hfst.
  { rewrite <- list_fmap_compose. apply list_fmap_id. }
  destruct (decide (k ∈ keys)) as [Hin|Hout].
  - apply elem_of_list_to_map_1; [now rewrite Hfst|].
    apply list_elem_of_fmap. eauto.
  - apply not_elem_of_list_to_map_1. now rewrite Hfst.
Qed.

End ListFacts.

Section StatisticsFacts.
Import Float64 Detectors Database.

(** The level of a severity in [0, 1]. *)
Lemma severity_level_of (s : float) :
  in_unit_interval s = true ->
  get_severity_level s =
  Ok (if ge s f0_90 then "critical"
      else if ge s f0_70 then "high"
      else if ge s f0_50 then "medium" else "low").
Proof.
  intros H. unfold get_severity_level. fold (in_unit_interval s). rewrite H.
  cbn [negb].
  destruct (ge s f0_90); [reflexivity|].
  destruct (ge s f0_70); [reflexivity|].
  now destruct (ge s f0_50).
Qed.

(** The four tests of the severity distribution pick the rows of the four
    levels. *)
Lemma distribution_levels (rows : list detection_row) :
  (forall r, In r rows -> in_unit_interval (severity r) = true) ->
  filter (fun r => ge (severity r) f0_90 = true) rows
  = rows_at_level "critical" rows /\
  filter (fun r => ge (severity r) f0_70 = true /\
                   lt (severity r) f0_90 = true) rows
  = rows_at_level "high" rows /\
  filter (fun r => ge (severity r) f0_50 = true /\
                   lt (severity r) f0_70 = true) rows
  = rows_at_level "medium" rows /\
  filter (fun r => lt (severity r) f0_50 = true) rows
  = rows_at_level "low" rows.
Proof.
  intros Hr. unfold rows_at_level.
  repeat apply conj; apply filter_agree; intros r Hin;
    specialize (Hr r Hin);
    pose proof (in_unit_interval_not_nan _ Hr) as Hn;
    rewrite (severity_level_of _ Hr);
    rewrite ?(lt_negb_ge (severity r) f0_90), ?(lt_negb_ge (severity r) f0_70),
      ?(lt_negb_ge (severity r) f0_50) by easy;
    pose proof (ge_weaken (severity r) f0_90 f0_70 eq_refl) as W97;
    pose proof (ge_weaken (severity r) f0_70 f0_50 eq_refl) as W75;
    destruct (ge (severity r) f0_90);
    destruct (ge (severity r) f0_70);
    destruct (ge (severity r) f0_50);
    cbn [negb]; intuition congruence.
Qed.

(** Each row with a severity in [0, 1] is at one of the four levels. *)
Lemma levels_partition (rows : list detection_row) :
  (forall r, In r rows -> in_unit_interval (severity r) = true) ->
  length (rows_at_level "critical" rows) + length (rows_at_level "high" rows)
  + length (rows_at_level "medium" rows) + length (rows_at_level "low" rows)
  = length rows.
Proof.
  unfold rows_at_level. induction rows as [|r rows IH]; intros Hr;
    [reflexivity|].
  specialize (IH (fun x Hx => Hr x (or_intror Hx))).
  rewrite !filter_cons, (severity_level_of _ (Hr r (or_introl eq_refl))).
  destruct (ge (severity r) f0_90); [|destruct (ge (severity r) f0_70);
    [|destruct (ge (severity r) f0_50)]];
    repeat (destruct (decide _) as [[=]|?]; try congruence);
    cbn [length]; lia.
Qed.

Lemma rows_of_signal_nonempty (rows : list detection_row) (signal : string) :
  signal ∈ signal_types rows <-> 0 < length (rows_of_signal rows signal).
Proof.
  unfold signal_types, rows_of_signal.
  rewrite elem_of_remove_dups, list_elem_of_fmap. split.
  - intros (r & -> & Hin).
    assert (r ∈ filter (fun r0 => signal_type r0 = signal_type r) rows) as H
      by now apply list_elem_of_filter.
    destruct (filter _ rows); [now apply not_elem_of_nil in H | cbn; lia].
  - intros H. destruct (filter _ rows) as [|r l] eqn:Hf; [cbn in H; lia|].
    assert (r ∈ filter (fun r0 => signal_type r0 = signal) rows) as Hr
      by (rewrite Hf; left).
    apply list_elem_of_filter in Hr as [<- Hr]. eauto.
Qed.

Section Statistics.

Variable sql_avg : list float -> float.
Variable round3 : float -> float.

Lemma get_detection_statistics_Ok (s : db) (table : detections_table) :
  detections s = Some table ->
  exists stats,
    get_detection_statistics sql_avg round3 s = (Ok stats, s) /\
    total_detections stats = length (det_rows table) /\
    (select_severity_distribution s).1 = Ok (severity_distribution stats) /\
    by_signal stats =
    list_to_map
      (map (fun signal =>
              (signal,
               {| count := length (rows_of_signal (det_rows table) signal);
                  avg_severity :=
                    round3 (sql_avg (map severity
                              (rows_of_signal (det_rows table) signal))) |}))
         (signal_types (det_rows table))).
Proof.
  intros Ht.
  unfold get_detection_statistics, get_db_connection, stmt_bind, execute,
    stmt_ret, select_count_detections, select_signal_statistics,
    select_severity_distribution; cbn.
  rewrite Ht; cbn. rewrite Ht; cbn. rewrite Ht; cbn.
  eexists. split; [reflexivity|]. cbn.
  repeat split. now rewrite map_map.
Qed.

(** The report of [get_detection_statistics] adds up.  On a store whose
    severities are all in [0, 1] (every store the operations reach), the
    four counts of the severity distribution are the numbers of stored
    detections that [get_severity_level] puts at the four levels, and they
    sum to the total; "by_signal" has an entry exactly for the signal types
    that some stored detection has, with the number of those detections,
    which is positive. *)
Theorem detection_statistics_add_up (s : db) (stats : statistics) :
  severities_in_range s ->
  (get_detection_statistics sql_avg round3 s).1 = Ok stats ->
  exists table,
    detections s = Some table /\
    get_detection_statistics sql_avg round3 s = (Ok stats, s) /\
    total_detections stats = length (det_rows table) /\
    critical (severity_distribution stats)
    = length (rows_at_level "critical" (det_rows table)) /\
    high (severity_distribution stats)
    = length (rows_at_level "high" (det_rows table)) /\
    medium (severity_distribution stats)
    = length (rows_at_level "medium" (det_rows table)) /\
    low (severity_distribution stats)
    = length (rows_at_level "low" (det_rows table)) /\
    critical (severity_distribution stats) + high (severity_distribution stats)
    + medium (severity_distribution stats) + low (severity_distribution stats)
    = total_detections stats /\
    forall signal,
      match by_signal stats !! signal with
      | Some entry =>
          count entry = length (rows_of_signal (det_rows table) signal) /\
          0 < count entry /\
          avg_severity entry =
          round3 (sql_avg (map severity
                    (rows_of_signal (det_rows table) signal)))
      | None => rows_of_signal (det_rows table) signal = []
      end.
Proof.
  intros Hrange Hcall.
  destruct (detections s) as [table|] eqn:Ht.
  2: { unfold get_detection_statistics, get_db_connection, stmt_bind, execute,
         select_count_detections in Hcall; cbn in Hcall.
       rewrite Ht in Hcall. discriminate Hcall. }
  destruct (get_detection_statistics_Ok s table Ht)
    as (stats' & Hok & Htotal & Hdist & Hby).
  rewrite Hok in Hcall. injection Hcall as <-.
  exists table. split; [reflexivity|]. split; [exact Hok|].
  split; [exact Htotal|].
  assert (forall r, In r (det_rows table) ->
            in_unit_interval (severity r) = true) as Hr
    by (intros r Hin; exact (Hrange table r Ht Hin)).
  destruct (distribution_levels (det_rows table) Hr) as (Hc & Hh & Hm & Hl).
  unfold select_severity_distribution in Hdist. rewrite Ht in Hdist.
  cbn in Hdist. injection Hdist as <-. cbn [critical high medium low].
  rewrite Hc, Hh, Hm, Hl, Htotal.
  repeat split; [apply levels_partition, Hr|].
  intros signal. rewrite Hby.
  rewrite (lookup_list_to_map_keys
             (fun signal =>
                {| count := length (rows_of_signal (det_rows table) signal);
                   avg_severity :=
                     round3 (sql_avg (map severity
                               (rows_of_signal (det_rows table) signal))) |}))
    by apply NoDup_remove_dups.
  destruct (decide (signal ∈ signal_types (det_rows table))) as [Hin|Hout].
  - cbn. repeat split. now apply rows_of_signal_nonempty.
  - rewrite rows_of_signal_nonempty in Hout.
    destruct (rows_of_signal (det_rows table) signal);
      [reflexivity | cbn in Hout; lia].
Qed.

End Statistics.

End StatisticsFacts.

Section QueryFacts.
Import Float64 Detectors Database.

(** The sign of a zero plays no part in a comparison. *)
Lemma ge_real_column (x c : float) : ge (real_column x) c = ge x c.
Proof.
  unfold ge, real_column, SFleb.
  destruct x as [[]| | |]; try reflexivity; now destruct c as [[]|[]| |[]].
Qed.

Lemma in_unit_interval_real_column (x : float) :
  in_unit_interval (real_column x) = in_unit_interval x.
Proof. now destruct x as [[]|[]| |[]]. Qed.

Lemma get_severity_level_real_column (x : float) :
  get_severity_level (real_column x) = get_severity_level x.
Proof. now destruct x as [[]|[]| |[]]. Qed.

Lemma filter_read_detection (P : detection_row -> Prop)
    `{forall r, Decision (P r)} (rows : list detection_row) :
  filter P (map read_detection rows)
  = map read_detection (filter (fun r => P (read_detection r)) rows).
Proof.
  induction rows as [|r rows IH]; [reflexivity|].
  cbn [map]. rewrite !filter_cons, IH.
  now destruct (decide (P (read_detection r))).
Qed.

Lemma sum_list_with_cons {A} (f : A -> nat) (x : A) (l : list A) :
  sum_list_with f (x :: l) = f x + sum_list_with f l.
Proof. reflexivity. Qed.

(** Summing the sizes of the groups counts every row once. *)
Lemma sum_indicator (keys : list string) (k0 : string) :
  NoDup keys -> k0 ∈ keys ->
  sum_list_with (fun k => if decide (k0 = k) then 1 else 0) keys = 1.
Proof.
  induction 1 as [|k keys Hk Hnd IH]; intros Hin.
  - now apply not_elem_of_nil in Hin.
  - cbn. apply elem_of_cons in Hin as [->|Hin].
    + rewrite decide_True by reflexivity.
      assert (sum_list_with (fun k0 => if decide (k = k0) then 1 else 0) keys
              = 0) as ->; [|reflexivity].
      clear IH Hnd. induction keys as [|k' keys IH]; [reflexivity|]. cbn.
      rewrite decide_False by (intros ->; apply Hk; left).
      apply IH. intros H. apply Hk. now right.
    + rewrite decide_False by (intros ->; contradiction). now rewrite IH.
Qed.

Lemma sum_groups (rows : list detection_row) (keys : list string) :
  NoDup keys -> (forall r, In r rows -> signal_type r ∈ keys) ->
  sum_list_with (fun k => length (rows_of_signal rows k)) keys = length rows.
Proof.
  intros Hnd. induction rows as [|r rows IH]; intros Hkeys.
  - clear. induction keys as [|k keys IH]; [reflexivity|]. exact IH.
  - specialize (IH (fun x Hx => Hkeys x (or_intror Hx))).
    assert (sum_list_with
              (fun k => length (rows_of_signal (r :: rows) k)) keys
            = sum_list_with
                (fun k => if decide (signal_type r = k) then 1 else 0) keys
              + sum_list_with (fun k => length (rows_of_signal rows k)) keys)
      as ->.
    { clear. induction keys as [|k keys IH]; [reflexivity|].
      rewrite !sum_list_with_cons, IH. unfold rows_of_signal.
      rewrite filter_cons.
      destruct (decide (signal_type r = k)); cbn [length]; lia. }
    rewrite IH, sum_indicator; [reflexivity|exact Hnd|].
    apply Hkeys. now left.
Qed.

Lemma sum_list_snd (F : string -> nat) (keys : list string) :
  sum_list (map snd (map (fun k => (k, F k)) keys)) = sum_list_with F keys.
Proof. induction keys as [|k keys IH]; [reflexivity|]. cbn. now rewrite IH. Qed.

(** With every detection's pair in place, the join keeps every
    detection. *)
Lemma join_keeps (pairs : gmap string response_pair_row)
    (rows : list detection_row) :
  (forall d, In d rows -> exists pair, pairs !! pair_id d = Some pair) ->
  map hs_detection (omap (join_pair pairs) rows) = rows.
Proof.
  induction rows as [|d rows IH]; intros Hfk; [reflexivity|].
  destruct (Hfk d ltac:(now left)) as [pair Hpair].
  cbn [omap list_omap]. unfold join_pair at 1. rewrite Hpair. cbn.
  now rewrite IH by (intros; apply Hfk; now right).
Qed.

Lemma join_pair_Some (pairs : gmap string response_pair_row)
    (d : detection_row) (row : high_severity_row) :
  join_pair pairs d = Some row ->
  hs_detection row = d /\
  exists pair, pairs !! pair_id d = Some pair /\
               hs_chosen row = rp_chosen pair /\
               hs_rejected row = rp_rejected pair.
Proof.
  unfold join_pair. destruct (pairs !! pair_id d) as [pair|]; cbn;
    [|discriminate]. intros [= <-]. cbn. eauto.
Qed.

Section OrderBy.

Variable order_by : forall A : Type, (A -> A -> bool) -> list A -> list A.

(** All that is asked of the sorter: it returns the rows it is given. *)
Hypothesis order_by_permutes :
  forall (A : Type) (before : A -> A -> bool) (l : list A),
    order_by A before l ≡ₚ l.

Lemma order_by_nil (A : Type) (before : A -> A -> bool) :
  order_by A before [] = [].
Proof. apply Permutation_nil_r, order_by_permutes. Qed.

Lemma order_by_In (A : Type) (before : A -> A -> bool) (l : list A) (x : A) :
  In x (order_by A before l) <-> In x l.
Proof.
  rewrite <- !list_elem_of_In. now rewrite (order_by_permutes A before l).
Qed.

(** [count_detections_by_signal] has one item for each signal type that
    some stored detection has, with the number of those detections; the
    numbers are positive and sum to the number of stored detections. *)
Theorem signal_counts_add_up (s : db) (counts : list (string * nat)) :
  (count_detections_by_signal order_by s).1 = Ok counts ->
  exists table,
    detections s = Some table /\
    count_detections_by_signal order_by s = (Ok counts, s) /\
    NoDup (map fst counts) /\
    (forall signal n,
       In (signal, n) counts <->
       n = length (rows_of_signal (det_rows table) signal) /\ 0 < n) /\
    sum_list (map snd counts) = length (det_rows table).
Proof.
  unfold count_detections_by_signal. rewrite get_db_connection_execute.
  unfold select_signal_counts.
  destruct (detections s) as [table|]; [|discriminate].
  cbn. intros [= <-]. exists table. split; [reflexivity|].
  split; [reflexivity|].
  set (groups := map _ (signal_types (det_rows table))).
  pose proof (order_by_permutes _ (fun a b : string * nat => (b.2 <=? a.2)%nat)
                groups) as Hperm.
  assert (map fst groups = signal_types (det_rows table)) as Hkeys.
  { unfold groups. rewrite <- list_fmap_compose. apply list_fmap_id. }
  repeat apply conj.
  - rewrite Hperm, Hkeys. apply NoDup_remove_dups.
  - intros signal n. rewrite order_by_In. unfold groups.
    rewrite <- list_elem_of_In, list_elem_of_fmap. split.
    + intros (k & [= -> ->] & Hk). split; [reflexivity|].
      now apply rows_of_signal_nonempty.
    + intros [-> Hn]. exists signal. split; [reflexivity|].
      now apply rows_of_signal_nonempty.
  - rewrite Hperm. unfold groups. rewrite sum_list_snd.
    apply sum_groups; [apply NoDup_remove_dups|].
    intros r Hr. unfold signal_types.
    apply elem_of_remove_dups, list_elem_of_fmap. exists r.
    split; [reflexivity | now apply list_elem_of_In].
Qed.

Lemma get_detections_for_pair_rows (pid : string) (s : db)
    (table : detections_table) :
  detections s = Some table ->
  exists rows,
    get_detections_for_pair order_by pid s = (Ok rows, s) /\
    rows ≡ₚ map read_detection
              (filter (fun r => pair_id r = pid) (det_rows table)).
Proof.
  intros Ht. unfold get_detections_for_pair.
  rewrite get_db_connection_execute. unfold select_detections_for_pair.
  rewrite Ht. eexists. split; [reflexivity|].
  rewrite order_by_permutes.
  now rewrite (filter_read_detection (fun r => pair_id r = pid)).
Qed.

Section Store.

Variable value : Type.
Variable json_dumps : dict value -> result string.

(** A stored detection can be read back.  After a successful
    [insert_detection], the detections of the pair are the ones it had
    before and the new one, which bears the id the call returned and the
    columns given (the severity without the sign of a zero); the detections
    of the other pairs are as before. *)
Theorem insert_detection_lookup now pid sig sev md (s s' : db) (id : Z) :
  insert_detection value json_dumps now pid sig sev md s = (Ok id, s') ->
  exists before after j,
    metadata_json value json_dumps md = Ok j /\
    get_detections_for_pair order_by pid s = (Ok before, s) /\
    get_detections_for_pair order_by pid s' = (Ok after, s') /\
    after ≡ₚ {| detection_id := id; pair_id := pid; signal_type := sig;
                severity := real_column sev; metadata := j;
                detected_at := now |} :: before /\
    forall other,
      other <> pid ->
      get_detections_for_pair order_by other s' =
      ((get_detections_for_pair order_by other s).1, s').
Proof.
  intros Hcall.
  apply insert_detection_Ok in Hcall
    as (table & j & pairs & pair & Ht & Hj & _ & _ & _ & _ & ->).
  set (s' := {| response_pairs := _ |}).
  set (row := {| detection_id := id |}) in s'.
  assert (detections s' = Some {| det_rows := det_rows table ++ [row];
                                  det_sequence := id |}) as Ht' by reflexivity.
  destruct (get_detections_for_pair_rows pid s table Ht) as (before & Hb & Pb).
  destruct (get_detections_for_pair_rows pid s' _ Ht') as (after & Ha & Pa).
  exists before, after, j. repeat split; try assumption.
  - rewrite Pa, Pb. cbn [det_rows]. rewrite filter_app, map_app.
    rewrite filter_cons, decide_True by reflexivity. cbn.
    now rewrite Permutation_app_comm.
  - intros other Hne. unfold get_detections_for_pair.
    rewrite !get_db_connection_execute. unfold select_detections_for_pair.
    rewrite Ht, Ht'. cbn [det_rows fst].
    rewrite map_app, filter_app. cbn [map].
    rewrite (filter_cons _ (read_detection row)), decide_False by (cbn; auto).
    now rewrite filter_nil, app_nil_r.
Qed.

(** [get_all_pair_ids] lists the stored pair ids, each once: as many as
    [count_response_pairs] counts, and the ids [get_response_pair] finds.
    In a state the store's operations reach, a pair id that is not listed
    has no detections. *)
Theorem pair_ids_listed (s : db) (ids : list string) :
  reachable value json_dumps s ->
  (get_all_pair_ids order_by s).1 = Ok ids ->
  get_all_pair_ids order_by s = (Ok ids, s) /\
  NoDup ids /\
  count_response_pairs s = (Ok (length ids), s) /\
  (forall pid,
     In pid ids <->
     exists row, get_response_pair pid s = (Ok (Some (pid, row)), s)) /\
  (forall pid,
     ~ In pid ids -> get_detections_for_pair order_by pid s = (Ok [], s)).
Proof.
  intros Hreach. unfold get_all_pair_ids.
  rewrite get_db_connection_execute. unfold select_pair_ids.
  destruct (response_pairs s) as [pairs|] eqn:Hp; [|discriminate].
  cbn. intros [= <-].
  set (sorted := order_by _ _ (map_to_list pairs)).
  assert (sorted ≡ₚ map_to_list pairs) as Hperm by apply order_by_permutes.
  assert (forall pid, In pid (map fst sorted) <-> is_Some (pairs !! pid))
    as Hin.
  { intros pid. rewrite <- list_elem_of_In, Hperm, list_elem_of_fmap. split.
    - intros ([k row] & -> & Hk%elem_of_map_to_list). cbn. eauto.
    - intros [row Hrow]. exists (pid, row).
      split; [reflexivity | now apply elem_of_map_to_list]. }
  repeat apply conj.
  - reflexivity.
  - rewrite Hperm. apply NoDup_fst_map_to_list.
  - unfold count_response_pairs. rewrite get_db_connection_execute.
    unfold select_count_response_pairs. rewrite Hp.
    now rewrite length_map, Hperm, length_map_to_list.
  - intros pid. rewrite Hin.
    unfold get_response_pair, get_db_connection, stmt_bind, execute,
      stmt_ret, select_response_pair; cbn. rewrite Hp.
    destruct (pairs !! pid) as [row|]; cbn; split.
    + eauto.
    + eauto.
    + intros [row [=]].
    + intros [row [=]].
  - intros pid Hout. rewrite Hin in Hout.
    destruct (reachable_tables_together value json_dumps s Hreach)
      as [(H & _)|(p & table & v & _ & Ht & _)]; [congruence|].
    destruct (get_detections_for_pair_rows pid s table Ht)
      as (rows & -> & Prows).
    rewrite filter_none in Prows.
    + apply Permutation_nil_r in Prows. now subst.
    + intros r Hr Hpid.
      destruct (reachable_foreign_keys_hold value json_dumps s Hreach
                  table r Ht Hr) as (pairs' & pair & Hp' & Hpair).
      apply Hout. rewrite Hp in Hp'. injection Hp' as <-.
      rewrite <- Hpid. eauto.
Qed.

(** With its default threshold, [get_high_severity_detections] returns
    the detections that [get_severity_level] calls critical, each with the
    two responses of its pair; in a state the store's operations reach the
    join drops none of them. *)
Theorem high_severity_are_critical (s : db) (rows : list high_severity_row) :
  reachable value json_dumps s ->
  (get_high_severity_detections order_by default_min_severity_high s).1
  = Ok rows ->
  exists table pairs,
    detections s = Some table /\ response_pairs s = Some pairs /\
    get_high_severity_detections order_by default_min_severity_high s
    = (Ok rows, s) /\
    map hs_detection rows
    ≡ₚ map read_detection (rows_at_level "critical" (det_rows table)) /\
    forall row, In row rows ->
      get_severity_level (severity (hs_detection row)) = Ok "critical" /\
      exists pair,
        pairs !! pair_id (hs_detection row) = Some pair /\
        hs_chosen row = rp_chosen pair /\ hs_rejected row = rp_rejected pair.
Proof.
  intros Hreach. unfold get_high_severity_detections.
  rewrite get_db_connection_execute. unfold select_high_severity.
  destruct (detections s) as [table|] eqn:Ht; [|discriminate].
  destruct (response_pairs s) as [pairs|] eqn:Hp; [|discriminate].
  cbn. intros [= <-]. exists table, pairs.
  split; [reflexivity|]. split; [reflexivity|]. split; [reflexivity|].
  pose proof (reachable_severities value json_dumps s Hreach) as Hrange.
  pose proof (reachable_foreign_keys_hold value json_dumps s Hreach) as Hfk.
  set (hits := filter _ (map read_detection (det_rows table))).
  assert (hits = map read_detection (rows_at_level "critical" (det_rows table)))
    as Hhits.
  { unfold hits, default_min_severity_high.
    rewrite (filter_read_detection (fun r => ge (severity r) f0_90 = true)).
    f_equal. unfold rows_at_level. apply filter_agree. intros r Hr.
    cbn [read_detection severity]. rewrite ge_real_column.
    rewrite (severity_level_of _ (Hrange table r Ht Hr)).
    destruct (ge (severity r) f0_90); [tauto|].
    destruct (ge (severity r) f0_70); [|destruct (ge (severity r) f0_50)];
      split; congruence. }
  assert (forall d, In d hits ->
            get_severity_level (severity d) = Ok "critical" /\
            exists pair, pairs !! pair_id d = Some pair) as Hhit.
  { intros d. rewrite Hhits, in_map_iff. intros (r & <- & Hr).
    unfold rows_at_level in Hr.
    apply list_elem_of_In, list_elem_of_filter in Hr as [Hlevel Hr].
    apply list_elem_of_In in Hr. cbn [read_detection severity pair_id].
    rewrite get_severity_level_real_column. split; [exact Hlevel|].
    destruct (Hfk table r Ht Hr) as (pairs' & pair & Hp' & Hpair).
    rewrite Hp in Hp'. injection Hp' as <-. eauto. }
  split.
  - rewrite order_by_permutes, join_keeps, Hhits; [reflexivity|].
    intros d Hd. now apply Hhit.
  - intros row. rewrite order_by_In, <- list_elem_of_In, list_elem_of_omap.
    intros (d & Hd%list_elem_of_In & Hjoin).
    apply join_pair_Some in Hjoin as (-> & pair & Hpair & Hc & Hr).
    split; [now apply Hhit | eauto].
Qed.

End Store.

(** With its default threshold, [get_detections_by_signal] leaves out no
    detection of the signal type, on a store whose severities are all in
    [0, 1] (every store the operations reach): the threshold 0.0 excludes
    nothing.  At any threshold it returns the detections of the type whose
    severity is at least the threshold. *)
Theorem detections_by_signal_default (s : db) (signal : string)
    (table : detections_table) :
  severities_in_range s -> detections s = Some table ->
  (exists rows,
     get_detections_by_signal order_by signal default_min_severity_by_signal s
     = (Ok rows, s) /\
     rows ≡ₚ map read_detection (rows_of_signal (det_rows table) signal)) /\
  (forall min_severity, exists rows,
     get_detections_by_signal order_by signal min_severity s = (Ok rows, s) /\
     rows ≡ₚ map read_detection
               (filter (fun r => signal_type r = signal /\
                                 ge (severity r) min_severity = true)
                  (det_rows table))).
Proof.
  intros Hrange Ht.
  assert (forall min_severity, exists rows,
            get_detections_by_signal order_by signal min_severity s
            = (Ok rows, s) /\
            rows ≡ₚ map read_detection
                      (filter (fun r => signal_type r = signal /\
                                        ge (severity r) min_severity = true)
                         (det_rows table))) as Hany.
  { intros m. unfold get_detections_by_signal.
    rewrite get_db_connection_execute. unfold select_detections_by_signal.
    rewrite Ht. eexists. split; [reflexivity|].
    rewrite order_by_permutes.
    rewrite (filter_read_detection
               (fun r => signal_type r = signal /\ ge (severity r) m = true)).
    apply Permutation_refl', f_equal, filter_agree. intros r Hr.
    cbn [read_detection severity signal_type]. now rewrite ge_real_column. }
  split; [|exact Hany].
  destruct (Hany default_min_severity_by_signal) as (rows & Hrows & Prows).
  exists rows. split; [exact Hrows|]. rewrite Prows.
  apply Permutation_refl', f_equal. unfold rows_of_signal.
  apply filter_agree. intros r Hr.
  specialize (Hrange table r Ht Hr). unfold in_unit_interval in Hrange.
  apply andb_true_iff in Hrange as [H0 _].
  unfold default_min_severity_by_signal, ge. unfold le in H0. tauto.
Qed.

End OrderBy.

End QueryFacts.

(** ** [database.py]: before and after [init_db] *)

Section MissingTables.
Import Float64 Database.

Variable order_by : forall A : Type, (A -> A -> bool) -> list A -> list A.

Hypothesis order_by_permutes :
  forall (A : Type) (before : A -> A -> bool) (l : list A),
    order_by A before l ≡ₚ l.

Variable value : Type.
Variable json_dumps : dict value -> result string.
Variable sql_avg : list float -> float.
Variable round3 : float -> float.

(** The call raised [sqlite3.OperationalError] and left the database as it
    was. *)
Local Abbreviation refused call s :=
  (exists msg, call = (Raise (OperationalError msg), s)).


End MissingTables.

(** ** Rows from the constructor, through the length-ratio detector *)

Section ValidatedRows.
Import Float64 Models LengthRatio.

Lemma post_init_nonempty (row : PreferenceRow) :
  __post_init__ row = Ok tt ->
  Models.row_id row <> "" /\ prompt row <> "" /\ chosen row <> "" /\
  rejected row <> "".
Proof.
  unfold __post_init__.
  destruct (str_falsy (Models.row_id row)) eqn:Hi; [discriminate|].
  destruct (str_falsy (prompt row)) eqn:Hp; [discriminate|].
  destruct (str_falsy (chosen row)) eqn:Hc; [discriminate|].
  destruct (str_falsy (rejected row)) eqn:Hr; [discriminate|].
  apply str_falsy_false in Hi, Hp, Hc, Hr. auto.
Qed.

(** The null ratio is for rows that did not go through the constructor.
    A row the PreferenceRow constructor accepted has two non-empty
    responses, so the length-ratio detector never reports it with a ratio
    of [None]: whatever it reports for such rows carries the quotient of
    the two lengths, and the ratio is flagged by one of the two tests. *)
Theorem validated_rows_have_ratio (mr : float) (rows : list PreferenceRow)
    (findings : list finding) :
  Forall (fun row => __post_init__ row = Ok tt) rows ->
  analyze mr rows = Ok findings ->
  forall f, In f findings ->
    exists row r,
      In row rows /\ LengthRatio.row_id f = Models.row_id row /\
      ratio f = Some r /\ flagged f = true /\
      int_truediv (String.length (chosen row)) (String.length (rejected row))
      = Ok r /\
      (gt r mr = true \/
       exists bound, truediv f1_0 mr = Ok bound /\ lt r bound = true).
Proof.
  revert findings. induction rows as [|row rows IH]; intros findings Hval.
  - intros [= <-] f [].
  - apply Forall_cons in Hval as [Hrow Hrows]. rewrite analyze_cons.
    destruct (analyze_row mr row) as [found|e] eqn:Hfound;
      cbn [mbind result_bind]; [|discriminate].
    destruct (analyze mr rows) as [rest|e] eqn:Hrest;
      cbn [mbind result_bind]; [|discriminate].
    intros [= <-] f [Hin|Hin]%in_app_or.
    + exists row. clear IH Hrest.
      apply post_init_nonempty in Hrow as (_ & _ & Hc & Hr).
      apply length_pos in Hc, Hr. unfold analyze_row in Hfound.
      destruct (String.length (chosen row)) as [|n] eqn:Hn; [lia|].
      destruct (String.length (rejected row)) as [|m] eqn:Hm; [lia|].
      cbn [Nat.eqb orb int_truediv mbind result_bind] in Hfound.
      set (r := SFdiv prec emax (of_nat (S n)) (of_nat (S m))) in *.
      exists r. cbn [int_truediv].
      destruct (gt r mr) eqn:Hgt; cbn [mbind result_bind] in Hfound.
      * injection Hfound as <-. destruct Hin as [<-|[]].
        split; [now left|]. repeat split. now left.
      * destruct (truediv f1_0 mr) as [bound|e] eqn:Hb;
          cbn [mbind result_bind] in Hfound; [|discriminate].
        destruct (lt r bound) eqn:Hlt; injection Hfound as <-;
          [|destruct Hin].
        destruct Hin as [<-|[]].
        split; [now left|]. repeat split. right. eauto.
    + destruct (IH rest Hrows eq_refl f Hin) as (row' & r & Hin' & H).
      exists row', r. split; [now right | exact H].
Qed.

End ValidatedRows.

(** ** [database.py]: a detection stored is a detection counted *)

Section CountedDetections.
Import Float64 Detectors Database.

Variable value : Type.
Variable json_dumps : dict value -> result string.
Variable sql_avg : list float -> float.
Variable round3 : float -> float.

Lemma length_filter_snoc {A} (P : A -> Prop) `{forall x, Decision (P x)}
    (l : list A) (x : A) :
  length (filter P (l ++ [x]))
  = length (filter P l) + (if decide (P x) then 1 else 0).
Proof.
  rewrite filter_app, List.length_app, filter_cons, filter_nil.
  now destruct (decide (P x)).
Qed.

(** Each successful [insert_detection] shows in the statistics: the total
    goes up by one, and so does the count of the level that
    [get_severity_level] gives the severity of the new detection; the three
    other counts stay. *)
Theorem insert_detection_counted now pid sig sev md (s s' : db) (id : Z) :
  insert_detection value json_dumps now pid sig sev md s = (Ok id, s') ->
  exists stats stats' level,
    get_detection_statistics sql_avg round3 s = (Ok stats, s) /\
    get_detection_statistics sql_avg round3 s' = (Ok stats', s') /\
    get_severity_level sev = Ok level /\
    total_detections stats' = S (total_detections stats) /\
    critical (severity_distribution stats')
    = critical (severity_distribution stats)
      + (if decide (level = "critical") then 1 else 0) /\
    high (severity_distribution stats')
    = high (severity_distribution stats)
      + (if decide (level = "high") then 1 else 0) /\
    medium (severity_distribution stats')
    = medium (severity_distribution stats)
      + (if decide (level = "medium") then 1 else 0) /\
    low (severity_distribution stats')
    = low (severity_distribution stats)
      + (if decide (level = "low") then 1 else 0) /\
    In level ["critical"; "high"; "medium"; "low"].
Proof.
  intros Hcall.
  apply insert_detection_Ok in Hcall
    as (table & j & pairs & pair & Ht & Hj & Hsev & _ & _ & _ & ->).
  set (s' := {| response_pairs := _ |}).
  set (row := {| detection_id := id |}) in s'.
  assert (detections s' = Some {| det_rows := det_rows table ++ [row];
                                  det_sequence := id |}) as Ht' by reflexivity.
  destruct (get_detection_statistics_Ok sql_avg round3 s table Ht)
    as (stats & Hok & Htotal & Hdist & _).
  destruct (get_detection_statistics_Ok sql_avg round3 s' _ Ht')
    as (stats' & Hok' & Htotal' & Hdist' & _).
  exists stats, stats'. eexists.
  split; [exact Hok|]. split; [exact Hok'|].
  split; [exact (severity_level_of sev Hsev)|].
  unfold select_severity_distribution in Hdist, Hdist'.
  rewrite Ht in Hdist. rewrite Ht' in Hdist'. cbn in Hdist, Hdist'.
  injection Hdist as <-. injection Hdist' as <-.
  cbn [critical high medium low]. cbn [det_rows] in Htotal'.
  rewrite Htotal, Htotal', !length_filter_snoc, List.length_app.
  cbn [length det_rows severity row].
  pose proof (in_unit_interval_not_nan sev Hsev) as Hn.
  rewrite (lt_negb_ge sev f0_90), (lt_negb_ge sev f0_70),
    (lt_negb_ge sev f0_50) by easy.
  pose proof (ge_weaken sev f0_90 f0_70 eq_refl) as W97.
  pose proof (ge_weaken sev f0_70 f0_50 eq_refl) as W75.
  split; [lia|].
  destruct (ge sev f0_90) eqn:H9; [rewrite W97, W75 by auto|];
    [|destruct (ge sev f0_70) eqn:H7; [rewrite W75 by auto|];
      [|destruct (ge sev f0_50) eqn:H5]];
    cbn [negb];
    repeat match goal with
    | |- context [decide ?P] => destruct (decide P) as [?|?]
    end.
  all: repeat split; try lia; try congruence.
  all: try (intuition congruence).
  all: cbn [In]; tauto.
Qed.

End CountedDetections.

(** ** Worked cases *)

Section WorkedCases.
Import Float64 Models Database Examples.

Lemma insert_by_permutes {A} (before : A -> A -> bool) (x : A) (l : list A) :
  insert_by before x l ≡ₚ x :: l.
Proof.
  induction l as [|y l IH]; [reflexivity|]. cbn.
  destruct (before x y); [reflexivity|]. rewrite IH. apply perm_swap.
Qed.

Lemma insertion_sort_permutes (A : Type) (before : A -> A -> bool)
    (l : list A) :
  insertion_sort A before l ≡ₚ l.
Proof.
  induction l as [|x l IH]; [reflexivity|]. cbn.
  now rewrite insert_by_permutes, IH.
Qed.

Lemma store_with_two_detections_reachable :
  reachable string dumps_text store_with_two_detections.
Proof.
  apply reachable_insert_detection, reachable_insert_detection,
    reachable_insert_response_pair, reachable_init_db, reachable_empty.
Qed.

(** The first sample conversation reads back. *)
Lemma parse_conversation_round_trip_witness :
  HHRLHF.parse_conversation (conversation "What is 2 + 2?" "4.")
  = Ok ("What is 2 + 2?", "4.").
Proof.
  apply (parse_conversation_round_trip "What is 2 + 2?" "4.");
    [discriminate | reflexivity | reflexivity].
Defined.

(** Loading one example of the sample dataset. *)
Lemma load_rows_witness :
  exists dataset,
    HHRLHF.selected load_dataset select
      {| HHRLHF.split := "train"; HHRLHF.limit := Some 1%Z |} dataset /\
    length [first_row] = length dataset /\
    NoDup (map Models.row_id [first_row]) /\
    forall idx ex, dataset !! idx = Some ex ->
      exists row rejected_prompt,
        [first_row] !! idx = Some row /\
        Models.row_id row = HHRLHF.row_id_of "train" idx /\
        HHRLHF.parse_conversation (HHRLHF.ex_chosen ex)
        = Ok (prompt row, chosen row) /\
        HHRLHF.parse_conversation (HHRLHF.ex_rejected ex)
        = Ok (rejected_prompt, rejected row) /\
        prompt row <> "" /\ chosen row <> "" /\ rejected row <> "".
Proof.
  destruct (load_rows load_dataset select
              {| HHRLHF.split := "train"; HHRLHF.limit := Some 1%Z |})
    as [Hok _].
  exact (Hok [first_row] eq_refl).
Defined.

(** Storing the pair of the sample store, and reading it back. *)
Lemma insert_response_pair_lookup_witness :
  get_response_pair "hh-rlhf-train-0" (init_db t0 empty_db).2
  = (Ok None, (init_db t0 empty_db).2) /\
  get_response_pair "hh-rlhf-train-0" store =
    (Ok (Some ("hh-rlhf-train-0",
               {| rp_chosen := "Sure, here it is."; rp_rejected := "No.";
                  rp_source_dataset := "hh-rlhf"; rp_created_at := t1 |})),
     store) /\
  (forall other,
     other <> "hh-rlhf-train-0" ->
     (get_response_pair other store).1
     = (get_response_pair other (init_db t0 empty_db).2).1) /\
  (exists n,
     count_response_pairs (init_db t0 empty_db).2
     = (Ok n, (init_db t0 empty_db).2) /\
     count_response_pairs store = (Ok (S n), store)) /\
  (forall now' c' r' src',
     insert_response_pair now' "hh-rlhf-train-0" c' r' src' store =
     (Raise (IntegrityError "UNIQUE constraint failed: response_pairs.pair_id"),
      store)).
Proof.
  apply (insert_response_pair_lookup t1 "hh-rlhf-train-0" "Sure, here it is."
           "No." "hh-rlhf" (init_db t0 empty_db).2 store).
  reflexivity.
Defined.

(** The detection stored after the sample store was cleared gets the id
    2, not the id 1 of the detection that was deleted. *)
Lemma detection_ids_increase_witness :
  (0 < 1 < 2)%Z /\
  (forall table row,
     detections store_refilled = Some table -> In row (det_rows table) ->
     (detection_id row < 2)%Z).
Proof.
  apply (detection_ids_increase string dumps_text
           t2 "hh-rlhf-train-0" "refusal_bias" f1_0
           (Some [("reason", "refusal")]) store store_with_detection 1%Z
           t2 "hh-rlhf-train-0" "length_ratio" f0_50 None
           store_refilled
           (Database.insert_detection string dumps_text t2 "hh-rlhf-train-0"
              "length_ratio" f0_50 None store_refilled).2 2%Z).
  - reflexivity.
  - apply evolves_insert_response_pair, evolves_clear_all_data, evolves_refl.
  - reflexivity.
Defined.

(** The statistics of the sample store with its two detections, one
    critical and one medium. *)
Lemma detection_statistics_add_up_witness :
  exists stats,
    (get_detection_statistics mean keep store_with_two_detections).1
    = Ok stats /\
    exists table,
      detections store_with_two_detections = Some table /\
      get_detection_statistics mean keep store_with_two_detections
      = (Ok stats, store_with_two_detections) /\
      total_detections stats = length (det_rows table) /\
      critical (severity_distribution stats)
      = length (rows_at_level "critical" (det_rows table)) /\
      high (severity_distribution stats)
      = length (rows_at_level "high" (det_rows table)) /\
      medium (severity_distribution stats)
      = length (rows_at_level "medium" (det_rows table)) /\
      low (severity_distribution stats)
      = length (rows_at_level "low" (det_rows table)) /\
      critical (severity_distribution stats)
      + high (severity_distribution stats)
      + medium (severity_distribution stats)
      + low (severity_distribution stats)
      = total_detections stats /\
      forall signal,
        match by_signal stats !! signal with
        | Some entry =>
            count entry = length (rows_of_signal (det_rows table) signal) /\
            0 < count entry /\
            avg_severity entry =
            keep (mean (map severity
                          (rows_of_signal (det_rows table) signal)))
        | None => rows_of_signal (det_rows table) signal = []
        end.
Proof.
  eexists. split; [reflexivity|].
  apply detection_statistics_add_up; [|reflexivity].
  apply (reachable_severities string dumps_text),
    store_with_two_detections_reachable.
Defined.

(** The signal counts of the sample store with its two detections. *)
Lemma signal_counts_add_up_witness :
  exists counts,
    (count_detections_by_signal insertion_sort store_with_two_detections).1
    = Ok counts /\
    exists table,
      detections store_with_two_detections = Some table /\
      count_detections_by_signal insertion_sort store_with_two_detections
      = (Ok counts, store_with_two_detections) /\
      NoDup (map fst counts) /\
      (forall signal n,
         In (signal, n) counts <->
         n = length (rows_of_signal (det_rows table) signal) /\ 0 < n) /\
      sum_list (map snd counts) = length (det_rows table).
Proof.
  eexists. split; [reflexivity|].
  apply signal_counts_add_up; [apply insertion_sort_permutes | reflexivity].
Defined.

(** The second detection of the sample store, read back. *)
Lemma insert_detection_lookup_witness :
  exists before after j,
    metadata_json string dumps_text None = Ok j /\
    get_detections_for_pair insertion_sort "hh-rlhf-train-0"
      store_with_detection = (Ok before, store_with_detection) /\
    get_detections_for_pair insertion_sort "hh-rlhf-train-0"
      store_with_two_detections = (Ok after, store_with_two_detections) /\
    after ≡ₚ {| detection_id := 2; pair_id := "hh-rlhf-train-0";
                signal_type := "length_ratio";
                severity := real_column f0_50; metadata := j;
                detected_at := t2 |} :: before /\
    forall other,
      other <> "hh-rlhf-train-0" ->
      get_detections_for_pair insertion_sort other store_with_two_detections =
      ((get_detections_for_pair insertion_sort other store_with_detection).1,
       store_with_two_detections).
Proof.
  apply (insert_detection_lookup insertion_sort insertion_sort_permutes
           string dumps_text).
  reflexivity.
Defined.

(** The pair ids of the sample store with its two detections. *)
Lemma pair_ids_listed_witness :
  get_all_pair_ids insertion_sort store_with_two_detections
  = (Ok ["hh-rlhf-train-0"], store_with_two_detections) /\
  NoDup ["hh-rlhf-train-0"] /\
  count_response_pairs store_with_two_detections
  = (Ok (length ["hh-rlhf-train-0"]), store_with_two_detections) /\
  (forall pid,
     In pid ["hh-rlhf-train-0"] <->
     exists row,
       get_response_pair pid store_with_two_detections
       = (Ok (Some (pid, row)), store_with_two_detections)) /\
  (forall pid,
     ~ In pid ["hh-rlhf-train-0"] ->
     get_detections_for_pair insertion_sort pid store_with_two_detections
     = (Ok [], store_with_two_detections)).
Proof.
  apply (pair_ids_listed insertion_sort insertion_sort_permutes
           string dumps_text).
  - apply store_with_two_detections_reachable.
  - reflexivity.
Defined.

(** The one critical detection of the sample store. *)
Lemma high_severity_are_critical_witness :
  exists rows,
    (get_high_severity_detections insertion_sort default_min_severity_high
       store_with_two_detections).1 = Ok rows /\
    exists table pairs,
      detections store_with_two_detections = Some table /\
      response_pairs store_with_two_detections = Some pairs /\
      get_high_severity_detections insertion_sort default_min_severity_high
        store_with_two_detections
      = (Ok rows, store_with_two_detections) /\
      map hs_detection rows
      ≡ₚ map read_detection (rows_at_level "critical" (det_rows table)) /\
      forall row, In row rows ->
        Detectors.get_severity_level (severity (hs_detection row))
        = Ok "critical" /\
        exists pair,
          pairs !! pair_id (hs_detection row) = Some pair /\
          hs_chosen row = rp_chosen pair /\
          hs_rejected row = rp_rejected pair.
Proof.
  eexists. split; [reflexivity|].
  apply (high_severity_are_critical insertion_sort insertion_sort_permutes
           string dumps_text).
  - apply store_with_two_detections_reachable.
  - reflexivity.
Defined.

(** The detections of the sample store by signal type. *)
Lemma detections_by_signal_default_witness :
  exists table,
    detections store_with_two_detections = Some table /\
    (exists rows,
       get_detections_by_signal insertion_sort "length_ratio"
         default_min_severity_by_signal store_with_two_detections
       = (Ok rows, store_with_two_detections) /\
       rows ≡ₚ map read_detection
                 (rows_of_signal (det_rows table) "length_ratio")) /\
    (forall min_severity, exists rows,
       get_detections_by_signal insertion_sort "length_ratio" min_severity
         store_with_two_detections
       = (Ok rows, store_with_two_detections) /\
       rows ≡ₚ map read_detection
                 (filter (fun r => signal_type r = "length_ratio" /\
                                   ge (severity r) min_severity = true)
                    (det_rows table))).
Proof.
  eexists. split; [reflexivity|].
  apply (detections_by_signal_default insertion_sort insertion_sort_permutes).
  - apply (reachable_severities string dumps_text),
      store_with_two_detections_reachable.
  - reflexivity.
Defined.


(** A row with a chosen response seven times as long as the rejected one
    is reported, with its ratio. *)
Lemma validated_rows_have_ratio_witness :
  exists findings,
    LengthRatio.analyze LengthRatio.default_max_ratio
      [row_saying "A much longer answer."] = Ok findings /\
    findings <> [] /\
    forall f, In f findings ->
      exists row r,
        In row [row_saying "A much longer answer."] /\
        LengthRatio.row_id f = Models.row_id row /\
        LengthRatio.ratio f = Some r /\ LengthRatio.flagged f = true /\
        int_truediv (String.length (chosen row))
          (String.length (rejected row)) = Ok r /\
        (gt r LengthRatio.default_max_ratio = true \/
         exists bound,
           truediv f1_0 LengthRatio.default_max_ratio = Ok bound /\
           lt r bound = true).
Proof.
  eexists. split; [reflexivity|]. split; [discriminate|].
  apply (validated_rows_have_ratio LengthRatio.default_max_ratio
           [row_saying "A much longer answer."]);
    [repeat constructor | reflexivity].
Defined.

(** The second detection of the sample store, of medium severity, in the
    statistics. *)
Lemma insert_detection_counted_witness :
  exists stats stats' level,
    get_detection_statistics mean keep store_with_detection
    = (Ok stats, store_with_detection) /\
    get_detection_statistics mean keep store_with_two_detections
    = (Ok stats', store_with_two_detections) /\
    Detectors.get_severity_level f0_50 = Ok level /\
    total_detections stats' = S (total_detections stats) /\
    critical (severity_distribution stats')
    = critical (severity_distribution stats)
      + (if decide (level = "critical") then 1 else 0) /\
    high (severity_distribution stats')
    = high (severity_distribution stats)
      + (if decide (level = "high") then 1 else 0) /\
    medium (severity_distribution stats')
    = medium (severity_distribution stats)
      + (if decide (level = "medium") then 1 else 0) /\
    low (severity_distribution stats')
    = low (severity_distribution stats)
      + (if decide (level = "low") then 1 else 0) /\
    In level ["critical"; "high"; "medium"; "low"].
Proof.
  apply (insert_detection_counted string dumps_text mean keep t2
           "hh-rlhf-train-0" "length_ratio" f0_50 None
           store_with_detection store_with_two_detections 2%Z).
  reflexivity.
Defined.

End WorkedCases.
